(** * LWC decorator registration and wiring: a shallow embedding

    The development follows three source modules of the repository:
    - the wire-service adapter ([register], [WireAdapter]),
    - the engine's [api] and [wire] decorators (property descriptors and the
      per-instance wire connector),
    - the engine's [register.ts] ([registerDecorators], [getDecoratorsMeta]
      and the reactive-parameter config extractor).

    JavaScript functions that may throw or that mutate state are embedded in
    a state-and-exception monad; objects used as dictionaries are finite maps
    or, where enumeration order matters, association lists. *)

From Stdlib Require Import ZArith List Ascii String Lia.
From stdpp Require Import base strings gmap list pretty.

Set Default Proof Using "Type".
Set Warnings "-register-all".
Open Scope string_scope.
Open Scope list_scope.

(** ** JavaScript values and completion records *)

Module Js.

(** The values that flow through the modelled code.  Functions are opaque
    and identified by a number; a function is also an object and may carry
    own properties.  [VClass factory props] is the anonymous class that
    [register] creates (it closes over the factory callback). *)
Inductive value : Type :=
| VUndefined
| VNull
| VBool (b : bool)
| VNum (n : Z)
| VStr (s : string)
| VObj (props : list (string * value))
| VFun (f : nat) (props : list (string * value))
| VClass (factory : value) (props : list (string * value)).

Inductive error : Type :=
| TypeError (msg : string)
| Error (msg : string)
| AssertionError (msg : string)
| ReferenceError (msg : string).

Inductive result (A : Type) : Type :=
| Ok (a : A)
| Throw (e : error).
Arguments Ok {A} a.
Arguments Throw {A} e.

(** [v != null] *)
Definition is_nullish (v : value) : bool :=
  match v with VUndefined | VNull => true | _ => false end.

(** ToBoolean *)
Definition truthy (v : value) : bool :=
  match v with
  | VUndefined | VNull => false
  | VBool b => b
  | VNum n => negb (n =? 0)%Z
  | VStr s => negb (String.eqb s EmptyString)
  | VObj _ | VFun _ _ | VClass _ _ => true
  end.

(** [typeof v === 'function'] *)
Definition isFunction (v : value) : bool :=
  match v with VFun _ _ | VClass _ _ => true | _ => false end.

Definition is_object (v : value) : bool :=
  match v with VObj _ | VFun _ _ | VClass _ _ => true | _ => false end.

Fixpoint assoc {A} (k : string) (l : list (string * A)) : option A :=
  match l with
  | [] => None
  | (k', a) :: l' => if String.eqb k k' then Some a else assoc k l'
  end.

(** [o[k] = a] on an ordinary object: an existing key keeps its place, a new
    key is appended. *)
Fixpoint assoc_set {A} (k : string) (a : A) (l : list (string * A))
  : list (string * A) :=
  match l with
  | [] => [(k, a)]
  | (k', a') :: l' =>
      if String.eqb k k' then (k, a) :: l' else (k', a') :: assoc_set k a l'
  end.

(** [k in v].  On a primitive the operator throws. *)
Definition has_property (k : string) (v : value) : result bool :=
  match v with
  | VObj ps | VFun _ ps | VClass _ ps =>
      Ok (bool_decide (is_Some (assoc k ps)))
  | _ => Throw (TypeError "Cannot use 'in' operator to search for a key in a primitive")
  end.

(** [v[k]].  Reading a member of [null] or [undefined] throws; members that
    primitives inherit from their wrapper prototypes are not modelled. *)
Definition get_member (v : value) (k : string) : result value :=
  match v with
  | VUndefined | VNull =>
      Throw (TypeError "Cannot read properties of null or undefined")
  | VObj ps | VFun _ ps | VClass _ ps =>
      Ok (default VUndefined (assoc k ps))
  | _ => Ok VUndefined
  end.

(** [v[k] = x] in strict mode on an extensible ordinary object.  The
    target is returned updated, which stands for the mutation of the shared
    object.  Assigning a property of a primitive throws. *)
Definition set_member (v : value) (k : string) (x : value) : result value :=
  match v with
  | VUndefined | VNull =>
      Throw (TypeError "Cannot set properties of null or undefined")
  | VObj ps => Ok (VObj (assoc_set k x ps))
  | VFun f ps => Ok (VFun f (assoc_set k x ps))
  | VClass c ps => Ok (VClass c (assoc_set k x ps))
  | _ => Throw (TypeError "Cannot create property on a primitive")
  end.

(** [Object.assign(target, source)] for own enumerable data properties. *)
Definition assign1 (target source : list (string * value))
  : list (string * value) :=
  fold_left (fun acc kv => assoc_set kv.1 kv.2 acc) source target.

End Js.
Export Js.

(** ** The state-and-exception monad *)

Definition M (S A : Type) : Type := S -> result A * S.

Definition ret {S A} (a : A) : M S A := fun s => (Ok a, s).
Definition throw {S A} (e : error) : M S A := fun s => (Throw e, s).
Definition bind {S A B} (m : M S A) (k : A -> M S B) : M S B :=
  fun s => match m s with
           | (Ok a, s') => k a s'
           | (Throw e, s') => (Throw e, s')
           end.
Definition gets {S A} (f : S -> A) : M S A := fun s => (Ok (f s), s).
Definition modify {S} (f : S -> S) : M S unit := fun s => (Ok tt, f s).
Definition when {S} (b : bool) (m : M S unit) : M S unit :=
  if b then m else ret tt.

(** [m] leaves the observation [f] of the state unchanged, whether it
    returns or throws. *)
Definition preserves {S A B} (f : S -> B) (m : M S A) : Prop :=
  forall s, f (m s).2 = f s.

Declare Scope js_scope.
Delimit Scope js_scope with js.
Notation "x <- m ;; k" := (bind m (fun x => k))
  (at level 100, m at next level, right associativity) : js_scope.
Notation "m ;;; k" := (bind m (fun _ => k))
  (at level 100, right associativity) : js_scope.
Open Scope js_scope.

(** [for (const x of l) body(x)] / [forEach.call(l, body)] *)
Fixpoint forEach {S A} (l : list A) (body : A -> M S unit) : M S unit :=
  match l with
  | [] => ret tt
  | x :: l' => body x ;;; forEach l' body
  end.

(** ** The wire-service package: [register] and [WireAdapter] *)

Module WireService.

(** [register(adapterId, adapterEventTargetCallback)].  The first component
    of the result lists the error objects that the body constructs with
    [new TypeError(...)] as expression statements; none of them is thrown.
    The second component is the completion, carrying [adapterId] after the
    assignment of its [adapter] property. *)
Definition register (adapterId adapterEventTargetCallback : value)
  : list error * result value :=
  let e1 := if negb (truthy adapterId)
            then [TypeError "adapter id must be truthy"] else [] in
  let e2 := if negb (isFunction adapterEventTargetCallback)
            then [TypeError "adapter factory must be a callable"] else [] in
  match has_property "adapter" adapterId with
  | Throw e => (e1 ++ e2, Throw e)
  | Ok b =>
      let e3 := if b
                then [TypeError "adapter id is already associated to an adapter factory"]
                else [] in
      (e1 ++ e2 ++ e3,
       set_member adapterId "adapter" (VClass adapterEventTargetCallback []))
  end.

(** The three validation errors of [register]. *)
Definition validation_errors : list error :=
  [ TypeError "adapter id must be truthy";
    TypeError "adapter factory must be a callable";
    TypeError "adapter id is already associated to an adapter factory" ].

(** Listeners are functions supplied from outside; they are identified by a
    number and their invocations are recorded. *)
Definition listener := nat.

Inductive call : Type :=
| Invoke (f : listener) (args : list value)
| InvokeContextualizer (f : listener) (uid : string).

(** A property of the [contexting] object.  The object is created with
    [create(null)] and is meant to map a uid to an array of listeners; the
    generic [Array.prototype.push] applied to the object itself also stores
    a function under an index key and a number under [length]. *)
Inductive slot : Type :=
| Listeners (ls : list listener)
| Fn (f : listener)
| Len (n : nat).

Record WireAdapter : Type := mkWireAdapter {
  callback : listener;
  contextualizer : option listener;
  connecting : list listener;
  disconnecting : list listener;
  configuring : list listener;
  contexting : gmap string slot;
  calls : list call   (* invocations made so far, oldest first *)
}.

Inductive event : Type :=
| ValueChangedEvent (v : value)
| LinkContextEvent (uid : string) (cb : listener)
| OtherEvent (type : string).

(** [new WireAdapter(callback, contextualizer)] *)
Definition new_WireAdapter (cb : listener) (ctx : option listener)
  : WireAdapter :=
  {| callback := cb; contextualizer := ctx;
     connecting := []; disconnecting := []; configuring := [];
     contexting := ∅; calls := [] |}.

Definition set_connecting f (a : WireAdapter) :=
  mkWireAdapter (callback a) (contextualizer a) (f (connecting a))
    (disconnecting a) (configuring a) (contexting a) (calls a).
Definition set_disconnecting f (a : WireAdapter) :=
  mkWireAdapter (callback a) (contextualizer a) (connecting a)
    (f (disconnecting a)) (configuring a) (contexting a) (calls a).
Definition set_configuring f (a : WireAdapter) :=
  mkWireAdapter (callback a) (contextualizer a) (connecting a)
    (disconnecting a) (f (configuring a)) (contexting a) (calls a).
Definition set_contexting f (a : WireAdapter) :=
  mkWireAdapter (callback a) (contextualizer a) (connecting a)
    (disconnecting a) (configuring a) (f (contexting a)) (calls a).
Definition log (c : call) (a : WireAdapter) :=
  mkWireAdapter (callback a) (contextualizer a) (connecting a)
    (disconnecting a) (configuring a) (contexting a) (calls a ++ [c]).

(** [listener.call(undefined, args...)] *)
Definition invoke (f : listener) (args : list value) : M WireAdapter unit :=
  modify (log (Invoke f args)).

(** [removeListener]: [indexOf] then [splice(idx, 1)]. *)
Fixpoint removeListener (listeners : list listener) (toRemove : listener)
  : list listener :=
  match listeners with
  | [] => []
  | l :: ls => if Nat.eqb l toRemove then ls
               else l :: removeListener ls toRemove
  end.

Definition addEventListener (type : string) (l : listener)
  : M WireAdapter unit :=
  if String.eqb type "connect" then modify (set_connecting (fun ls => ls ++ [l]))
  else if String.eqb type "disconnect" then modify (set_disconnecting (fun ls => ls ++ [l]))
  else if String.eqb type "config" then modify (set_configuring (fun ls => ls ++ [l]))
  else throw (Error ("Invalid event type " +:+ type +:+ ".")).

Definition removeEventListener (type : string) (l : listener)
  : M WireAdapter unit :=
  if String.eqb type "connect"
  then modify (set_connecting (fun ls => removeListener ls l))
  else if String.eqb type "disconnect"
  then modify (set_disconnecting (fun ls => removeListener ls l))
  else if String.eqb type "config"
  then modify (set_configuring (fun ls => removeListener ls l))
  else throw (Error ("Invalid event type " +:+ type +:+ ".")).

(** ToLength of the [length] property of [contexting]: [undefined] and an
    array of functions both convert to NaN, hence to 0. *)
Definition ToLength (s : option slot) : nat :=
  match s with
  | Some (Len n) => n
  | _ => 0
  end.

(** [ArrayPush.call(o, cb)] on the [contexting] object [o]: the generic
    [push] stores [cb] under the key [ToString(len)] and sets
    [o.length = len + 1]. *)
Definition ArrayPush_call (o : gmap string slot) (cb : listener)
  : gmap string slot :=
  let len := ToLength (o !! "length") in
  <["length" := Len (S len)]> (<[pretty len := Fn cb]> o).

Definition dispatchEvent (evt : event) : M WireAdapter bool :=
  match evt with
  | ValueChangedEvent v =>
      cb <- gets callback ;;
      invoke cb [v] ;;;
      ret false
  | LinkContextEvent uid cb =>
      ctx <- gets contextualizer ;;
      match ctx with
      | Some c =>
          ctxing <- gets contexting ;;
          match ctxing !! uid with
          | Some _ =>
              (* ArrayPush.call(this.contexting, callback) *)
              modify (set_contexting (fun o => ArrayPush_call o cb))
          | None =>
              modify (set_contexting (fun o => <[uid := Listeners [cb]]> o))
          end ;;;
          modify (log (InvokeContextualizer c uid)) ;;;
          ret false
      | None => ret false
      end
  | OtherEvent type => throw (Error ("Invalid event type " +:+ type +:+ "."))
  end.

Definition update (config : value) : M WireAdapter unit :=
  ls <- gets configuring ;;
  forEach ls (fun l => invoke l [config]).

(** [context(uid, value)].  [forEach.call] visits the index properties
    below [length]: all elements of an array, none of a function or of a
    number. *)
Definition context (uid : string) (v : value) : M WireAdapter unit :=
  ctxing <- gets contexting ;;
  match ctxing !! uid with
  | Some (Listeners ls) => forEach ls (fun l => invoke l [v])
  | Some (Fn _) | Some (Len _) => ret tt
  | None => ret tt
  end.

Definition connect : M WireAdapter unit :=
  ls <- gets connecting ;;
  forEach ls (fun l => invoke l []).

Definition disconnect : M WireAdapter unit :=
  ls <- gets disconnecting ;;
  forEach ls (fun l => invoke l []).

(** Listeners registered for [uid]: the array stored under that key. *)
Definition listeners_of (uid : string) (a : WireAdapter) : list listener :=
  match contexting a !! uid with
  | Some (Listeners ls) => ls
  | _ => []
  end.

(** The listeners invoked in a call log. *)
Definition invoked (cs : list call) : list listener :=
  flat_map (fun c => match c with
                     | Invoke f _ => [f]
                     | InvokeContextualizer _ _ => []
                     end) cs.

End WireService.


(** ** The engine: virtual machines, notifications, property descriptors *)

Module Engine.

(** Classes and component instances are identified by reference. *)
Definition ComponentConstructor := nat.
Definition ComponentInterface := nat.

Inductive VMState : Type := created | connected | disconnected.

(** Modelled from the spec: the part of a component's VM (../vm, not among
    the sources) that the decorators use: the per-instance storage tables
    for public-property values and for tracked- and wired-field values, the
    pending-rerender flag and the connection state. *)
Record VM : Type := mkVM {
  cmpProps : gmap string value;    (* public-property storage *)
  cmpFields : gmap string value;   (* tracked- and wired-field storage *)
  isDirty : bool;
  state : VMState
}.

(** What the decorators ask of their collaborators, oldest first. *)
Inductive effect : Type :=
| Observed (target : ComponentInterface) (key : string)
| Mutated (target : ComponentInterface) (key : string)
| LoggedError (msg : string)
| Invoked (target : ComponentInterface) (method : value) (args : list value).

(** The state outside the decorators: the VM of each component, the
    invoker's [isRendering] and [vmBeingConstructed], and the trace. *)
Record Runtime : Type := mkRuntime {
  vms : gmap ComponentInterface VM;
  isRendering : bool;
  vmBeingConstructed : option ComponentInterface;
  trace : list effect
}.

Definition set_vms (f : gmap ComponentInterface VM -> gmap ComponentInterface VM)
  (rt : Runtime) : Runtime :=
  mkRuntime (f (vms rt)) (isRendering rt) (vmBeingConstructed rt) (trace rt).
Definition emit (e : effect) (rt : Runtime) : Runtime :=
  mkRuntime (vms rt) (isRendering rt) (vmBeingConstructed rt) (trace rt ++ [e]).

Definition set_cmpProps (f : gmap string value -> gmap string value) (vm : VM) :=
  mkVM (f (cmpProps vm)) (cmpFields vm) (isDirty vm) (state vm).
Definition set_cmpFields (f : gmap string value -> gmap string value) (vm : VM) :=
  mkVM (cmpProps vm) (f (cmpFields vm)) (isDirty vm) (state vm).

(** A property descriptor.  Getters and setters are functions of the
    receiver ([this]) that run against the runtime. *)
Record PropertyDescriptor : Type := mkPD {
  pd_get : option (ComponentInterface -> M Runtime value);
  pd_set : option (ComponentInterface -> value -> M Runtime unit);
  pd_value : option value;
  pd_writable : option bool;
  pd_enumerable : bool;
  pd_configurable : bool
}.

(** Modelled from the spec: [valueObserved] and [valueMutated] of
    libs/mutation-tracker, the global read and write notification hooks; a
    notification is recorded in the trace. *)
Definition valueObserved (target : ComponentInterface) (key : string)
  : M Runtime unit := modify (emit (Observed target key)).
Definition valueMutated (target : ComponentInterface) (key : string)
  : M Runtime unit := modify (emit (Mutated target key)).

(** Modelled from the spec: the shared [assert] module (shared/assert): a
    failed assertion throws, [logError] only reports. *)
Definition assert_isTrue {S} (b : bool) (msg : string) : M S unit :=
  if b then ret tt else throw (AssertionError msg).
Definition assert_invariant {S} (b : bool) (msg : string) : M S unit :=
  if b then ret tt else throw (AssertionError msg).
Definition assert_fail {S A} (msg : string) : M S A :=
  throw (AssertionError msg).
Definition assert_logError (msg : string) : M Runtime unit :=
  modify (emit (LoggedError msg)).

(** Modelled from the spec: [isBeingConstructed(vm)] of the invoker, the
    per-instance query whether the instance is under construction. *)
Definition isBeingConstructed (this : ComponentInterface) : M Runtime bool :=
  gets (fun rt => bool_decide (vmBeingConstructed rt = Some this)).

(** [vm.cmpProps[key]] and friends; [vm] may be [undefined]. *)
Definition vm_read {S} (vm : option VM) (table : VM -> gmap string value)
  (key : string) : M S value :=
  match vm with
  | Some vm => ret (default VUndefined (table vm !! key))
  | None => throw (TypeError "Cannot read properties of undefined")
  end.

Definition vm_isDirty {S} (vm : option VM) : M S bool :=
  match vm with
  | Some vm => ret (isDirty vm)
  | None => throw (TypeError "Cannot read properties of undefined")
  end.

(** [vm.cmpProps[key] = v]: the table is shared with the VM stored in the
    runtime, so the write is a write to that VM. *)
Definition vm_write (this : ComponentInterface) (vm : option VM)
  (upd : (gmap string value -> gmap string value) -> VM -> VM)
  (key : string) (v : value) : M Runtime unit :=
  match vm with
  | Some _ => modify (set_vms (alter (upd (<[key := v]>)) this))
  | None => throw (TypeError "Cannot read properties of undefined")
  end.

Section Decorators.

(** [process.env.NODE_ENV === 'production'] *)
Variable production : bool.

(** The free identifier [name] in [createFieldDataCallback]: it is bound
    by no enclosing scope of the module, so it denotes the global [name]
    of the host environment (a string in a browser window, unbound
    elsewhere). *)
Variable global_name : option string.

Definition dev : bool := negb production.

(** Modelled from the spec: [getComponentVM(this)] of ../vm, the VM of a
    component; in a development build an object without a VM is rejected,
    in a production build the result is [undefined]. *)
Definition getComponentVM (this : ComponentInterface)
  : M Runtime (option VM) :=
  vm <- gets (fun rt => vms rt !! this) ;;
  when dev (assert_isTrue (bool_decide (is_Some vm)) "component has no VM") ;;;
  ret vm.

(** *** api.ts *)

Definition createPublicPropertyDescriptor (key : string)
  : PropertyDescriptor :=
  {| pd_get := Some (fun this =>
       vm <- getComponentVM this ;;
       when dev (assert_isTrue (bool_decide (is_Some vm)) "not a vm") ;;;
       constructing <- isBeingConstructed this ;;
       if constructing : bool then
         when dev
           (assert_logError
              ("constructor can not read the value of property " +:+ key)) ;;;
         ret VUndefined
       else
         valueObserved this key ;;;
         vm_read vm cmpProps key);
     pd_set := Some (fun this newValue =>
       vm <- getComponentVM this ;;
       when dev
         (assert_isTrue (bool_decide (is_Some vm)) "not a vm" ;;;
          rendering <- gets isRendering ;;
          assert_invariant (negb rendering)
            ("render() method has side effects on the state of " +:+ key)) ;;;
       vm_write this vm set_cmpProps key newValue ;;;
       (* avoid notification of observability if the instance is already dirty *)
       dirty <- vm_isDirty vm ;;
       when (negb dirty) (valueMutated this key));
     pd_value := None;
     pd_writable := None;
     pd_enumerable := true;
     pd_configurable := true |}.

Definition createPublicAccessorDescriptor {S} (key : string)
  (descriptor : option PropertyDescriptor) : M S PropertyDescriptor :=
  match descriptor with
  | None => throw (TypeError "Cannot destructure undefined")
  | Some d =>
      match pd_get d with
      | None => throw (TypeError EmptyString)
      | Some get =>
          ret {| pd_get := Some (fun this =>
                   when dev
                     (vm <- getComponentVM this ;;
                      assert_isTrue (bool_decide (is_Some vm)) "not a vm") ;;;
                   get this);
                 pd_set := Some (fun this newValue =>
                   vm <- getComponentVM this ;;
                   when dev
                     (assert_isTrue (bool_decide (is_Some vm)) "not a vm" ;;;
                      rendering <- gets isRendering ;;
                      assert_invariant (negb rendering)
                        ("render() method has side effects on the state of "
                           +:+ key)) ;;;
                   match pd_set d with
                   | Some set => set this newValue
                   | None =>
                       when dev
                         (assert_fail
                            ("Invalid attempt to set a new value for property "
                               +:+ key))
                   end);
                 pd_value := None;
                 pd_writable := None;
                 pd_enumerable := pd_enumerable d;
                 pd_configurable := pd_configurable d |}
      end
  end.

(** *** wire.ts *)

Definition internalWireFieldDecorator (key : string) : PropertyDescriptor :=
  {| pd_get := Some (fun this =>
       vm <- getComponentVM this ;;
       when dev (assert_isTrue (bool_decide (is_Some vm)) "not a vm") ;;;
       valueObserved this key ;;;
       vm_read vm cmpFields key);
     pd_set := Some (fun _ _v => (* ignore *) ret tt);
     pd_value := None;
     pd_writable := None;
     pd_enumerable := true;
     pd_configurable := true |}.

(** [createFieldDataCallback(vm)]: the returned closure holds the VM's
    component and its [cmpFields] table; the key it uses is the free
    identifier [name]. *)
Definition createFieldDataCallback (component : ComponentInterface)
  : value -> M Runtime unit :=
  fun v =>
    match global_name with
    | None => throw (ReferenceError "name is not defined")
    | Some name =>
        (* storing the value in the underlying storage *)
        modify (set_vms (alter (set_cmpFields (<[name := v]>)) component)) ;;;
        valueMutated component name
    end.

(** [createMethodDataCallback(vm, method)]: the call
    [invokeComponentCallback(vm, method, [value])] is recorded. *)
Definition createMethodDataCallback (component : ComponentInterface)
  (method : value) : value -> M Runtime unit :=
  fun v => modify (emit (Invoked component method [v])).

(** *** register.ts: data produced by the compiler *)

(** A [Record<string, T>] is an association list in [for...in] order. *)
Record PropCompilerDef : Type := mkPropCompilerDef {
  config : Z;     (* PropType: Field = 0, Set = 1, Get = 2, GetSet = 3 *)
  type : string
}.

Record WireCompilerDef : Type := mkWireCompilerDef {
  wc_method : option Z;
  wc_adapter : value;
  wc_params : option (list (string * string));
  wc_static : option (list (string * value))
}.

Record RegisterDecoratorMeta : Type := mkRegisterDecoratorMeta {
  publicMethods : option (list string);
  publicProps : option (list (string * PropCompilerDef));
  track : option (list (string * Z));
  wire : option (list (string * WireCompilerDef));
  fields : option (list string)
}.

Record DecoratorMeta : Type := mkDecoratorMeta {
  apiMethods : list string;
  apiFields : list string;
  wiredMethods : list string;
  wiredFields : list string
}.

(** A reactive parameter: a dot-notation member expression. *)
Record ReactiveParameter : Type := mkReactiveParameter {
  reference : string;   (* the complete parameter (aka original foo.bar.baz) *)
  head : string;        (* head of the parameter *)
  tail : list string    (* remaining tail of the parameter *)
}.

(** Evaluating a config against a host: the state is the list of host
    properties read so far. *)
Definition Host : Type -> Type := M (list string).
Definition ConfigCallback : Type := value -> Host value.

(** Produced by the runtime normalization ([WireDef] of wire.ts). *)
Record WireDef : Type := mkWireDef {
  method : option value;
  adapter : value;
  configCallback : ConfigCallback
}.

(** The module-level state of register.ts and wire.ts, and the own
    properties of each class prototype. *)
Record Registry : Type := mkRegistry {
  prototypes : gmap ComponentConstructor (gmap string PropertyDescriptor);
  signedDecoratorToMetaMap : gmap ComponentConstructor DecoratorMeta;
  WireMetaMap : gmap ComponentConstructor (list (string * WireDef));
  refCache : gmap string ReactiveParameter
}.

Definition set_prototypes f (r : Registry) : Registry :=
  mkRegistry (f (prototypes r)) (signedDecoratorToMetaMap r) (WireMetaMap r)
    (refCache r).
Definition set_signedDecoratorToMetaMap f (r : Registry) : Registry :=
  mkRegistry (prototypes r) (f (signedDecoratorToMetaMap r)) (WireMetaMap r)
    (refCache r).
Definition set_WireMetaMap f (r : Registry) : Registry :=
  mkRegistry (prototypes r) (signedDecoratorToMetaMap r) (f (WireMetaMap r))
    (refCache r).
Definition set_refCache f (r : Registry) : Registry :=
  mkRegistry (prototypes r) (signedDecoratorToMetaMap r) (WireMetaMap r)
    (f (refCache r)).

(** [Ctor.prototype]: its own properties. *)
Definition proto_of (Ctor : ComponentConstructor) (r : Registry)
  : gmap string PropertyDescriptor :=
  default ∅ (prototypes r !! Ctor).

Definition getOwnPropertyDescriptor (Ctor : ComponentConstructor)
  (name : string) : M Registry (option PropertyDescriptor) :=
  gets (fun r => proto_of Ctor r !! name).

(** [defineProperty(proto, name, descriptor)]: a non-configurable own
    property cannot be redefined. *)
Definition defineProperty (Ctor : ComponentConstructor) (name : string)
  (descriptor : PropertyDescriptor) : M Registry unit :=
  current <- getOwnPropertyDescriptor Ctor name ;;
  match current with
  | Some d =>
      if pd_configurable d
      then modify (fun r =>
             set_prototypes (<[Ctor := <[name := descriptor]> (proto_of Ctor r)]>) r)
      else throw (TypeError ("Cannot redefine property: " +:+ name))
  | None =>
      modify (fun r =>
        set_prototypes (<[Ctor := <[name := descriptor]> (proto_of Ctor r)]>) r)
  end.

(** [proto[name]] for an own data property (a method). *)
Definition proto_get (Ctor : ComponentConstructor) (name : string)
  : M Registry value :=
  d <- getOwnPropertyDescriptor Ctor name ;;
  ret (default VUndefined (d ≫= pd_value)).

Definition isUndefined {A} (o : option A) : bool :=
  match o with None => true | Some _ => false end.

(** [isFunction(descriptor.value)] *)
Definition value_isFunction (d : PropertyDescriptor) : bool :=
  isFunction (default VUndefined (pd_value d)).

(** [isFalse(descriptor.writable)] *)
Definition writable_isFalse (d : PropertyDescriptor) : bool :=
  bool_decide (pd_writable d = Some false).

(** *** register.ts: validation (development builds only) *)

Definition validateObservedField (Ctor : ComponentConstructor)
  (fieldName : string) : M Registry unit :=
  when dev
    (descriptor <- getOwnPropertyDescriptor Ctor fieldName ;;
     when (negb (isUndefined descriptor))
       (assert_fail ("Compiler Error: Invalid field " +:+ fieldName
                       +:+ " declaration."))).

Definition validateFieldDecoratedWithTrack (Ctor : ComponentConstructor)
  (fieldName : string) : M Registry unit :=
  when dev
    (descriptor <- getOwnPropertyDescriptor Ctor fieldName ;;
     when (negb (isUndefined descriptor))
       (assert_fail ("Compiler Error: Invalid @track " +:+ fieldName
                       +:+ " declaration."))).

Definition validateFieldDecoratedWithWire (Ctor : ComponentConstructor)
  (fieldName : string) : M Registry unit :=
  when dev
    (descriptor <- getOwnPropertyDescriptor Ctor fieldName ;;
     when (negb (isUndefined descriptor))
       (assert_fail ("Compiler Error: Invalid @wire(...) " +:+ fieldName
                       +:+ " field declaration."))).

Definition validateMethodDecoratedWithWire (Ctor : ComponentConstructor)
  (methodName : string) : M Registry unit :=
  when dev
    (descriptor <- getOwnPropertyDescriptor Ctor methodName ;;
     when (match descriptor with
           | None => true
           | Some d => negb (value_isFunction d) || writable_isFalse d
           end)
       (assert_fail ("Compiler Error: Invalid @wire(...) " +:+ methodName
                       +:+ " method declaration."))).

Definition validateFieldDecoratedWithApi (Ctor : ComponentConstructor)
  (fieldName : string) : M Registry unit :=
  when dev
    (descriptor <- getOwnPropertyDescriptor Ctor fieldName ;;
     when (negb (isUndefined descriptor))
       (assert_fail ("Compiler Error: Invalid @api " +:+ fieldName
                       +:+ " field declaration."))).

Definition validateAccessorDecoratedWithApi (Ctor : ComponentConstructor)
  (fieldName : string) : M Registry unit :=
  when dev
    (descriptor <- getOwnPropertyDescriptor Ctor fieldName ;;
     match descriptor with
     | None =>
         assert_fail ("Compiler Error: Invalid @api get " +:+ fieldName
                        +:+ " accessor declaration.")
     | Some d =>
         if negb (isUndefined (pd_set d)) then
           assert_isTrue (negb (isUndefined (pd_get d)))
             ("Compiler Error: Missing getter for property " +:+ fieldName
                +:+ " decorated with @api.")
         else
           when (isUndefined (pd_get d))
             (assert_fail ("Compiler Error: Missing @api get " +:+ fieldName
                             +:+ " accessor declaration."))
     end).

Definition validateMethodDecoratedWithApi (Ctor : ComponentConstructor)
  (methodName : string) : M Registry unit :=
  when dev
    (descriptor <- getOwnPropertyDescriptor Ctor methodName ;;
     when (match descriptor with
           | None => true
           | Some d => negb (value_isFunction d) || writable_isFalse d
           end)
       (assert_fail ("Compiler Error: Invalid @api " +:+ methodName
                       +:+ " method declaration."))).

(** *** wire.ts: storing wire definitions *)

(** [storeDef]: [record[key] = def] on the class's record, created on
    first use. *)
Definition storeDef (Ctor : ComponentConstructor) (key : string)
  (def : WireDef) : M Registry unit :=
  modify (fun r =>
    let record := default [] (WireMetaMap r !! Ctor) in
    set_WireMetaMap (<[Ctor := assoc_set key def record]>) r).

(** [WireMetaMap.get(Ctor)[key]] *)
Definition wire_def_of (Ctor : ComponentConstructor) (key : string)
  (r : Registry) : option WireDef :=
  assoc key (default [] (WireMetaMap r !! Ctor)).

(** support for callable adapters:
    [if (adapter.adapter) adapter = adapter.adapter] *)
Definition callable_adapter {S} (adapter : value) : M S value :=
  match get_member adapter "adapter" with
  | Ok a => ret (if truthy a then a else adapter)
  | Throw e => throw e
  end.

Definition storeWiredMethodMeta (Ctor : ComponentConstructor)
  (methodName : string) (adapter method : value)
  (configCallback : ConfigCallback) : M Registry unit :=
  adapter <- callable_adapter adapter ;;
  storeDef Ctor methodName
    {| method := Some method; adapter := adapter;
       configCallback := configCallback |}.

Definition storeWiredFieldMeta (Ctor : ComponentConstructor)
  (fieldName : string) (adapter : value)
  (configCallback : ConfigCallback) : M Registry unit :=
  adapter <- callable_adapter adapter ;;
  storeDef Ctor fieldName
    {| method := None; adapter := adapter;
       configCallback := configCallback |}.

(** *** register.ts: reactive parameters and the config extractor *)

(** [StringSplit.call(reference, '.')]: the result always has a first
    segment, returned apart from the others. *)
Fixpoint StringSplit (reference : string) : string * list string :=
  match reference with
  | EmptyString => (EmptyString, [])
  | String c rest =>
      let '(first, others) := StringSplit rest in
      if Ascii.eqb c "."%char then (EmptyString, first :: others)
      else (String c first, others)
  end.

Definition buildReactiveParameter (reference : string)
  : M Registry ReactiveParameter :=
  cached <- gets (fun r => refCache r !! reference) ;;
  match cached with
  | Some rp => ret rp
  | None =>
      let '(first, segments) := StringSplit reference in
      let rp := {| reference := reference;
                   head := first;          (* ArrayShift.call(segments) *)
                   tail := segments |} in
      (* caching *)
      modify (set_refCache (<[reference := rp]>)) ;;;
      ret rp
  end.

(** Monadic left fold: a loop that carries a local accumulator. *)
Fixpoint foldM {S A B} (f : B -> A -> M S B) (l : list A) (b : B)
  : M S B :=
  match l with
  | [] => ret b
  | x :: l' => b' <- f b x ;; foldM f l' b'
  end.

Definition buildReactiveParamsConfig (wireDefParams : list (string * string))
  : M Registry (list (string * ReactiveParameter)) :=
  foldM (fun record kv =>
           rp <- buildReactiveParameter kv.2 ;;
           ret (assoc_set kv.1 rp record))
        wireDefParams [].

(** [host[head]], recorded as a read of the host. *)
Definition host_read (host : value) (key : string) : Host value :=
  modify (fun reads => reads ++ [key]) ;;;
  match get_member host key with
  | Ok v => ret v
  | Throw e => throw e
  end.

(** The [for] loop of [getReactiveParameterValue] over the remaining
    tail, from the current [value]. *)
Fixpoint tail_loop (v : value) (tail : list string) : result value :=
  match tail with
  | [] => Ok v
  | segment :: tail' =>
      if negb (is_nullish v) then
        (* null or undefined should produce undefined *)
        Ok VUndefined
      else
        match get_member v segment with
        | Ok v' => tail_loop v' tail'
        | Throw e => Throw e
        end
  end.

Definition getReactiveParameterValue (host : value)
  (reactiveParameter : ReactiveParameter) : Host value :=
  v <- host_read host (head reactiveParameter) ;;
  match tail_loop v (tail reactiveParameter) with
  | Ok v' => ret v'
  | Throw e => throw e
  end.

Definition computeReactiveParams (obj : value)
  (paramsConfig : list (string * ReactiveParameter))
  : Host (list (string * value)) :=
  foldM (fun acc kc =>
           v <- getReactiveParameterValue obj kc.2 ;;
           ret (assoc_set kc.1 v acc))
        paramsConfig [].

(** [assign({}, cfgStatic, reactiveParams)] *)
Definition assign (cfgStatic : option (list (string * value)))
  (reactiveParams : list (string * value)) : value :=
  VObj (assign1 (assign1 [] (default [] cfgStatic)) reactiveParams).

(** The closure that [buildConfigExtractor] returns. *)
Definition configExtractor (cfgStatic : option (list (string * value)))
  (paramsConfig : list (string * ReactiveParameter)) : ConfigCallback :=
  fun host =>
    reactiveParams <- computeReactiveParams host paramsConfig ;;
    ret (assign cfgStatic reactiveParams).

Definition buildConfigExtractor
  (cfgStatic : option (list (string * value)))
  (cfgDynamic : option (list (string * string)))
  : M Registry ConfigCallback :=
  paramsConfig <- match cfgDynamic with
                  | None => ret []
                  | Some dyn => buildReactiveParamsConfig dyn
                  end ;;
  ret (configExtractor cfgStatic paramsConfig).

(** What the wire block stores for a declaration: a definition whose
    extractor is that of the static config alone when there are no dynamic
    params, and which has no method when the declaration is a field. *)
Definition stored_for (def : WireCompilerDef) (o : option WireDef) : Prop :=
  exists stored,
    o = Some stored
    /\ (wc_params def = None ->
        configCallback stored = configExtractor (wc_static def) [])
    /\ (wc_method def ≠ Some 1%Z -> method stored = None).

(** The traversal that the comment in [getReactiveParameterValue] announces
    (null or undefined should produce undefined), written from the
    specification's words: each tail segment is read in order, and a null or
    undefined value met on the way ends the traversal with [undefined]. *)
Fixpoint tail_loop_spec (v : value) (tail : list string) : result value :=
  match tail with
  | [] => Ok v
  | segment :: tail' =>
      if is_nullish v then Ok VUndefined
      else
        match get_member v segment with
        | Ok v' => tail_loop_spec v' tail'
        | Throw e => Throw e
        end
  end.

(** *** register.ts: the registry of decorator metadata *)

Definition setDecoratorsMeta (Ctor : ComponentConstructor)
  (meta : DecoratorMeta) : M Registry unit :=
  modify (set_signedDecoratorToMetaMap (<[Ctor := meta]>)).

Definition defaultMeta : DecoratorMeta :=
  {| apiMethods := []; apiFields := [];
     wiredMethods := []; wiredFields := [] |}.

Definition getDecoratorsMeta (Ctor : ComponentConstructor)
  : M Registry DecoratorMeta :=
  meta <- gets (fun r => signedDecoratorToMetaMap r !! Ctor) ;;
  ret (if isUndefined meta then defaultMeta else default defaultMeta meta).

(** The keys that [for (const k in array)] visits: the indices, as
    strings. *)
Definition index_keys {A} (array : list A) : list string :=
  map (fun i : nat => pretty i) (seq 0 (length array)).

(** *** register.ts: [registerDecorators] *)

(** The descriptor makers of track.ts and observed-fields.ts. *)
Variable internalTrackDecorator : string -> PropertyDescriptor.
Variable createObservedFieldPropertyDescriptor : string -> PropertyDescriptor.

(** The block [if (!isUndefined(publicProps)) { for (... in publicProps) }];
    the result is the local array [apiFields]. *)
Definition registerPublicProps (Ctor : ComponentConstructor)
  (publicProps : list (string * PropCompilerDef)) : M Registry (list string) :=
  foldM (fun apiFields '(fieldName, propConfig) =>
           descriptor <-
             (if (config propConfig >? 0)%Z then
                (* accessor declaration *)
                when dev (validateAccessorDecoratedWithApi Ctor fieldName) ;;;
                descriptor <- getOwnPropertyDescriptor Ctor fieldName ;;
                createPublicAccessorDescriptor fieldName descriptor
              else
                (* field declaration *)
                when dev (validateFieldDecoratedWithApi Ctor fieldName) ;;;
                ret (createPublicPropertyDescriptor fieldName)) ;;
           defineProperty Ctor fieldName descriptor ;;;
           ret (apiFields ++ [fieldName]))
        publicProps [].

(** The block [if (!isUndefined(publicMethods)) { forEach ... }]; the
    result is the local array [apiMethods]. *)
Definition registerPublicMethods (Ctor : ComponentConstructor)
  (publicMethods : list string) : M Registry (list string) :=
  foldM (fun apiMethods methodName =>
           when dev (validateMethodDecoratedWithApi Ctor methodName) ;;;
           ret (apiMethods ++ [methodName]))
        publicMethods [].

(** The block [if (!isUndefined(wire)) { for (... in wire) }]; the result
    is the pair of local arrays [wiredMethods], [wiredFields]. *)
Definition registerWire (Ctor : ComponentConstructor)
  (wire : list (string * WireCompilerDef))
  : M Registry (list string * list string) :=
  foldM (fun '(wiredMethods, wiredFields) '(fieldOrMethodName, def) =>
           configCallback <-
             buildConfigExtractor (wc_static def) (wc_params def) ;;
           if bool_decide (wc_method def = Some 1%Z) then
             when dev (validateMethodDecoratedWithWire Ctor fieldOrMethodName) ;;;
             method <- proto_get Ctor fieldOrMethodName ;;
             storeWiredMethodMeta Ctor fieldOrMethodName
               (wc_adapter def) method configCallback ;;;
             ret (wiredMethods ++ [fieldOrMethodName], wiredFields)
           else
             when dev (validateFieldDecoratedWithWire Ctor fieldOrMethodName) ;;;
             storeWiredFieldMeta Ctor fieldOrMethodName
               (wc_adapter def) configCallback ;;;
             defineProperty Ctor fieldOrMethodName
               (internalWireFieldDecorator fieldOrMethodName) ;;;
             ret (wiredMethods, wiredFields ++ [fieldOrMethodName]))
        wire ([], []).

(** The block [if (!isUndefined(track)) { for (... in track) }]. *)
Definition registerTrack (Ctor : ComponentConstructor)
  (track : list (string * Z)) : M Registry unit :=
  forEach track (fun '(fieldName, _) =>
    when dev (validateFieldDecoratedWithTrack Ctor fieldName) ;;;
    defineProperty Ctor fieldName (internalTrackDecorator fieldName)).

(** The block [if (!isUndefined(fields)) { for (const fieldName in fields) }]:
    [fields] is an array, so the loop variable ranges over its indices. *)
Definition registerFields (Ctor : ComponentConstructor)
  (fields : list string) : M Registry unit :=
  forEach (index_keys fields) (fun fieldName =>
    when dev (validateObservedField Ctor fieldName) ;;;
    defineProperty Ctor fieldName
      (createObservedFieldPropertyDescriptor fieldName)).

(** [if (!isUndefined(section)) block], with the value of the local
    arrays when the section is absent. *)
Definition ifDefined {S A B} (section : option A) (absent : B)
  (block : A -> M S B) : M S B :=
  match section with
  | None => ret absent
  | Some x => block x
  end.

Definition registerDecorators (Ctor : ComponentConstructor)
  (meta : RegisterDecoratorMeta) : M Registry ComponentConstructor :=
  apiFields <- ifDefined (publicProps meta) [] (registerPublicProps Ctor) ;;
  apiMethods <- ifDefined (publicMethods meta) [] (registerPublicMethods Ctor) ;;
  wired <- ifDefined (wire meta) ([], []) (registerWire Ctor) ;;
  ifDefined (track meta) tt (registerTrack Ctor) ;;;
  ifDefined (fields meta) tt (registerFields Ctor) ;;;
  setDecoratorsMeta Ctor
    {| apiMethods := apiMethods; apiFields := apiFields;
       wiredMethods := wired.1; wiredFields := wired.2 |} ;;;
  ret Ctor.

(** The property keys that a registration may define on the prototype. *)
Definition wire_field_keys (wire : list (string * WireCompilerDef))
  : list string :=
  (filter (fun kd => wc_method kd.2 ≠ Some 1%Z) wire).*1.

Definition defined_keys (meta : RegisterDecoratorMeta) : list string :=
  (default [] (publicProps meta)).*1
    ++ wire_field_keys (default [] (wire meta))
    ++ (default [] (track meta)).*1
    ++ index_keys (default [] (fields meta)).

(** A sequence of [registerDecorators] calls, as module evaluation makes
    them; a call that throws leaves the state it reached. *)
Definition registrations
  (calls : list (ComponentConstructor * RegisterDecoratorMeta))
  (r : Registry) : Registry :=
  fold_left (fun r call => (registerDecorators call.1 call.2 r).2) calls r.

(** [instance[key]] and [instance[key] = v] when [key] resolves to an
    accessor property with descriptor [d]; a strict-mode assignment
    without a setter throws. *)
Definition descriptor_get (d : PropertyDescriptor)
  (this : ComponentInterface) : M Runtime value :=
  match pd_get d with
  | Some get => get this
  | None => ret VUndefined
  end.
Definition descriptor_set (d : PropertyDescriptor)
  (this : ComponentInterface) (v : value) : M Runtime unit :=
  match pd_set d with
  | Some set => set this v
  | None => throw (TypeError "Cannot set property which has only a getter")
  end.

(** A write [instance.x = v] through the descriptor [d], followed by a read
    of [instance.x], on an instance whose VM is [vm] before the write: the
    write returns, [v] is in the public-property storage, one mutation
    notification for [(instance, x)] is raised unless the instance is dirty,
    and the read returns [v]. *)
Definition public_field_write_read (d : PropertyDescriptor) (x : string)
    (this : ComponentInterface) (vm : VM) (v : value) (rt : Runtime) : Prop :=
  let written := descriptor_set d this v rt in
  let read := descriptor_get d this written.2 in
  written.1 = Ok tt
  /\ cmpProps <$> (vms written.2 !! this) = Some (<[x := v]> (cmpProps vm))
  /\ trace written.2 = trace rt ++ (if isDirty vm then [] else [Mutated this x])
  /\ read.1 = Ok v.

(** *** wire.ts: the connector of one wire declaration *)

(** The data callback chosen by [createConnector]. *)
Definition dataCallback (component : ComponentInterface) (def : WireDef)
  : value -> M Runtime unit :=
  match method def with
  | None => createFieldDataCallback component
  | Some method => createMethodDataCallback component method
  end.

(** A job queued with [Promise.resolve().then(...)]. *)
Inductive microtask : Type := RecomputeConfig.

(** The mutable state that one [createConnector] call closes over. *)
Record Connector : Type := mkConnector {
  hasPendingConfig : bool;
  ro_listeners : list string;    (* host keys the reactive observer listens to *)
  microtasks : list microtask;   (* queued jobs, oldest first *)
  updates : list value           (* configs given to [connector.update] *)
}.

Definition set_hasPendingConfig (b : bool) (c : Connector) : Connector :=
  mkConnector b (ro_listeners c) (microtasks c) (updates c).
Definition set_ro_listeners (l : list string) (c : Connector) : Connector :=
  mkConnector (hasPendingConfig c) l (microtasks c) (updates c).
Definition set_microtasks (q : list microtask) (c : Connector) : Connector :=
  mkConnector (hasPendingConfig c) (ro_listeners c) q (updates c).
Definition push_update (config : value) (c : Connector) : Connector :=
  mkConnector (hasPendingConfig c) (ro_listeners c) (microtasks c)
    (updates c ++ [config]).

(** [connector.update(configCallback(component))]: the config is computed
    first; if that throws, [update] is not called.  The second component
    of the result is the list of host keys read. *)
Definition update_config (configCallback : ConfigCallback) (component : value)
  : M Connector (list string) :=
  let '(config, reads) := configCallback component [] in
  match config with
  | Ok config => modify (push_update config) ;;; ret reads
  | Throw e => throw e
  end.

(** Modelled from the spec: the [ReactiveObserver] of the mutation
    tracker, which is not among the sources.  [observe] runs a job and
    subscribes to what the job read; [reset] drops all subscriptions; a
    mutation of a subscribed key invokes the observer's callback. *)
Definition ro_observe (job : M Connector (list string)) : M Connector unit :=
  reads <- job ;;
  modify (set_ro_listeners reads).
Definition ro_reset : M Connector unit := modify (set_ro_listeners []).

(** The callback given to [new ReactiveObserver(...)]. *)
Definition ro_callback : M Connector unit :=
  pending <- gets hasPendingConfig ;;
  when (negb pending)
    (modify (set_hasPendingConfig true) ;;;
     (* collect new config in the micro-task *)
     modify (fun c => set_microtasks (microtasks c ++ [RecomputeConfig]) c)).

(** The body of the queued job. *)
Definition run_microtask (configCallback : ConfigCallback) (component : value)
  (job : microtask) : M Connector unit :=
  match job with
  | RecomputeConfig =>
      modify (set_hasPendingConfig false) ;;;
      (* resetting current reactive params *)
      ro_reset ;;;
      (* dispatching a new config due to a change in the configuration *)
      update_config configCallback component ;;;
      ret tt
  end.

(** [valueMutated(component, key)] as seen by this connector. *)
Definition notify_mutation (key : string) : M Connector unit :=
  listeners <- gets ro_listeners ;;
  when (bool_decide (key ∈ listeners)) ro_callback.

(** The end of the synchronous task: the queued jobs run in order; an
    exception in a job rejects its promise and does not stop the others. *)
Definition run_microtasks (configCallback : ConfigCallback) (component : value)
  : M Connector unit :=
  queue <- gets microtasks ;;
  modify (set_microtasks []) ;;;
  forEach queue (fun job c =>
    (Ok tt, (run_microtask configCallback component job c).2)).

(** The connector once its callback has scheduled a recompute. *)
Definition scheduled (c : Connector) : Connector :=
  set_microtasks (microtasks c ++ [RecomputeConfig]) (set_hasPendingConfig true c).

(** [createConnector]: the state after the job that runs under boundary
    protection (the adapter is constructed, then the initial config is
    observed synchronously). *)
Definition createConnector (component : value) (def : WireDef) : Connector :=
  (ro_observe (update_config (configCallback def) component)
     (mkConnector false [] [] [])).2.

End Decorators.

End Engine.


(** ** Sample data: a small component *)

Module Sample.
Import Engine.

(** A stand-in for the descriptors of track.ts and observed-fields.ts. *)
Definition plainDescriptor (key : string) : PropertyDescriptor :=
  {| pd_get := None; pd_set := None; pd_value := None; pd_writable := None;
     pd_enumerable := true; pd_configurable := true |}.

(** The state of the modules when they have just been loaded. *)
Definition loaded : Registry :=
  {| prototypes := ∅; signedDecoratorToMetaMap := ∅; WireMetaMap := ∅;
     refCache := ∅ |}.

(** [{ publicProps: { x: { config: 0 } } }] *)
Definition meta_public : RegisterDecoratorMeta :=
  {| publicMethods := None;
     publicProps := Some [("x", {| config := 0; type := "any" |})];
     track := None; wire := None; fields := None |}.

(** [{ wire: { data: { adapter, static: { kind: 'x' } } } }] *)
Definition meta_wire : RegisterDecoratorMeta :=
  {| publicMethods := None; publicProps := None; track := None;
     wire := Some [("data", {| wc_method := None; wc_adapter := VFun 3 [];
                               wc_params := None;
                               wc_static := Some [("kind", VStr "x")] |})];
     fields := None |}.

(** [{ fields: ['a', 'b'] }] *)
Definition meta_fields : RegisterDecoratorMeta :=
  {| publicMethods := None; publicProps := None; track := None; wire := None;
     fields := Some ["a"; "b"] |}.

(** Registration in a development build. *)
Definition registered (meta : RegisterDecoratorMeta) : Registry :=
  (registerDecorators false plainDescriptor plainDescriptor 1 meta loaded).2.

Definition vm0 : VM :=
  {| cmpProps := ∅; cmpFields := ∅; isDirty := false; state := connected |}.

(** Component 1 is connected and idle. *)
Definition rt0 : Runtime :=
  {| vms := {[ 1 := vm0 ]}; isRendering := false; vmBeingConstructed := None;
     trace := [] |}.

(** Component 1 while a render is in progress. *)
Definition rt_rendering : Runtime :=
  {| vms := {[ 1 := vm0 ]}; isRendering := true; vmBeingConstructed := None;
     trace := [] |}.

(** The global [name] of a browser window that was never named: the empty
    string. *)
Definition window_name : string := EmptyString.

(** [{ foo: { bar: { baz: 1 } } }] *)
Definition host0 : value :=
  VObj [("foo", VObj [("bar", VObj [("baz", VNum 1)])])].

(** The reactive parameter [foo.bar.baz]. *)
Definition foo_bar_baz : ReactiveParameter :=
  {| reference := "foo.bar.baz"; head := "foo"; tail := ["bar"; "baz"] |}.

(** A wire definition whose config has the reactive parameter [foo]. *)
Definition def_foo : WireDef :=
  {| method := None; adapter := VFun 3 [];
     configCallback :=
       configExtractor None
         [("id", {| reference := "foo"; head := "foo"; tail := [] |})] |}.

End Sample.

(** ** Histories of an adapter and further vocabulary *)

(** [m] keeps the state predicate [P], whether it returns or throws. *)
Definition keeps {S A} (P : S -> Prop) (m : M S A) : Prop :=
  forall s, P s -> P (m s).2.

Module WireHistory.
Import WireService.

(** One use of an adapter by its owner or by the adapter's author. *)
Inductive op : Type :=
| OpAdd (type : string) (l : listener)
| OpRemove (type : string) (l : listener)
| OpDispatch (evt : event)
| OpUpdate (config : value)
| OpContext (uid : string) (v : value)
| OpConnect
| OpDisconnect.

(** The adapter after the use; a use that throws leaves what it reached. *)
Definition run_op (o : op) (a : WireAdapter) : WireAdapter :=
  match o with
  | OpAdd type l => (addEventListener type l a).2
  | OpRemove type l => (removeEventListener type l a).2
  | OpDispatch evt => (dispatchEvent evt a).2
  | OpUpdate config => (update config a).2
  | OpContext uid v => (context uid v a).2
  | OpConnect => (connect a).2
  | OpDisconnect => (disconnect a).2
  end.

Definition run_ops (os : list op) (a : WireAdapter) : WireAdapter :=
  fold_left (fun a o => run_op o a) os a.

(** The adapter with further calls recorded. *)
Definition log_all (cs : list call) (a : WireAdapter) : WireAdapter :=
  mkWireAdapter (callback a) (contextualizer a) (connecting a)
    (disconnecting a) (configuring a) (contexting a) (calls a ++ cs).

(** The three event types of the event target. *)
Definition event_types : list string := ["connect"; "disconnect"; "config"].

(** The listeners registered for an event type. *)
Definition listeners_for (type : string) (a : WireAdapter) : list listener :=
  if String.eqb type "connect" then connecting a
  else if String.eqb type "disconnect" then disconnecting a
  else if String.eqb type "config" then configuring a
  else [].

End WireHistory.

(** ** Further vocabulary of the engine *)

Module EngineTerms.
Import Engine.

(** [[first, ...others].join('.')] *)
Fixpoint StringJoin (first : string) (others : list string) : string :=
  match others with
  | [] => first
  | s :: rest => first +:+ "." +:+ StringJoin s rest
  end.

(** Whether a string contains a dot. *)
Fixpoint has_dot (s : string) : bool :=
  match s with
  | EmptyString => false
  | String c rest => Ascii.eqb c "."%char || has_dot rest
  end.

(** The reactive parameter that [buildReactiveParameter] builds for a
    reference that is not cached. *)
Definition parseReference (reference : string) : ReactiveParameter :=
  {| reference := reference;
     head := (StringSplit reference).1;
     tail := (StringSplit reference).2 |}.

(** Every cached reactive parameter is the one built from its key. *)
Definition cache_ok (r : Registry) : Prop :=
  forall k rp, refCache r !! k = Some rp -> rp = parseReference k.

(** [host[key]] for a host that is an object. *)
Definition member (host : value) (key : string) : value :=
  match get_member host key with
  | Ok v => v
  | Throw _ => VUndefined
  end.

(** The keys of the wire declarations with [method: 1]. *)
Definition wire_method_keys (wire : list (string * WireCompilerDef))
  : list string :=
  (filter (fun kd => wc_method kd.2 = Some 1%Z) wire).*1.

(** The keys of the public props declared as fields ([config] not above 0)
    and those declared as accessors. *)
Definition public_field_keys (publicProps : list (string * PropCompilerDef))
  : list string :=
  (filter (fun kd => (config kd.2 <= 0)%Z) publicProps).*1.
Definition public_accessor_keys (publicProps : list (string * PropCompilerDef))
  : list string :=
  (filter (fun kd => (0 < config kd.2)%Z) publicProps).*1.

(** The keys that a registration declares as fields of some kind: for these
    a development build demands that the prototype has no own property. *)
Definition field_keys (meta : RegisterDecoratorMeta) : list string :=
  public_field_keys (default [] (publicProps meta))
    ++ wire_field_keys (default [] (wire meta))
    ++ (default [] (track meta)).*1
    ++ index_keys (default [] (fields meta)).

(** The record that a successful registration stores for its class. *)
Definition meta_of (meta : RegisterDecoratorMeta) : DecoratorMeta :=
  {| apiMethods := default [] (publicMethods meta);
     apiFields := (default [] (publicProps meta)).*1;
     wiredMethods := wire_method_keys (default [] (wire meta));
     wiredFields := wire_field_keys (default [] (wire meta)) |}.

(** [name] is an own property of [Ctor.prototype]. *)
Definition own_property (Ctor : ComponentConstructor) (name : string)
  (r : Registry) : Prop :=
  is_Some (proto_of Ctor r !! name).

(** A method on a prototype that passes the method validation: an own data
    property whose value is a function and that is not read-only. *)
Definition writable_method (o : option PropertyDescriptor) : bool :=
  match o with
  | None => false
  | Some d => value_isFunction d && negb (writable_isFalse d)
  end.

End EngineTerms.

(** ** wire.ts: the wire adapters of an instance *)

Module Lifecycle.
Import Engine.

(** The closures pushed by [installWireAdapters]: [() => connector.connect()]
    and [() => connector.disconnect()], for the connector created for the
    wire declaration [name]. *)
Inductive hook : Type :=
| ConnectorConnect (name : string)
| ConnectorDisconnect (name : string).

(** The adapter class of a connector is supplied from outside; what the
    engine asks of the connector of a wire declaration is recorded. *)
Inductive lifecycle : Type :=
| Created (name : string)
| Connected (name : string)
| Disconnected (name : string).

(** [vm.context.wiredConnecting] and [vm.context.wiredDisconnecting]
    ([undefined] until installed), and the record of connector calls. *)
Record WiredContext : Type := mkWiredContext {
  wiredConnecting : option (list hook);
  wiredDisconnecting : option (list hook);
  connectors : list lifecycle
}.

Definition record_call (e : lifecycle) (ctx : WiredContext) : WiredContext :=
  mkWiredContext (wiredConnecting ctx) (wiredDisconnecting ctx)
    (connectors ctx ++ [e]).

Definition set_wired (connect disconnect : list hook) (ctx : WiredContext)
  : WiredContext :=
  mkWiredContext (Some connect) (Some disconnect) (connectors ctx).

Definition run_hook (h : hook) : M WiredContext unit :=
  match h with
  | ConnectorConnect name => modify (record_call (Connected name))
  | ConnectorDisconnect name => modify (record_call (Disconnected name))
  end.

Section Build.
Variable production : bool.

(** [installWireAdapters(vm)], for a VM whose class is [ctor], in the state
    [r] of the module. *)
Definition installWireAdapters (r : Registry) (ctor : ComponentConstructor)
  : M WiredContext unit :=
  match WireMetaMap r !! ctor with
  | None =>
      when (dev production)
        (assert_fail
           "Internal Error: wire adapters should only be installed in instances with at least one wire declaration.")
  | Some meta =>
      lists <- foldM (fun '(connect, disconnect) '(name, _) =>
                        modify (record_call (Created name)) ;;;
                        ret (connect ++ [ConnectorConnect name],
                             disconnect ++ [ConnectorDisconnect name]))
                 meta ([], []) ;;
      modify (set_wired lists.1 lists.2)
  end.

(** [connectWireAdapters(vm)]: reading [length] of [undefined] throws. *)
Definition connectWireAdapters : M WiredContext unit :=
  wiredConnecting <- gets wiredConnecting ;;
  when (isUndefined wiredConnecting)
    (when (dev production)
       (assert_fail
          "Internal Error: wire adapters must be installed in instances with at least one wire declaration.")) ;;;
  match wiredConnecting with
  | None => throw (TypeError "Cannot read properties of undefined")
  | Some hooks => forEach hooks run_hook
  end.

(** [disconnectWireAdapters(vm)] *)
Definition disconnectWireAdapters : M WiredContext unit :=
  wiredDisconnecting <- gets wiredDisconnecting ;;
  when (isUndefined wiredDisconnecting)
    (when (dev production)
       (assert_fail
          "Internal Error: wire adapters must be installed in instances with at least one wire declaration.")) ;;;
  match wiredDisconnecting with
  | None => throw (TypeError "Cannot read properties of undefined")
  | Some hooks => forEach hooks run_hook
  end.

End Build.

(** The context of a VM that was just created. *)
Definition created : WiredContext :=
  {| wiredConnecting := None; wiredDisconnecting := None; connectors := [] |}.

End Lifecycle.

(** ** More sample data *)

Module MoreSample.
Import Engine Sample.

(** An accessor [get y() { return 7 }] without a setter, as a class body
    defines it. *)
Definition authored_getter : ComponentInterface -> M Runtime value :=
  fun _ => ret (VNum 7).
Definition authored_accessor : PropertyDescriptor :=
  {| pd_get := Some authored_getter; pd_set := None; pd_value := None;
     pd_writable := None; pd_enumerable := false; pd_configurable := true |}.

(** A method [foo(data) { ... }], as a class body defines it. *)
Definition authored_method : PropertyDescriptor :=
  {| pd_get := None; pd_set := None; pd_value := Some (VFun 9 []);
     pd_writable := Some true; pd_enumerable := false;
     pd_configurable := true |}.

(** The modules just loaded and the class 1 evaluated, with the accessor
    [y] and the method [foo] on its prototype. *)
Definition authored : Registry :=
  {| prototypes := {[ 1 := {[ "y" := authored_accessor;
                              "foo" := authored_method ]} ]};
     signedDecoratorToMetaMap := ∅; WireMetaMap := ∅; refCache := ∅ |}.

(** [{ publicProps: { y: { config: 2 } } }] *)
Definition meta_accessor : RegisterDecoratorMeta :=
  {| publicMethods := None;
     publicProps := Some [("y", {| config := 2; type := "any" |})];
     track := None; wire := None; fields := None |}.

(** [{ publicProps: { z: { config: 1 } } }] *)
Definition meta_setter_only : RegisterDecoratorMeta :=
  {| publicMethods := None;
     publicProps := Some [("z", {| config := 1; type := "any" |})];
     track := None; wire := None; fields := None |}.

(** [{ publicMethods: ['foo'] }] *)
Definition meta_methods : RegisterDecoratorMeta :=
  {| publicMethods := Some ["foo"]; publicProps := None; track := None;
     wire := None; fields := None |}.


(** [{ wire: { data: { adapter: undefined } } }] *)
Definition wire_no_adapter : WireCompilerDef :=
  {| wc_method := None; wc_adapter := VUndefined; wc_params := None;
     wc_static := None |}.
Definition meta_no_adapter : RegisterDecoratorMeta :=
  {| publicMethods := None; publicProps := None; track := None;
     wire := Some [("data", wire_no_adapter)]; fields := None |}.

(** [{ track: { t: 1 } }] *)
Definition meta_track : RegisterDecoratorMeta :=
  {| publicMethods := None; publicProps := None;
     track := Some [("t", 1%Z)]; wire := None; fields := None |}.


(** A module state in which the class 1 has the wire definition [def_foo]
    stored under [data]. *)
Definition wired : Registry :=
  {| prototypes := ∅; signedDecoratorToMetaMap := ∅;
     WireMetaMap := {[ 1 := [("data", def_foo)] ]}; refCache := ∅ |}.

(** [{ foo: 1 }] *)
Definition host_foo : value := VObj [("foo", VNum 1)].

(** [{ wire: { data: { adapter, params: { id: 'foo.bar' } } } }] *)
Definition meta_wire_params : RegisterDecoratorMeta :=
  {| publicMethods := None; publicProps := None; track := None;
     wire := Some [("data", {| wc_method := None; wc_adapter := VFun 3 [];
                               wc_params := Some [("id", "foo.bar")];
                               wc_static := None |})];
     fields := None |}.

End MoreSample.

(** * Properties *)

(** ** Association lists *)

Lemma assoc_assoc_set_eq {A} (k : string) (a : A) (l : list (string * A)) :
  assoc k (assoc_set k a l) = Some a.
Proof.
  induction l as [|[k' a'] l IH]; simpl.
  - by rewrite String.eqb_refl.
  - destruct (String.eqb k k') eqn:E; simpl; rewrite ?E, ?String.eqb_refl; auto.
Qed.

Lemma assoc_assoc_set_ne {A} (k k' : string) (a : A) (l : list (string * A)) :
  k ≠ k' -> assoc k' (assoc_set k a l) = assoc k' l.
Proof.
  intros Hne. induction l as [|[k0 a0] l IH]; simpl.
  - destruct (String.eqb k' k) eqn:E; [|done].
    apply String.eqb_eq in E. congruence.
  - destruct (String.eqb k k0) eqn:E; simpl.
    + apply String.eqb_eq in E. subst k0.
      destruct (String.eqb k' k) eqn:E'; [|done].
      apply String.eqb_eq in E'. congruence.
    + by rewrite IH.
Qed.

(** ** The wire-service package *)

Module WireServiceFacts.
Import WireService.

(** C10.  The deprecated [register] never throws its validation errors.
    For every object [adapterId] and every [adapterEventTargetCallback]:
    the call completes normally; [adapterId.adapter] is afterwards the
    freshly created adapter class, whatever it was before; the TypeError
    for a non-callable factory and the TypeError for an already associated
    adapter id are constructed (and dropped) exactly under their
    conditions. *)
Theorem register_returns_normally (adapterId adapterEventTargetCallback : value) :
  is_object adapterId = true ->
  (exists adapterId',
      (register adapterId adapterEventTargetCallback).2 = Ok adapterId'
      /\ get_member adapterId' "adapter"
         = Ok (VClass adapterEventTargetCallback []))
  /\ (isFunction adapterEventTargetCallback = false ->
      TypeError "adapter factory must be a callable"
        ∈ (register adapterId adapterEventTargetCallback).1)
  /\ (has_property "adapter" adapterId = Ok true ->
      TypeError "adapter id is already associated to an adapter factory"
        ∈ (register adapterId adapterEventTargetCallback).1)
  /\ (forall e, (register adapterId adapterEventTargetCallback).2 = Throw e ->
                e ∉ validation_errors).
Proof.
  intros Hobj. unfold register.
  destruct adapterId as [| | | | |ps|f ps|c ps]; try discriminate Hobj;
    cbn [has_property set_member snd fst].
  all: repeat split.
  all: try (eexists; split; [reflexivity|]; cbn [get_member];
            by rewrite assoc_assoc_set_eq).
  all: try (intros ->; cbn [negb]; set_solver).
  all: try (intros [= ->]; set_solver).
  all: try (intros e [=]).
Qed.

(** On any argument at all, a throw of [register] is the native TypeError
    of the [in] operator on a primitive, never a validation error. *)
Lemma register_throws_natively (adapterId adapterEventTargetCallback : value)
    (e : error) :
  (register adapterId adapterEventTargetCallback).2 = Throw e ->
  e = TypeError "Cannot use 'in' operator to search for a key in a primitive"
  /\ e ∉ validation_errors.
Proof.
  unfold register.
  destruct adapterId; cbn [has_property set_member snd];
    intros [= <-]; (split; [reflexivity|]);
    intros Hin; unfold validation_errors in Hin;
    repeat (apply elem_of_cons in Hin as [Hin|Hin]; [discriminate Hin|]);
    by apply elem_of_nil in Hin.
Qed.

Lemma register_returns_normally_witness :
  is_object (VObj [("adapter", VNum 1)]) = true
  /\ (exists adapterId',
        (register (VObj [("adapter", VNum 1)]) VUndefined).2 = Ok adapterId'
        /\ get_member adapterId' "adapter" = Ok (VClass VUndefined []))
  /\ TypeError "adapter factory must be a callable"
       ∈ (register (VObj [("adapter", VNum 1)]) VUndefined).1
  /\ TypeError "adapter id is already associated to an adapter factory"
       ∈ (register (VObj [("adapter", VNum 1)]) VUndefined).1.
Proof.
  pose proof (register_returns_normally (VObj [("adapter", VNum 1)]) VUndefined
                eq_refl) as (Hret & Hcallable & Hassociated & _).
  split; [reflexivity|].
  split; [exact Hret|].
  split; [exact (Hcallable eq_refl)|exact (Hassociated eq_refl)].
Defined.

(** A further link for an already registered uid leaves the entry of the
    uid as it is: the callback goes to the [contexting] object itself. *)
Lemma link_registered_uid (a : WireAdapter) (ctx : listener) (uid : string)
    (l : listener) (s : slot) :
  contextualizer a = Some ctx ->
  contexting a !! uid = Some s ->
  uid ≠ "length" ->
  uid ≠ pretty (ToLength (contexting a !! "length")) ->
  contexting (dispatchEvent (LinkContextEvent uid l) a).2 !! uid = Some s.
Proof.
  intros Hctx Hsome Hlen Hidx.
  destruct a as [cb c cing ding cfg ctxing cs]; simpl in *; subst c.
  unfold dispatchEvent, bind, gets, modify, ret; simpl.
  rewrite Hsome; simpl. unfold ArrayPush_call.
  rewrite lookup_insert_ne by done. by rewrite lookup_insert_ne.
Qed.

(** C1.  What the code does when two context-link events carry the same
    uid: the second linked callback is pushed onto the [contexting] object
    itself, not onto the listener list of the uid.  From any adapter with a
    contextualizer in which [uid] is not registered yet, after both
    dispatches the list of [uid] holds the first callback only, and
    [context(uid, v)] makes exactly one call, to the first callback. *)
Theorem second_link_not_accumulated (a : WireAdapter) (ctx : listener)
    (uid : string) (l1 l2 : listener) (v : value) :
  contextualizer a = Some ctx ->
  contexting a !! uid = None ->
  uid ≠ "length" ->
  uid ≠ pretty (ToLength (contexting a !! "length")) ->
  let linked := (dispatchEvent (LinkContextEvent uid l1) ;;;
                 dispatchEvent (LinkContextEvent uid l2)) a in
  linked.1 = Ok false
  /\ listeners_of uid linked.2 = [l1]
  /\ (context uid v linked.2).1 = Ok tt
  /\ calls (context uid v linked.2).2 = calls linked.2 ++ [Invoke l1 [v]].
Proof.
  intros Hctx Hnone Hlen Hidx.
  destruct a as [cb c cing ding cfg ctxing cs]; simpl in *; subst c.
  unfold dispatchEvent, context, listeners_of, bind, gets, modify, ret; simpl.
  rewrite Hnone; simpl.
  rewrite lookup_insert_eq; simpl.
  assert (Hkeep : ArrayPush_call (<[uid:=Listeners [l1]]> ctxing) l2 !! uid
                  = Some (Listeners [l1])).
  { unfold ArrayPush_call.
    rewrite lookup_insert_ne by done.
    rewrite (lookup_insert_ne _ uid "length") by done.
    rewrite lookup_insert_ne by done.
    apply lookup_insert_eq. }
  rewrite Hkeep. simpl. done.
Qed.

Lemma second_link_not_accumulated_witness :
  let a := new_WireAdapter 7 (Some 9) in
  let linked := (dispatchEvent (LinkContextEvent "ctx" 1) ;;;
                 dispatchEvent (LinkContextEvent "ctx" 2)) a in
  listeners_of "ctx" linked.2 = [1]
  /\ calls (context "ctx" (VNum 5) linked.2).2
     = calls linked.2 ++ [Invoke 1 [VNum 5]].
Proof.
  pose proof (second_link_not_accumulated (new_WireAdapter 7 (Some 9)) 9
                "ctx" 1 2 (VNum 5) eq_refl eq_refl) as H.
  destruct H as (_ & Hlist & _ & Hcalls); [discriminate|discriminate|].
  split; [exact Hlist|exact Hcalls].
Defined.

(** The failing input of C1, evaluated: a fresh adapter, uid ["ctx"],
    callbacks 1 and 2.  Callback 2 ends up under the key ["0"] of
    [contexting] and is not called by [context("ctx", 5)]. *)
Example second_link_lost :
  let a := new_WireAdapter 7 (Some 9) in
  let linked := ((dispatchEvent (LinkContextEvent "ctx" 1) ;;;
                  dispatchEvent (LinkContextEvent "ctx" 2)) a).2 in
  contexting linked !! "ctx" = Some (Listeners [1])
  /\ contexting linked !! "0" = Some (Fn 2)
  /\ contexting linked !! "length" = Some (Len 1)
  /\ invoked (calls (context "ctx" (VNum 5) linked).2) = [1].
Proof. vm_compute. done. Qed.

End WireServiceFacts.

(** ** Reasoning about monadic code *)

Section MonadFacts.
Context {S B : Type} (f : S -> B).

Lemma preserves_ret {A} (a : A) : preserves f (ret a).
Proof. by intros s. Qed.

Lemma preserves_throw {A} (e : error) : preserves f (@throw S A e).
Proof. by intros s. Qed.

Lemma preserves_gets {A} (g : S -> A) : preserves f (gets g).
Proof. by intros s. Qed.

Lemma preserves_bind {A C} (m : M S A) (k : A -> M S C) :
  preserves f m -> (forall a, preserves f (k a)) -> preserves f (bind m k).
Proof.
  intros Hm Hk s. unfold bind. specialize (Hm s).
  destruct (m s) as [[a|e] s']; simpl in *; [|done].
  by rewrite Hk.
Qed.

Lemma preserves_when (b : bool) (m : M S unit) :
  preserves f m -> preserves f (when b m).
Proof. destruct b; [done|]. intros _. apply preserves_ret. Qed.

Lemma preserves_forEach {A} (l : list A) (body : A -> M S unit) :
  (forall x, x ∈ l -> preserves f (body x)) -> preserves f (forEach l body).
Proof.
  induction l as [|x l IH]; intros Hbody; simpl.
  - apply preserves_ret.
  - apply preserves_bind; [apply Hbody; set_solver|].
    intros _. apply IH. intros y Hy. apply Hbody. set_solver.
Qed.

Lemma preserves_foldM {A C} (g : C -> A -> M S C) (l : list A) (c : C) :
  (forall c x, x ∈ l -> preserves f (g c x)) -> preserves f (Engine.foldM g l c).
Proof.
  revert c. induction l as [|x l IH]; intros c Hg; simpl.
  - apply preserves_ret.
  - apply preserves_bind; [apply Hg; set_solver|].
    intros c'. apply IH. intros c'' y Hy. apply Hg. set_solver.
Qed.

Lemma preserves_ifDefined {A C} (section : option A) (absent : C)
    (block : A -> M S C) :
  (forall x, section = Some x -> preserves f (block x)) ->
  preserves f (Engine.ifDefined section absent block).
Proof.
  destruct section as [x|]; simpl; [auto|]. intros _. apply preserves_ret.
Qed.

Lemma preserves_modify (g : S -> S) :
  (forall s, f (g s) = f s) -> preserves f (modify g).
Proof. intros Hg s. apply Hg. Qed.

End MonadFacts.

Lemma preserves_run {S A B} (f : S -> B) (m : M S A) s (res : result A) s' :
  preserves f m -> m s = (res, s') -> f s' = f s.
Proof. intros Hm Hrun. specialize (Hm s). by rewrite Hrun in Hm. Qed.

(** A successful [bind] splits into two successful steps. *)
Lemma bind_Ok {S A C} (m : M S A) (k : A -> M S C) (s s' : S) (c : C) :
  bind m k s = (Ok c, s') ->
  exists a s1, m s = (Ok a, s1) /\ k a s1 = (Ok c, s').
Proof.
  unfold bind. destruct (m s) as [[a|e] s1]; [|done]. eauto.
Qed.


(** A loop over keyed entries in which each iteration defines the
    observation at its own key and leaves the other keys alone: after a
    successful run over distinct keys, every entry's key holds what its
    iteration defined. *)
Section Installs.
Context {S E C V : Type} (key : E -> string) (obs : string -> S -> option V)
  (D : E -> V) (Q : E -> Prop).

Lemma foldM_establishes (R : E -> option V -> Prop) (body : C -> E -> M S C) :
  (forall c e s c' s', body c e s = (Ok c', s') -> R e (obs (key e) s')) ->
  (forall c e y, y ≠ key e -> preserves (obs y) (body c e)) ->
  forall l c s c' s' e,
    Engine.foldM body l c s = (Ok c', s') ->
    NoDup (key <$> l) -> e ∈ l ->
    R e (obs (key e) s').
Proof.
  intros Hown Hframe l.
  induction l as [|e0 l IH]; intros c s c' s' e Hrun Hnd Hin.
  - by apply elem_of_nil in Hin.
  - simpl in Hrun. apply bind_Ok in Hrun as (c1 & s1 & Hstep & Hrest).
    rewrite fmap_cons in Hnd. apply NoDup_cons in Hnd as [Hfresh Hnd].
    apply elem_of_cons in Hin as [->|Hin].
    + assert (Hkeep : preserves (obs (key e0)) (Engine.foldM body l c1)).
      { apply preserves_foldM. intros c2 e1 He1. apply Hframe.
        intros Heq. apply Hfresh. rewrite Heq.
        apply list_elem_of_fmap. by exists e1. }
      rewrite (preserves_run _ _ _ _ _ Hkeep Hrest). by eapply Hown.
    + by eapply IH.
Qed.

Lemma foldM_installs (body : C -> E -> M S C) :
  (forall c e s c' s', body c e s = (Ok c', s') -> Q e ->
                       obs (key e) s' = Some (D e)) ->
  (forall c e y, y ≠ key e -> preserves (obs y) (body c e)) ->
  forall l c s c' s' e,
    Engine.foldM body l c s = (Ok c', s') ->
    NoDup (key <$> l) -> e ∈ l -> Q e ->
    obs (key e) s' = Some (D e).
Proof.
  intros Hown Hframe l c s c' s' e Hrun Hnd Hin.
  by apply (foldM_establishes (fun e o => Q e -> o = Some (D e)) body
              Hown Hframe l c s c' s' e).
Qed.

Lemma forEach_installs (body : E -> M S unit) :
  (forall e s s', body e s = (Ok tt, s') -> Q e ->
                  obs (key e) s' = Some (D e)) ->
  (forall e y, y ≠ key e -> preserves (obs y) (body e)) ->
  forall l s s' e,
    forEach l body s = (Ok tt, s') ->
    NoDup (key <$> l) -> e ∈ l -> Q e ->
    obs (key e) s' = Some (D e).
Proof.
  intros Hown Hframe l.
  induction l as [|e0 l IH]; intros s s' e Hrun Hnd Hin HQ.
  - by apply elem_of_nil in Hin.
  - simpl in Hrun. apply bind_Ok in Hrun as ([] & s1 & Hstep & Hrest).
    apply NoDup_cons in Hnd as [Hfresh Hnd].
    apply elem_of_cons in Hin as [->|Hin].
    + assert (Hkeep : preserves (obs (key e0)) (forEach l body)).
      { apply preserves_forEach. intros e1 He1. apply Hframe.
        intros Heq. apply Hfresh. rewrite Heq.
        apply list_elem_of_fmap. by exists e1. }
      specialize (Hkeep s1). rewrite Hrest in Hkeep. simpl in Hkeep.
      rewrite Hkeep. by eapply Hown.
    + by eapply IH.
Qed.

(** Such a loop runs to completion when each iteration succeeds from a
    state whose observation at the iteration's key satisfies [P]. *)
Lemma forEach_succeeds (P : option V -> Prop) (body : E -> M S unit) :
  (forall e s, P (obs (key e) s) -> exists s', body e s = (Ok tt, s')) ->
  (forall e y, y ≠ key e -> preserves (obs y) (body e)) ->
  forall l s,
    NoDup (key <$> l) -> (forall e, e ∈ l -> P (obs (key e) s)) ->
    exists s', forEach l body s = (Ok tt, s').
Proof.
  intros Hok Hframe l.
  induction l as [|e0 l IH]; intros s Hnd HP.
  - by exists s.
  - rewrite fmap_cons in Hnd. apply NoDup_cons in Hnd as [Hfresh Hnd].
    destruct (Hok e0 s) as [s1 Hstep]; [apply HP, elem_of_cons; by left|].
    destruct (IH s1 Hnd) as [s' Hrest].
    + intros e He.
      assert (Hne : key e ≠ key e0).
      { intros Heq. apply Hfresh. rewrite <- Heq.
        apply list_elem_of_fmap. by exists e. }
      rewrite (preserves_run _ _ _ _ _ (Hframe e0 (key e) Hne) Hstep).
      apply HP, elem_of_cons. by right.
    + exists s'. simpl. unfold bind. by rewrite Hstep.
Qed.

End Installs.

(** ** The engine *)

Module EngineFacts.
Import Engine.

Create HintDb registry discriminated.
#[local] Hint Unfold registerDecorators registerPublicProps
  registerPublicMethods registerWire registerTrack registerFields
  validateObservedField validateFieldDecoratedWithTrack
  validateFieldDecoratedWithWire validateMethodDecoratedWithWire
  validateFieldDecoratedWithApi validateAccessorDecoratedWithApi
  validateMethodDecoratedWithApi createPublicAccessorDescriptor
  storeWiredMethodMeta storeWiredFieldMeta callable_adapter proto_get
  getOwnPropertyDescriptor buildConfigExtractor buildReactiveParamsConfig
  buildReactiveParameter assert_fail : registry.

(** One syntax-directed step of a [preserves] proof. *)
Ltac preserve_step :=
  cbv beta;
  lazymatch goal with
  | |- preserves _ (ret _) => apply preserves_ret
  | |- preserves _ (throw _) => apply preserves_throw
  | |- preserves _ (gets _) => apply preserves_gets
  | |- preserves _ (bind _ _) => apply preserves_bind; [|intros ?]
  | |- preserves _ (when _ _) => apply preserves_when
  | |- preserves _ (forEach _ _) => apply preserves_forEach; intros ? ?
  | |- preserves _ (foldM _ _ _) => apply preserves_foldM; intros ? ? ?
  | |- preserves _ (ifDefined _ _ _) => apply preserves_ifDefined; intros ? ?
  | |- preserves _ (assert_isTrue ?b _) =>
      destruct b; [apply preserves_ret | apply preserves_throw]
  | |- preserves _ (match ?x with _ => _ end) => destruct x eqn:?
  | |- preserves _ ((match ?x with _ => _ end) _) => destruct x eqn:?
  | |- preserves _ _ => progress autounfold with registry
  end.

(** A [preserves] proof by structure, with [leaf] for the primitive steps. *)
Ltac preserve_with leaf := repeat first [ leaf | preserve_step ].

Section Registration.
Variable production : bool.
Variable internalTrackDecorator : string -> PropertyDescriptor.
Variable createObservedFieldPropertyDescriptor : string -> PropertyDescriptor.

Abbreviation registerDecorators :=
  (registerDecorators production internalTrackDecorator
     createObservedFieldPropertyDescriptor).
Abbreviation registrations :=
  (registrations production internalTrackDecorator
     createObservedFieldPropertyDescriptor).

(** *** The registry of decorator metadata *)

Lemma defineProperty_preserves_meta Ctor name d (C : ComponentConstructor) :
  preserves (fun r => signedDecoratorToMetaMap r !! C)
    (defineProperty Ctor name d).
Proof.
  unfold defineProperty. preserve_with ltac:(by apply preserves_modify).
Qed.

Lemma storeDef_preserves_meta Ctor key def (C : ComponentConstructor) :
  preserves (fun r => signedDecoratorToMetaMap r !! C) (storeDef Ctor key def).
Proof. by apply preserves_modify. Qed.

Lemma setDecoratorsMeta_preserves_meta Ctor meta (C : ComponentConstructor) :
  C ≠ Ctor ->
  preserves (fun r => signedDecoratorToMetaMap r !! C)
    (setDecoratorsMeta Ctor meta).
Proof.
  intros Hne. apply preserves_modify. intros r. simpl.
  by apply lookup_insert_ne.
Qed.

(** A registration changes the registry entry of its own class only, also
    when it throws. *)
Lemma registerDecorators_meta_frame Ctor meta C :
  C ≠ Ctor ->
  preserves (fun r => signedDecoratorToMetaMap r !! C)
    (registerDecorators Ctor meta).
Proof.
  intros Hne.
  preserve_with
    ltac:(first [ apply defineProperty_preserves_meta
                | apply storeDef_preserves_meta
                | by apply setDecoratorsMeta_preserves_meta
                | by apply preserves_modify ]).
Qed.

(** *** Which prototype properties a registration defines *)

Lemma defineProperty_preserves_proto Ctor name d (C : ComponentConstructor)
    (y : string) :
  C ≠ Ctor \/ y ≠ name ->
  preserves (fun r => proto_of C r !! y) (defineProperty Ctor name d).
Proof.
  intros Hne.
  assert (Hmod : preserves (fun r => proto_of C r !! y)
            (modify (fun r =>
               set_prototypes (<[Ctor := <[name := d]> (proto_of Ctor r)]>) r))).
  { apply preserves_modify. intros r. unfold proto_of at 1. simpl.
    destruct (decide (C = Ctor)) as [->|HC].
    - rewrite lookup_insert_eq. simpl.
      destruct Hne as [?|Hy]; [done|]. by rewrite lookup_insert_ne.
    - by rewrite lookup_insert_ne. }
  unfold defineProperty. preserve_with ltac:(exact Hmod).
Qed.

Lemma proto_of_defined Ctor (p : gmap string PropertyDescriptor) r :
  proto_of Ctor (set_prototypes (<[Ctor := p]>) r) = p.
Proof. unfold proto_of. simpl. by rewrite lookup_insert_eq. Qed.

Lemma storeDef_preserves_proto Ctor key def (C : ComponentConstructor)
    (y : string) :
  preserves (fun r => proto_of C r !! y) (storeDef Ctor key def).
Proof. by apply preserves_modify. Qed.

Lemma defineProperty_installs Ctor name d r (u : unit) r' :
  defineProperty Ctor name d r = (Ok u, r') ->
  proto_of Ctor r' !! name = Some d.
Proof.
  unfold defineProperty, getOwnPropertyDescriptor, bind, gets, modify, throw.
  destruct (proto_of Ctor r !! name) as [d0|]; [destruct (pd_configurable d0)|];
    intros Heq; inversion Heq; subst;
    rewrite proto_of_defined; apply lookup_insert_eq.
Qed.

Lemma key_of_elem {A} (l : list (string * A)) (k y : string) (a : A) :
  (k, a) ∈ l -> y ∉ l.*1 -> y ≠ k.
Proof.
  intros Hin Hy ->. apply Hy. apply list_elem_of_fmap. by exists (k, a).
Qed.

Lemma ne_of_elem (l : list string) (x y : string) :
  x ∈ l -> y ∉ l -> y ≠ x.
Proof. by intros Hin Hy ->. Qed.

Lemma wire_field_key_of_elem (wire : list (string * WireCompilerDef))
    (k y : string) (def : WireCompilerDef) :
  (k, def) ∈ wire -> bool_decide (wc_method def = Some 1%Z) = false ->
  y ∉ wire_field_keys wire -> y ≠ k.
Proof.
  intros Hin Hm Hy ->. apply Hy. unfold wire_field_keys.
  apply list_elem_of_fmap. exists (k, def). split; [done|].
  apply list_elem_of_filter. split; [|done]. simpl.
  by apply bool_decide_eq_false in Hm.
Qed.

(** The primitive steps of a prototype-frame proof: state changes that do
    not touch the prototypes, and definitions of a different key. *)
Ltac proto_leaf :=
  first
    [ by apply preserves_modify
    | apply storeDef_preserves_proto
    | apply defineProperty_preserves_proto;
      match goal with
      | H : _ \/ _ |- _ =>
          destruct H; [by left | right];
          first [ by eapply key_of_elem
                | by eapply wire_field_key_of_elem
                | by eapply ne_of_elem ]
      end ].

Section Frame.
Variables (Ctor C : ComponentConstructor) (y : string).

Lemma registerPublicProps_frame (publicProps : list (string * PropCompilerDef)) :
  C ≠ Ctor \/ y ∉ publicProps.*1 ->
  preserves (fun r => proto_of C r !! y)
    (registerPublicProps production Ctor publicProps).
Proof. intros H. preserve_with proto_leaf. Qed.

Lemma registerPublicMethods_frame (publicMethods : list string) :
  preserves (fun r => proto_of C r !! y)
    (registerPublicMethods production Ctor publicMethods).
Proof. preserve_with proto_leaf. Qed.

Lemma registerWire_frame (wire : list (string * WireCompilerDef)) :
  C ≠ Ctor \/ y ∉ wire_field_keys wire ->
  preserves (fun r => proto_of C r !! y) (registerWire production Ctor wire).
Proof. intros H. preserve_with proto_leaf. Qed.

Lemma registerTrack_frame (track : list (string * Z)) :
  C ≠ Ctor \/ y ∉ track.*1 ->
  preserves (fun r => proto_of C r !! y)
    (registerTrack production internalTrackDecorator Ctor track).
Proof. intros H. preserve_with proto_leaf. Qed.

Lemma registerFields_frame (fields : list string) :
  C ≠ Ctor \/ y ∉ index_keys fields ->
  preserves (fun r => proto_of C r !! y)
    (registerFields production createObservedFieldPropertyDescriptor Ctor fields).
Proof. intros H. preserve_with proto_leaf. Qed.

Lemma setDecoratorsMeta_preserves_proto meta :
  preserves (fun r => proto_of C r !! y) (setDecoratorsMeta Ctor meta).
Proof. by apply preserves_modify. Qed.

(** A registration leaves alone the prototypes of the other classes and, on
    its own class, every property that is not a key of [publicProps], a
    field key of [wire], a key of [track] or an index of [fields]. *)
Lemma registerDecorators_proto_frame (meta : RegisterDecoratorMeta) :
  C ≠ Ctor \/ y ∉ defined_keys meta ->
  preserves (fun r => proto_of C r !! y) (registerDecorators Ctor meta).
Proof.
  intros H.
  assert (Hkeys : C ≠ Ctor \/
            ((y ∉ (default [] (publicProps meta)).*1)
             /\ (y ∉ wire_field_keys (default [] (wire meta)))
             /\ (y ∉ (default [] (track meta)).*1)
             /\ (y ∉ index_keys (default [] (fields meta))))).
  { destruct H as [?|H]; [by left|right].
    unfold defined_keys in H. by rewrite !not_elem_of_app in H. }
  clear H. unfold Engine.registerDecorators.
  apply preserves_bind; [|intros apiFields].
  { apply preserves_ifDefined. intros x Hx. apply registerPublicProps_frame.
    rewrite Hx in Hkeys. simpl in Hkeys. tauto. }
  apply preserves_bind; [|intros apiMethods].
  { apply preserves_ifDefined. intros x Hx. apply registerPublicMethods_frame. }
  apply preserves_bind; [|intros wired].
  { apply preserves_ifDefined. intros x Hx. apply registerWire_frame.
    rewrite Hx in Hkeys. simpl in Hkeys. tauto. }
  apply preserves_bind; [|intros _].
  { apply preserves_ifDefined. intros x Hx. apply registerTrack_frame.
    rewrite Hx in Hkeys. simpl in Hkeys. tauto. }
  apply preserves_bind; [|intros _].
  { apply preserves_ifDefined. intros x Hx. apply registerFields_frame.
    rewrite Hx in Hkeys. simpl in Hkeys. tauto. }
  apply preserves_bind; [|intros _; apply preserves_ret].
  apply setDecoratorsMeta_preserves_proto.
Qed.

End Frame.

(** *** What a successful registration installs *)

(** Splitting the successful run of a sequence into its steps. *)
Ltac split_Ok H :=
  repeat match type of H with
    | bind _ _ _ = (Ok _, _) =>
        let a := fresh "a" in
        let s := fresh "s" in
        let H1 := fresh "Hstep" in
        apply bind_Ok in H as (a & s & H1 & H)
    | ret _ _ = (Ok _, _) => unfold ret in H; inversion H; subst; clear H
    end.

Ltac split_all_Ok :=
  repeat match goal with
    | H : bind _ _ _ = (Ok _, _) |- _ =>
        let a := fresh "a" in
        let s := fresh "s" in
        let H1 := fresh "Hstep" in
        apply bind_Ok in H as (a & s & H1 & H)
    | H : ret _ _ = (Ok _, _) |- _ =>
        unfold ret in H; inversion H; subst; clear H
    end.

Lemma registerPublicProps_installs Ctor publicProps r apiFields r' x cfg :
  registerPublicProps production Ctor publicProps r = (Ok apiFields, r') ->
  NoDup publicProps.*1 ->
  (x, cfg) ∈ publicProps ->
  (config cfg <= 0)%Z ->
  proto_of Ctor r' !! x = Some (createPublicPropertyDescriptor production x).
Proof.
  intros Hrun Hnd Hin Hcfg. unfold registerPublicProps in Hrun.
  eapply (foldM_installs fst (fun k r => proto_of Ctor r !! k)
            (fun e => createPublicPropertyDescriptor production e.1)
            (fun e => (config e.2 <= 0)%Z)) with (e := (x, cfg)) in Hrun;
    [exact Hrun| | |done..].
  - intros c [k a] s c' s' Hbody HQ. simpl in *.
    replace (config a >? 0)%Z with false in Hbody by lia.
    split_Ok Hbody. split_Ok Hstep.
    by eapply defineProperty_installs.
  - intros c [k a] y Hy. simpl in Hy.
    assert (Hor : Ctor ≠ Ctor \/ y ≠ k) by by right.
    preserve_with
      ltac:(first [ by apply preserves_modify
                  | by apply defineProperty_preserves_proto ]).
Qed.

Lemma registerWire_installs Ctor wire r wired r' x def :
  registerWire production Ctor wire r = (Ok wired, r') ->
  NoDup wire.*1 ->
  (x, def) ∈ wire ->
  wc_method def ≠ Some 1%Z ->
  proto_of Ctor r' !! x = Some (internalWireFieldDecorator production x).
Proof.
  intros Hrun Hnd Hin Hfield. unfold registerWire in Hrun.
  eapply (foldM_installs fst (fun k r => proto_of Ctor r !! k)
            (fun e => internalWireFieldDecorator production e.1)
            (fun e => wc_method e.2 ≠ Some 1%Z)) with (e := (x, def)) in Hrun;
    [exact Hrun| | |done..].
  - intros [wiredMethods wiredFields] [k d] s c' s' Hbody HQ. simpl in *.
    rewrite bool_decide_eq_false_2 in Hbody by done.
    split_Ok Hbody.
    by eapply defineProperty_installs.
  - intros [wiredMethods wiredFields] [k d] y Hy. simpl in Hy.
    assert (Hor : Ctor ≠ Ctor \/ y ≠ k) by by right.
    preserve_with
      ltac:(first [ by apply preserves_modify
                  | apply storeDef_preserves_proto
                  | by apply defineProperty_preserves_proto ]).
Qed.

Lemma NoDup_index_keys {A} (array : list A) : NoDup (index_keys array).
Proof. unfold index_keys. apply (NoDup_fmap_2 _), NoDup_seq. Qed.

Lemma elem_of_index_keys {A} (array : list A) (i : nat) :
  i < length array -> pretty i ∈ index_keys array.
Proof.
  intros Hi. unfold index_keys. apply list_elem_of_fmap.
  exists i. split; [done|]. apply elem_of_seq. lia.
Qed.

Lemma registerFields_installs Ctor fields r r' (i : nat) :
  registerFields production createObservedFieldPropertyDescriptor Ctor fields r
    = (Ok tt, r') ->
  i < length fields ->
  proto_of Ctor r' !! pretty i
    = Some (createObservedFieldPropertyDescriptor (pretty i)).
Proof.
  intros Hrun Hi. unfold registerFields in Hrun.
  eapply (forEach_installs id (fun k r => proto_of Ctor r !! k)
            createObservedFieldPropertyDescriptor (fun _ => True))
    with (e := pretty i) in Hrun; [exact Hrun| | | |by apply elem_of_index_keys|done].
  - intros k s s' Hbody _. unfold id.
    split_Ok Hbody.
    by eapply defineProperty_installs.
  - intros k y Hy. unfold id in Hy.
    assert (Hor : Ctor ≠ Ctor \/ y ≠ k) by by right.
    preserve_with
      ltac:(first [ by apply preserves_modify
                  | by apply defineProperty_preserves_proto ]).
  - rewrite list_fmap_id. apply NoDup_index_keys.
Qed.

(** The successful run of [registerDecorators], block by block. *)
Lemma registerDecorators_Ok Ctor meta r c r' :
  registerDecorators Ctor meta r = (Ok c, r') ->
  exists apiFields apiMethods wired r1 r2 r3 r4 r5,
    ifDefined (publicProps meta) [] (registerPublicProps production Ctor) r
      = (Ok apiFields, r1)
    /\ ifDefined (publicMethods meta) [] (registerPublicMethods production Ctor) r1
        = (Ok apiMethods, r2)
    /\ ifDefined (wire meta) ([], []) (registerWire production Ctor) r2
        = (Ok wired, r3)
    /\ ifDefined (track meta) tt
          (registerTrack production internalTrackDecorator Ctor) r3
        = (Ok tt, r4)
    /\ ifDefined (fields meta) tt
          (registerFields production createObservedFieldPropertyDescriptor Ctor) r4
        = (Ok tt, r5)
    /\ r' = set_signedDecoratorToMetaMap
              (<[Ctor := {| apiMethods := apiMethods; apiFields := apiFields;
                            wiredMethods := wired.1; wiredFields := wired.2 |}]>) r5
    /\ c = Ctor.
Proof.
  intros Hrun. unfold Engine.registerDecorators in Hrun.
  split_Ok Hrun. destruct a2, a3.
  unfold setDecoratorsMeta, modify in Hstep4. inversion Hstep4; subst.
  by repeat eexists.
Qed.

Section Installed.
Variables (Ctor : ComponentConstructor) (meta : RegisterDecoratorMeta).

Lemma wire_block_frame (y : string) :
  y ∉ wire_field_keys (default [] (wire meta)) ->
  preserves (fun r => proto_of Ctor r !! y)
    (ifDefined (wire meta) ([], []) (registerWire production Ctor)).
Proof.
  intros Hy. apply preserves_ifDefined. intros w Hw. rewrite Hw in Hy.
  apply registerWire_frame. by right.
Qed.

Lemma track_block_frame (y : string) :
  y ∉ (default [] (track meta)).*1 ->
  preserves (fun r => proto_of Ctor r !! y)
    (ifDefined (track meta) tt
       (registerTrack production internalTrackDecorator Ctor)).
Proof.
  intros Hy. apply preserves_ifDefined. intros t Ht. rewrite Ht in Hy.
  apply registerTrack_frame. by right.
Qed.

Lemma fields_block_frame (y : string) :
  y ∉ index_keys (default [] (fields meta)) ->
  preserves (fun r => proto_of Ctor r !! y)
    (ifDefined (fields meta) tt
       (registerFields production createObservedFieldPropertyDescriptor Ctor)).
Proof.
  intros Hy. apply preserves_ifDefined. intros t Ht. rewrite Ht in Hy.
  apply registerFields_frame. by right.
Qed.

Lemma proto_of_set_meta f r :
  proto_of Ctor (set_signedDecoratorToMetaMap f r) = proto_of Ctor r.
Proof. done. Qed.

(** A public field of [publicProps] ends up with the public-property
    descriptor, provided no later block of the same registration redefines
    the key. *)
Lemma registerDecorators_installs_public_field r c r' publicProps x cfg :
  registerDecorators Ctor meta r = (Ok c, r') ->
  Engine.publicProps meta = Some publicProps ->
  NoDup publicProps.*1 ->
  (x, cfg) ∈ publicProps ->
  (config cfg <= 0)%Z ->
  x ∉ wire_field_keys (default [] (wire meta)) ->
  x ∉ (default [] (track meta)).*1 ->
  x ∉ index_keys (default [] (fields meta)) ->
  proto_of Ctor r' !! x = Some (createPublicPropertyDescriptor production x).
Proof.
  intros Hrun Hpp Hnd Hin Hcfg Hw Ht Hf.
  apply registerDecorators_Ok in Hrun
    as (apiFields & apiMethods & wired & r1 & r2 & r3 & r4 & r5
        & H1 & H2 & H3 & H4 & H5 & -> & ->).
  rewrite proto_of_set_meta.
  rewrite (preserves_run _ _ _ _ _ (fields_block_frame x Hf) H5).
  rewrite (preserves_run _ _ _ _ _ (track_block_frame x Ht) H4).
  rewrite (preserves_run _ _ _ _ _ (wire_block_frame x Hw) H3).
  rewrite (preserves_run (fun r => proto_of Ctor r !! x) _ _ _ _
             (preserves_ifDefined _ _ _ _
                (fun l _ => registerPublicMethods_frame Ctor Ctor x l)) H2).
  rewrite Hpp in H1. simpl in H1.
  by eapply registerPublicProps_installs.
Qed.

(** A wired field of [wire] ends up with the wire-field descriptor, provided
    no later block of the same registration redefines the key. *)
Lemma registerDecorators_installs_wire_field r c r' wire x def :
  registerDecorators Ctor meta r = (Ok c, r') ->
  Engine.wire meta = Some wire ->
  NoDup wire.*1 ->
  (x, def) ∈ wire ->
  wc_method def ≠ Some 1%Z ->
  x ∉ (default [] (track meta)).*1 ->
  x ∉ index_keys (default [] (fields meta)) ->
  proto_of Ctor r' !! x = Some (internalWireFieldDecorator production x).
Proof.
  intros Hrun Hwire Hnd Hin Hfield Ht Hf.
  apply registerDecorators_Ok in Hrun
    as (apiFields & apiMethods & wired & r1 & r2 & r3 & r4 & r5
        & H1 & H2 & H3 & H4 & H5 & -> & ->).
  rewrite proto_of_set_meta.
  rewrite (preserves_run _ _ _ _ _ (fields_block_frame x Hf) H5).
  rewrite (preserves_run _ _ _ _ _ (track_block_frame x Ht) H4).
  rewrite Hwire in H3. simpl in H3.
  by eapply registerWire_installs.
Qed.

(** Every index of the [fields] array ends up with an observed-field
    descriptor. *)
Lemma registerDecorators_installs_index r c r' fields (i : nat) :
  registerDecorators Ctor meta r = (Ok c, r') ->
  Engine.fields meta = Some fields ->
  i < length fields ->
  proto_of Ctor r' !! pretty i
    = Some (createObservedFieldPropertyDescriptor (pretty i)).
Proof.
  intros Hrun Hfields Hi.
  apply registerDecorators_Ok in Hrun
    as (apiFields & apiMethods & wired & r1 & r2 & r3 & r4 & r5
        & H1 & H2 & H3 & H4 & H5 & -> & ->).
  rewrite proto_of_set_meta.
  rewrite Hfields in H5. simpl in H5.
  by eapply registerFields_installs.
Qed.

End Installed.

Lemma registerFields_succeeds Ctor fields r :
  (forall i : nat, i < length fields -> proto_of Ctor r !! pretty i = None) ->
  exists r',
    registerFields production createObservedFieldPropertyDescriptor Ctor fields r
      = (Ok tt, r').
Proof.
  intros Hfree. unfold registerFields.
  apply (forEach_succeeds id (fun k r => proto_of Ctor r !! k) (fun o => o = None)).
  - intros k s Hk. unfold id in Hk.
    unfold validateObservedField, defineProperty, getOwnPropertyDescriptor,
      bind, gets, when, modify, ret.
    destruct (dev production); simpl; rewrite ?Hk; simpl; rewrite ?Hk; eauto.
  - intros k y Hy. unfold id in Hy.
    assert (Hor : Ctor ≠ Ctor \/ y ≠ k) by by right.
    preserve_with
      ltac:(first [ by apply preserves_modify
                  | by apply defineProperty_preserves_proto ]).
  - rewrite list_fmap_id. apply NoDup_index_keys.
  - intros k Hk. unfold index_keys in Hk.
    apply list_elem_of_fmap in Hk as (i & -> & Hi).
    apply elem_of_seq in Hi. apply Hfree. lia.
Qed.

Lemma registrations_meta_frame calls r (C : ComponentConstructor) :
  C ∉ calls.*1 ->
  signedDecoratorToMetaMap (registrations calls r) !! C
    = signedDecoratorToMetaMap r !! C.
Proof.
  revert r. induction calls as [|[Ctor meta] calls IH]; intros r HC; [done|].
  simpl in *. apply not_elem_of_cons in HC as [Hne HC].
  rewrite IH by done.
  apply (registerDecorators_meta_frame Ctor meta C Hne r).
Qed.

(** C6.  From a freshly loaded module, after any sequence of
    [registerDecorators] calls (successful or not) in which the class [C]
    does not occur, [getDecoratorsMeta(C)] returns the default record, whose
    four lists are empty; and [getDecoratorsMeta] returns normally for every
    class in every state, leaving the state as it is. *)
Theorem getDecoratorsMeta_unregistered
    (calls : list (ComponentConstructor * RegisterDecoratorMeta))
    (r0 : Registry) (C : ComponentConstructor) :
  signedDecoratorToMetaMap r0 = ∅ ->
  C ∉ calls.*1 ->
  getDecoratorsMeta C (registrations calls r0)
    = (Ok {| apiMethods := []; apiFields := [];
             wiredMethods := []; wiredFields := [] |},
       registrations calls r0)
  /\ (forall C' r, exists meta, getDecoratorsMeta C' r = (Ok meta, r)).
Proof.
  intros Hfresh HC. split.
  - unfold getDecoratorsMeta, bind, gets, ret.
    rewrite registrations_meta_frame by done.
    by rewrite Hfresh, lookup_empty.
  - intros C' r. unfold getDecoratorsMeta, bind, gets, ret. eauto.
Qed.

(** C9.  The [fields] array is traversed with [for...in]: a successful
    registration defines an observed-field descriptor under every index key
    ['0'], ['1'], ... of the array, each built from the index key; a listed
    field name that is not itself a key defined by the registration keeps
    whatever own property the prototype had (none, if it had none).  When
    [fields] is the only metadata and the index keys are free on the
    prototype, the registration does succeed. *)
Theorem fields_installed_under_index_keys
    (Ctor : ComponentConstructor) (fields : list string) :
  (forall meta r c r',
      registerDecorators Ctor meta r = (Ok c, r') ->
      Engine.fields meta = Some fields ->
      (forall i : nat, i < length fields ->
         proto_of Ctor r' !! pretty i
           = Some (createObservedFieldPropertyDescriptor (pretty i)))
      /\ (forall name, name ∈ fields -> name ∉ defined_keys meta ->
            proto_of Ctor r' !! name = proto_of Ctor r !! name))
  /\ (forall r,
        (forall i : nat, i < length fields ->
           proto_of Ctor r !! pretty i = None) ->
        exists r',
          registerDecorators Ctor
            {| publicMethods := None; publicProps := None; track := None;
               wire := None; Engine.fields := Some fields |} r
          = (Ok Ctor, r')).
Proof.
  split.
  - intros meta r c r' Hrun Hfields. split.
    + intros i Hi. by eapply registerDecorators_installs_index.
    + intros name _ Hname.
      apply (preserves_run _ _ _ _ _
               (registerDecorators_proto_frame Ctor Ctor name meta
                  (or_intror Hname)) Hrun).
  - intros r Hfree.
    destruct (registerFields_succeeds Ctor fields r Hfree) as [r5 Hrun].
    eexists. unfold Engine.registerDecorators, ifDefined, bind, ret. simpl.
    rewrite Hrun. reflexivity.
Qed.

(** *** The wire definitions that a registration stores *)

Lemma storeDef_stores Ctor key def r (u : unit) r' :
  storeDef Ctor key def r = (Ok u, r') -> wire_def_of Ctor key r' = Some def.
Proof.
  unfold storeDef, modify. intros Heq. inversion Heq; subst.
  unfold wire_def_of. simpl. rewrite lookup_insert_eq. simpl.
  apply assoc_assoc_set_eq.
Qed.

Lemma storeDef_preserves_wire Ctor key def (y : string) :
  y ≠ key ->
  preserves (wire_def_of Ctor y) (storeDef Ctor key def).
Proof.
  intros Hne. apply preserves_modify. intros r.
  unfold wire_def_of. simpl. rewrite lookup_insert_eq. simpl.
  by apply assoc_assoc_set_ne.
Qed.

Lemma defineProperty_preserves_wire Ctor name d (C : ComponentConstructor)
    (y : string) :
  preserves (wire_def_of C y) (defineProperty Ctor name d).
Proof.
  unfold defineProperty. preserve_with ltac:(by apply preserves_modify).
Qed.

Lemma registerWire_stores Ctor wire r wired r' x def :
  registerWire production Ctor wire r = (Ok wired, r') ->
  NoDup wire.*1 ->
  (x, def) ∈ wire ->
  stored_for def (wire_def_of Ctor x r').
Proof.
  intros Hrun Hnd Hin. unfold registerWire in Hrun.
  eapply (foldM_establishes fst (wire_def_of Ctor)
            (fun e o => stored_for e.2 o)) with (e := (x, def)) in Hrun;
    [exact Hrun| | |done..].
  - intros [wiredMethods wiredFields] [k d] s c' s' Hbody. simpl in *.
    apply bind_Ok in Hbody as (cb & s0 & Hcb & Hbody).
    assert (Hextractor : wc_params d = None ->
              cb = configExtractor (wc_static d) []).
    { intros Hstatic. unfold buildConfigExtractor in Hcb.
      rewrite Hstatic in Hcb. by split_all_Ok. }
    destruct (bool_decide (wc_method d = Some 1%Z)) eqn:Hm; split_all_Ok.
    + match goal with
      | H : storeWiredMethodMeta _ _ _ _ _ _ = _ |- _ =>
          unfold storeWiredMethodMeta in H; split_Ok H;
          rewrite (storeDef_stores _ _ _ _ _ _ H)
      end.
      eexists. split; [done|]. split; [done|].
      apply bool_decide_eq_true in Hm. done.
    + match goal with
      | H : defineProperty _ _ _ _ = _ |- _ =>
          rewrite (preserves_run _ _ _ _ _
                     (defineProperty_preserves_wire _ _ _ Ctor k) H)
      end.
      match goal with
      | H : storeWiredFieldMeta _ _ _ _ _ = _ |- _ =>
          unfold storeWiredFieldMeta in H; split_Ok H;
          rewrite (storeDef_stores _ _ _ _ _ _ H)
      end.
      by eexists.
  - intros [wiredMethods wiredFields] [k d] y Hy. simpl in Hy.
    preserve_with
      ltac:(first [ by apply preserves_modify
                  | by apply storeDef_preserves_wire
                  | apply defineProperty_preserves_wire ]).
Qed.

(** The blocks after the wire block leave the stored definitions alone. *)
Lemma after_wire_preserves_wire Ctor meta (y : string) r3 r4 r5 f :
  ifDefined (track meta) tt
    (registerTrack production internalTrackDecorator Ctor) r3 = (Ok tt, r4) ->
  ifDefined (fields meta) tt
    (registerFields production createObservedFieldPropertyDescriptor Ctor) r4
  = (Ok tt, r5) ->
  wire_def_of Ctor y (set_signedDecoratorToMetaMap f r5) = wire_def_of Ctor y r3.
Proof.
  intros H4 H5.
  assert (Htrack : preserves (wire_def_of Ctor y)
            (ifDefined (track meta) tt
               (registerTrack production internalTrackDecorator Ctor))).
  { preserve_with ltac:(apply defineProperty_preserves_wire). }
  assert (Hfields : preserves (wire_def_of Ctor y)
            (ifDefined (fields meta) tt
               (registerFields production
                  createObservedFieldPropertyDescriptor Ctor))).
  { preserve_with ltac:(apply defineProperty_preserves_wire). }
  rewrite <- (preserves_run _ _ _ _ _ Htrack H4).
  by rewrite <- (preserves_run _ _ _ _ _ Hfields H5).
Qed.

(** What a successful registration stores for a wire declaration. *)
Lemma registerDecorators_stores_wire Ctor meta r c r' wire x def :
  registerDecorators Ctor meta r = (Ok c, r') ->
  Engine.wire meta = Some wire ->
  NoDup wire.*1 ->
  (x, def) ∈ wire ->
  stored_for def (wire_def_of Ctor x r').
Proof.
  intros Hrun Hwire Hnd Hin.
  apply registerDecorators_Ok in Hrun
    as (apiFields & apiMethods & wired & r1 & r2 & r3 & r4 & r5
        & H1 & H2 & H3 & H4 & H5 & -> & ->).
  rewrite (after_wire_preserves_wire Ctor meta x r3 r4 r5 _ H4 H5).
  rewrite Hwire in H3. simpl in H3.
  by eapply registerWire_stores.
Qed.

(** *** The installed descriptors at work *)

Lemma publicProperty_set x this vm v rt :
  vms rt !! this = Some vm ->
  production = true \/ isRendering rt = false ->
  descriptor_set (createPublicPropertyDescriptor production x) this v rt
    = (Ok tt,
       (if isDirty vm then id else emit (Mutated this x))
         (set_vms (alter (set_cmpProps (<[x := v]>)) this) rt)).
Proof.
  intros Hvm Hmode.
  unfold descriptor_set, createPublicPropertyDescriptor, getComponentVM,
    vm_write, vm_isDirty, valueMutated, assert_isTrue, assert_invariant,
    dev, bind, gets, modify, when, ret, throw; simpl.
  rewrite Hvm; simpl.
  destruct production; simpl.
  - by destruct (isDirty vm).
  - destruct Hmode as [?|Hrender]; [done|]. rewrite Hrender. simpl.
    by destruct (isDirty vm).
Qed.

Lemma publicProperty_get x this vm rt :
  vms rt !! this = Some vm ->
  vmBeingConstructed rt ≠ Some this ->
  descriptor_get (createPublicPropertyDescriptor production x) this rt
    = (Ok (default VUndefined (cmpProps vm !! x)), emit (Observed this x) rt).
Proof.
  intros Hvm Hnew.
  unfold descriptor_get, createPublicPropertyDescriptor, getComponentVM,
    isBeingConstructed, vm_read, valueObserved, assert_isTrue,
    dev, bind, gets, modify, when, ret, throw; simpl.
  rewrite Hvm.
  destruct production; simpl; by rewrite bool_decide_eq_false_2.
Qed.

Lemma wireField_get key this vm rt :
  vms rt !! this = Some vm ->
  descriptor_get (internalWireFieldDecorator production key) this rt
    = (Ok (default VUndefined (cmpFields vm !! key)),
       emit (Observed this key) rt).
Proof.
  intros Hvm.
  unfold descriptor_get, internalWireFieldDecorator, getComponentVM,
    vm_read, valueObserved, assert_isTrue,
    dev, bind, gets, modify, when, ret, throw; simpl.
  rewrite Hvm; simpl.
  by destruct production.
Qed.

(** C4, amended.  For a public field [x] registered by a successful
    [registerDecorators] (and not redefined by a later block of it), on an
    instance that is not under construction and, in a development build,
    while no render is in progress: the assignment [instance.x = v] stores
    [v] in the public-property storage, a subsequent read returns [v], and
    the assignment raises exactly one [valueMutated(instance, x)] when the
    instance is not dirty and none when it is dirty. *)
Theorem public_field_set_then_get
    (Ctor : ComponentConstructor) (meta : RegisterDecoratorMeta)
    (r r' : Registry) (c : ComponentConstructor)
    (publicProps : list (string * PropCompilerDef))
    (x : string) (cfg : PropCompilerDef)
    (this : ComponentInterface) (vm : VM) (v : value) (rt : Runtime) :
  registerDecorators Ctor meta r = (Ok c, r') ->
  Engine.publicProps meta = Some publicProps ->
  NoDup publicProps.*1 ->
  (x, cfg) ∈ publicProps ->
  (config cfg <= 0)%Z ->
  x ∉ wire_field_keys (default [] (wire meta)) ->
  x ∉ (default [] (track meta)).*1 ->
  x ∉ index_keys (default [] (fields meta)) ->
  vms rt !! this = Some vm ->
  vmBeingConstructed rt ≠ Some this ->
  production = true \/ isRendering rt = false ->
  exists d,
    proto_of Ctor r' !! x = Some d
    /\ public_field_write_read d x this vm v rt.
Proof.
  intros Hrun Hpp Hnd Hin Hcfg Hw Ht Hf Hvm Hnew Hmode.
  eexists. split; [by eapply registerDecorators_installs_public_field|].
  unfold public_field_write_read.
  rewrite (publicProperty_set x this vm v rt Hvm Hmode).
  cbv zeta. cbn [fst snd].
  set (rt1 := (if isDirty vm then id else emit (Mutated this x)) _).
  assert (Hvm1 : vms rt1 !! this = Some (set_cmpProps (<[x := v]>) vm)).
  { unfold rt1. destruct (isDirty vm); simpl; by rewrite lookup_alter_eq, Hvm. }
  assert (Hnew1 : vmBeingConstructed rt1 ≠ Some this).
  { unfold rt1. by destruct (isDirty vm). }
  rewrite (publicProperty_get x this _ rt1 Hvm1 Hnew1), Hvm1.
  repeat split.
  - unfold rt1. destruct (isDirty vm); simpl; by rewrite ?app_nil_r.
  - simpl. by rewrite lookup_insert_eq.
Qed.

(** C7.  For a wired field [f] installed by a successful
    [registerDecorators] (and not redefined by a later block of it): an
    assignment through the installed descriptor returns and changes nothing,
    so the stored wired value stays as it is; a read notifies
    [valueObserved(instance, f)] and returns the stored wired value. *)
Theorem wired_field_descriptor
    (Ctor : ComponentConstructor) (meta : RegisterDecoratorMeta)
    (r r' : Registry) (c : ComponentConstructor)
    (wire : list (string * WireCompilerDef))
    (f : string) (def : WireCompilerDef) :
  registerDecorators Ctor meta r = (Ok c, r') ->
  Engine.wire meta = Some wire ->
  NoDup wire.*1 ->
  (f, def) ∈ wire ->
  wc_method def ≠ Some 1%Z ->
  f ∉ (default [] (track meta)).*1 ->
  f ∉ index_keys (default [] (fields meta)) ->
  exists d,
    proto_of Ctor r' !! f = Some d
    /\ (forall this v rt, descriptor_set d this v rt = (Ok tt, rt))
    /\ (forall this vm rt,
          vms rt !! this = Some vm ->
          descriptor_get d this rt
            = (Ok (default VUndefined (cmpFields vm !! f)),
               emit (Observed this f) rt)).
Proof.
  intros Hrun Hwire Hnd Hin Hfield Ht Hf.
  eexists. split; [by eapply registerDecorators_installs_wire_field|].
  split; [done|].
  intros this vm rt Hvm. by apply wireField_get.
Qed.

End Registration.

(** *** Reactive parameters and the config extractor *)

Lemma tail_loop_nonempty (v : value) (tail : list string) :
  tail ≠ [] ->
  tail_loop v tail
  = if is_nullish v
    then Throw (TypeError "Cannot read properties of null or undefined")
    else Ok VUndefined.
Proof.
  destruct tail as [|segment tail']; [done|]. intros _. simpl.
  by destruct v.
Qed.

(** C3.  What [getReactiveParameterValue] computes for a reactive parameter
    with a non-empty tail: the head property of the host is read; if its
    value is neither null nor undefined the result is [undefined], whatever
    the tail leads to; if it is null or undefined, reading the first tail
    segment throws a TypeError. *)
Theorem getReactiveParameterValue_inverted
    (host : value) (rp : ReactiveParameter) (v : value) (reads : list string) :
  tail rp ≠ [] ->
  get_member host (head rp) = Ok v ->
  getReactiveParameterValue host rp reads
  = (if is_nullish v
     then Throw (TypeError "Cannot read properties of null or undefined")
     else Ok VUndefined,
     reads ++ [head rp]).
Proof.
  intros Htail Hhead.
  unfold getReactiveParameterValue, host_read, bind, modify, ret, throw.
  rewrite Hhead, (tail_loop_nonempty v _ Htail).
  by destruct (is_nullish v).
Qed.

(** The failing inputs of C3, evaluated.  With every intermediate value
    present, [foo.bar.baz] evaluates to [undefined] where the announced
    traversal reaches 1; with a null head, the code throws where the
    announced traversal yields [undefined]. *)
Example reactive_parameter_foo_bar_baz :
  let host := VObj [("foo", VObj [("bar", VObj [("baz", VNum 1)])])] in
  let rp := {| reference := "foo.bar.baz"; head := "foo"; tail := ["bar"; "baz"] |} in
  (buildReactiveParameter "foo.bar.baz" (mkRegistry ∅ ∅ ∅ ∅)).1 = Ok rp
  /\ getReactiveParameterValue host rp [] = (Ok VUndefined, ["foo"])
  /\ tail_loop_spec (VObj [("bar", VObj [("baz", VNum 1)])]) (tail rp)
     = Ok (VNum 1)
  /\ (getReactiveParameterValue (VObj [("foo", VNull)]) rp []).1
     = Throw (TypeError "Cannot read properties of null or undefined")
  /\ tail_loop_spec VNull (tail rp) = Ok VUndefined.
Proof. vm_compute. done. Qed.

Lemma computeReactiveParams_no_params (host : value) (reads : list string) :
  computeReactiveParams host [] reads = (Ok [], reads).
Proof. done. Qed.

(** C8.  For the static config [{kind: 'x'}] without dynamic params:
    [buildConfigExtractor] returns, in every state and leaving the cache as
    it is, an extractor that applied to any host returns an object equal to
    [{kind: 'x'}] and reads no property of the host (the list of host reads
    is the same after the call as before); and the definition that a
    successful registration stores for such a wire declaration carries an
    extractor that behaves so. *)
Theorem static_config_extractor (production : bool)
    (internalTrackDecorator createObservedFieldPropertyDescriptor
       : string -> PropertyDescriptor) :
  (forall r, exists extractor,
      buildConfigExtractor (Some [("kind", VStr "x")]) None r = (Ok extractor, r)
      /\ forall (host : value) (reads : list string),
           extractor host reads = (Ok (VObj [("kind", VStr "x")]), reads))
  /\ (forall Ctor meta r c r' wire f def,
        registerDecorators production internalTrackDecorator
          createObservedFieldPropertyDescriptor Ctor meta r = (Ok c, r') ->
        Engine.wire meta = Some wire ->
        NoDup wire.*1 ->
        (f, def) ∈ wire ->
        wc_static def = Some [("kind", VStr "x")] ->
        wc_params def = None ->
        exists stored,
          wire_def_of Ctor f r' = Some stored
          /\ forall (host : value) (reads : list string),
               configCallback stored host reads
               = (Ok (VObj [("kind", VStr "x")]), reads)).
Proof.
  split.
  - intros r. eexists. split; [reflexivity|]. intros host reads. reflexivity.
  - intros Ctor meta r c r' wire f def Hrun Hwire Hnd Hin Hstatic Hparams.
    destruct (registerDecorators_stores_wire _ _ _ _ _ _ _ _ _ _ _ Hrun Hwire Hnd Hin)
      as (stored & Hstored & Hcb & _).
    exists stored. split; [done|]. intros host reads.
    by rewrite (Hcb Hparams), Hstatic.
Qed.

(** *** The data callback of a wired field *)

Lemma field_dataCallback_run (name : string) (component : ComponentInterface)
    (def : WireDef) (v : value) (rt : Runtime) :
  method def = None ->
  dataCallback (Some name) component def v rt
  = (Ok tt,
     emit (Mutated component name)
       (set_vms (alter (set_cmpFields (<[name := v]>)) component) rt)).
Proof. intros Hfield. unfold dataCallback. by rewrite Hfield. Qed.

(** C2.  What the data callback of a registered field wire [f] does: the
    key it stores under and notifies for is the global [name], not [f].
    When the global [name] is a string other than [f], delivering [v]
    stores [v] under the key [name] of the wired-field storage and raises
    the single notification [valueMutated(component, name)]; a subsequent
    read of the wired field [f] returns what was stored for [f] before. *)
Theorem field_dataCallback_uses_global_name (production : bool)
    (internalTrackDecorator createObservedFieldPropertyDescriptor
       : string -> PropertyDescriptor)
    (Ctor : ComponentConstructor) (meta : RegisterDecoratorMeta)
    (r r' : Registry) (c : ComponentConstructor)
    (wire : list (string * WireCompilerDef)) (f : string)
    (def : WireCompilerDef) (name : string)
    (component : ComponentInterface) (vm : VM) (v : value) (rt : Runtime) :
  registerDecorators production internalTrackDecorator
    createObservedFieldPropertyDescriptor Ctor meta r = (Ok c, r') ->
  Engine.wire meta = Some wire ->
  NoDup wire.*1 ->
  (f, def) ∈ wire ->
  wc_method def ≠ Some 1%Z ->
  vms rt !! component = Some vm ->
  f ≠ name ->
  exists stored,
    wire_def_of Ctor f r' = Some stored
    /\ let delivered := dataCallback (Some name) component stored v rt in
       delivered.1 = Ok tt
       /\ cmpFields <$> (vms delivered.2 !! component)
          = Some (<[name := v]> (cmpFields vm))
       /\ trace delivered.2 = trace rt ++ [Mutated component name]
       /\ (descriptor_get (internalWireFieldDecorator production f)
             component delivered.2).1
          = Ok (default VUndefined (cmpFields vm !! f)).
Proof.
  intros Hrun Hwire Hnd Hin Hfield Hvm Hne.
  destruct (registerDecorators_stores_wire _ _ _ _ _ _ _ _ _ _ _ Hrun Hwire Hnd Hin)
    as (stored & Hstored & _ & Hmethod).
  exists stored. split; [done|]. cbv zeta.
  rewrite field_dataCallback_run by auto. cbn [fst snd].
  set (rt1 := emit _ _).
  assert (Hvm1 : vms rt1 !! component
                 = Some (set_cmpFields (<[name := v]>) vm)).
  { unfold rt1. simpl. by rewrite lookup_alter_eq, Hvm. }
  rewrite Hvm1, (wireField_get production f component _ rt1 Hvm1). simpl.
  by rewrite lookup_insert_ne.
Qed.

(** Where the global [name] is unbound the callback throws. *)
Lemma field_dataCallback_unbound_name (component : ComponentInterface)
    (def : WireDef) (v : value) (rt : Runtime) :
  method def = None ->
  dataCallback None component def v rt
  = (Throw (ReferenceError "name is not defined"), rt).
Proof. intros Hfield. unfold dataCallback. by rewrite Hfield. Qed.

(** *** Batching of config recomputation *)

Lemma notify_mutation_pending (key : string) (c : Connector) :
  hasPendingConfig c = true -> notify_mutation key c = (Ok tt, c).
Proof.
  intros Hp. unfold notify_mutation, ro_callback, bind, gets, when, ret.
  destruct (bool_decide _); simpl; by rewrite ?Hp.
Qed.

Lemma notify_mutation_idle (key : string) (c : Connector) :
  hasPendingConfig c = false ->
  notify_mutation key c
  = (Ok tt, if bool_decide (key ∈ ro_listeners c) then scheduled c else c).
Proof.
  intros Hp. unfold notify_mutation, ro_callback, bind, gets, when, ret, modify.
  destruct (bool_decide _); simpl; by rewrite ?Hp.
Qed.

Lemma notifications_pending (keys : list string) (c : Connector) :
  hasPendingConfig c = true -> forEach keys notify_mutation c = (Ok tt, c).
Proof.
  intros Hp. induction keys as [|k keys IH]; [done|].
  simpl. unfold bind. by rewrite notify_mutation_pending.
Qed.

Lemma notifications_idle (keys : list string) (c : Connector) :
  hasPendingConfig c = false ->
  forEach keys notify_mutation c
  = (Ok tt,
     if bool_decide (Exists (fun k => k ∈ ro_listeners c) keys)
     then scheduled c else c).
Proof.
  intros Hp. induction keys as [|k keys IH].
  - cbn [forEach]. unfold ret.
    by rewrite bool_decide_eq_false_2 by (by intros ?%Exists_nil).
  - cbn [forEach]. unfold bind. rewrite notify_mutation_idle by done.
    destruct (decide (k ∈ ro_listeners c)) as [Hk|Hk].
    + rewrite (bool_decide_eq_true_2 _ Hk).
      rewrite notifications_pending by done.
      by rewrite bool_decide_eq_true_2 by (by apply Exists_cons_hd).
    + rewrite (bool_decide_eq_false_2 _ Hk), IH.
      destruct (decide (Exists (fun k => k ∈ ro_listeners c) keys)) as [He|He].
      * rewrite (bool_decide_eq_true_2 _ He).
        by rewrite bool_decide_eq_true_2 by (by apply Exists_cons_tl).
      * rewrite (bool_decide_eq_false_2 _ He).
        rewrite bool_decide_eq_false_2; [done|].
        by intros [?|?]%Exists_cons.
Qed.

Lemma update_config_updates (configCallback : ConfigCallback)
    (component : value) (c : Connector) :
  hasPendingConfig (update_config configCallback component c).2
  = hasPendingConfig c
  /\ microtasks (update_config configCallback component c).2 = microtasks c
  /\ length (updates (update_config configCallback component c).2)
     <= S (length (updates c)).
Proof.
  unfold update_config.
  destruct (configCallback component []) as [[config|e] reads]; simpl;
    rewrite ?length_app; simpl; repeat split; lia.
Qed.

Lemma run_microtask_state (configCallback : ConfigCallback)
    (component : value) (c : Connector) :
  (run_microtask configCallback component RecomputeConfig c).2
  = (update_config configCallback component
       (set_ro_listeners [] (set_hasPendingConfig false c))).2.
Proof.
  unfold run_microtask, ro_reset, bind, modify, ret.
  by destruct (update_config _ _ _) as [[reads|e] c'].
Qed.

Lemma run_microtasks_one (configCallback : ConfigCallback)
    (component : value) (c : Connector) :
  microtasks c = [RecomputeConfig] ->
  (run_microtasks configCallback component c).2
  = (update_config configCallback component
       (set_ro_listeners [] (set_hasPendingConfig false (set_microtasks [] c)))).2.
Proof.
  intros Hq. unfold run_microtasks, bind, gets, modify. rewrite Hq.
  cbn [forEach]. unfold bind, ret. cbn [fst snd].
  apply run_microtask_state.
Qed.

(** C5.  From a connector with no recompute pending (as after the initial
    synchronous config observation), any list of mutation notifications in
    one synchronous task queues at most one recompute job: the pending flag
    is set exactly when some notification concerns an observed key, the
    queue then holds one job, and notifications arriving while the flag is
    set change nothing.  When the queued jobs run, the flag is cleared, the
    queue is empty and the adapter has received at most one [update]. *)
Theorem connector_batches_recompute
    (configCallback : ConfigCallback) (component : value)
    (keys : list string) (c : Connector) :
  hasPendingConfig c = false ->
  microtasks c = [] ->
  let notified := forEach keys notify_mutation c in
  let ran := run_microtasks configCallback component notified.2 in
  notified.1 = Ok tt
  /\ length (microtasks notified.2) <= 1
  /\ (hasPendingConfig notified.2 = true
      <-> Exists (fun k => k ∈ ro_listeners c) keys)
  /\ (hasPendingConfig notified.2 = true ->
      microtasks notified.2 = [RecomputeConfig])
  /\ (forall more, hasPendingConfig notified.2 = true ->
        forEach more notify_mutation notified.2 = (Ok tt, notified.2))
  /\ hasPendingConfig ran.2 = false
  /\ microtasks ran.2 = []
  /\ length (updates ran.2) <= S (length (updates c)).
Proof.
  intros Hidle Hqueue. cbv zeta.
  rewrite notifications_idle by done. cbn [fst snd].
  destruct (decide (Exists (fun k => k ∈ ro_listeners c) keys)) as [He|He].
  - rewrite (bool_decide_eq_true_2 _ He).
    assert (Hq : microtasks (scheduled c) = [RecomputeConfig]).
    { unfold scheduled. simpl. by rewrite Hqueue. }
    repeat split; try done.
    + rewrite Hq. simpl. lia.
    + intros more _. by apply notifications_pending.
    + rewrite (run_microtasks_one _ _ _ Hq).
      by rewrite (proj1 (update_config_updates _ _ _)).
    + rewrite (run_microtasks_one _ _ _ Hq).
      by rewrite (proj1 (proj2 (update_config_updates _ _ _))).
    + rewrite (run_microtasks_one _ _ _ Hq).
      match goal with
      | |- length (updates (update_config ?cb ?co ?c1).2) <= _ =>
          exact (proj2 (proj2 (update_config_updates cb co c1)))
      end.
  - rewrite (bool_decide_eq_false_2 _ He).
    unfold run_microtasks, bind, gets, modify. rewrite Hqueue. simpl.
    repeat split; try done; try lia; try congruence.
Qed.

Lemma createConnector_idle (component : value) (def : WireDef) :
  hasPendingConfig (createConnector component def) = false
  /\ microtasks (createConnector component def) = [].
Proof.
  unfold createConnector, ro_observe, update_config, bind.
  by destruct (configCallback def component []) as [[config|e] reads].
Qed.

End EngineFacts.

(** ** The theorems at work on the sample component *)

Module SampleFacts.
Import Engine EngineFacts Sample.

Lemma registered_public_Ok :
  registerDecorators false plainDescriptor plainDescriptor 1 meta_public loaded
  = (Ok 1, registered meta_public).
Proof. vm_compute. reflexivity. Qed.

Lemma registered_wire_Ok :
  registerDecorators false plainDescriptor plainDescriptor 1 meta_wire loaded
  = (Ok 1, registered meta_wire).
Proof. vm_compute. reflexivity. Qed.

Lemma registered_fields_Ok :
  registerDecorators false plainDescriptor plainDescriptor 1 meta_fields loaded
  = (Ok 1, registered meta_fields).
Proof. vm_compute. reflexivity. Qed.

Lemma getDecoratorsMeta_unregistered_witness :
  getDecoratorsMeta 2
    (registrations false plainDescriptor plainDescriptor
       [(1, meta_public)] loaded)
  = (Ok defaultMeta,
     registrations false plainDescriptor plainDescriptor
       [(1, meta_public)] loaded).
Proof.
  apply (getDecoratorsMeta_unregistered false plainDescriptor plainDescriptor
           [(1, meta_public)] loaded 2).
  - reflexivity.
  - compute_done.
Defined.

Lemma fields_installed_under_index_keys_witness :
  exists r',
    registerDecorators false plainDescriptor plainDescriptor 1 meta_fields loaded
    = (Ok 1, r')
    /\ proto_of 1 r' !! "0" = Some (plainDescriptor "0")
    /\ proto_of 1 r' !! "1" = Some (plainDescriptor "1")
    /\ proto_of 1 r' !! "a" = proto_of 1 loaded !! "a"
    /\ proto_of 1 r' !! "b" = proto_of 1 loaded !! "b".
Proof.
  destruct (fields_installed_under_index_keys false plainDescriptor
              plainDescriptor 1 ["a"; "b"]) as [Hinstalled Hsucceeds].
  destruct (Hsucceeds loaded) as [r' Hrun]; [done|].
  destruct (Hinstalled meta_fields loaded 1 r' Hrun eq_refl) as [Hidx Hnames].
  exists r'. split; [exact Hrun|].
  split; [apply (Hidx 0); simpl; lia|].
  split; [apply (Hidx 1); simpl; lia|].
  split; apply Hnames; compute_done.
Defined.

Lemma public_field_set_then_get_witness :
  exists d,
    proto_of 1 (registered meta_public) !! "x" = Some d
    /\ public_field_write_read d "x" 1 vm0 (VNum 5) rt0.
Proof.
  apply (public_field_set_then_get false plainDescriptor plainDescriptor
           1 meta_public loaded (registered meta_public) 1
           [("x", {| config := 0; type := "any" |})] "x"
           {| config := 0; type := "any" |} 1 vm0 (VNum 5) rt0).
  - exact registered_public_Ok.
  - reflexivity.
  - compute_done.
  - left.
  - simpl. lia.
  - compute_done.
  - compute_done.
  - compute_done.
  - reflexivity.
  - discriminate.
  - right. reflexivity.
Defined.

(** C4 as stated fails in a development build while a render is in
    progress: [x] is a registered public field of the class of component 1,
    which is neither under construction nor dirty, yet the assignment
    [instance.x = 5] throws the render-side-effect assertion, stores nothing
    and notifies nothing, and a subsequent read returns [undefined]. *)
Lemma public_field_write_while_rendering :
  proto_of 1 (registered meta_public) !! "x"
    = Some (createPublicPropertyDescriptor false "x")
  /\ vms rt_rendering !! 1 = Some vm0
  /\ vmBeingConstructed rt_rendering ≠ Some 1
  /\ isDirty vm0 = false
  /\ ~ public_field_write_read (createPublicPropertyDescriptor false "x")
        "x" 1 vm0 (VNum 5) rt_rendering
  /\ (descriptor_get (createPublicPropertyDescriptor false "x") 1
        (descriptor_set (createPublicPropertyDescriptor false "x") 1
           (VNum 5) rt_rendering).2).1 = Ok VUndefined
  /\ trace (descriptor_set (createPublicPropertyDescriptor false "x") 1
              (VNum 5) rt_rendering).2 = [].
Proof.
  split.
  { apply (registerDecorators_installs_public_field false plainDescriptor
             plainDescriptor 1 meta_public loaded 1 _
             [("x", {| config := 0; type := "any" |})] "x"
             {| config := 0; type := "any" |} registered_public_Ok eq_refl);
      first [ compute_done | left | simpl; lia ]. }
  split; [reflexivity|]. split; [discriminate|]. split; [reflexivity|].
  split.
  - intros (Hwritten & _). vm_compute in Hwritten. discriminate.
  - split; vm_compute; reflexivity.
Qed.

Lemma wired_field_descriptor_witness :
  exists d,
    proto_of 1 (registered meta_wire) !! "data" = Some d
    /\ (forall this v rt, descriptor_set d this v rt = (Ok tt, rt))
    /\ (forall this vm rt,
          vms rt !! this = Some vm ->
          descriptor_get d this rt
            = (Ok (default VUndefined (cmpFields vm !! "data")),
               emit (Observed this "data") rt)).
Proof.
  apply (wired_field_descriptor false plainDescriptor plainDescriptor
           1 meta_wire loaded (registered meta_wire) 1
           [("data", {| wc_method := None; wc_adapter := VFun 3 [];
                        wc_params := None;
                        wc_static := Some [("kind", VStr "x")] |})]
           "data"
           {| wc_method := None; wc_adapter := VFun 3 [];
              wc_params := None;
              wc_static := Some [("kind", VStr "x")] |}).
  - exact registered_wire_Ok.
  - reflexivity.
  - compute_done.
  - left.
  - discriminate.
  - compute_done.
  - compute_done.
Defined.

Lemma static_config_extractor_witness :
  exists stored,
    wire_def_of 1 "data" (registered meta_wire) = Some stored
    /\ forall (host : value) (reads : list string),
         configCallback stored host reads
         = (Ok (VObj [("kind", VStr "x")]), reads).
Proof.
  apply (proj2 (static_config_extractor false plainDescriptor plainDescriptor)
           1 meta_wire loaded 1 (registered meta_wire)
           [("data", {| wc_method := None; wc_adapter := VFun 3 [];
                        wc_params := None;
                        wc_static := Some [("kind", VStr "x")] |})]
           "data"
           {| wc_method := None; wc_adapter := VFun 3 [];
              wc_params := None;
              wc_static := Some [("kind", VStr "x")] |}).
  - exact registered_wire_Ok.
  - reflexivity.
  - compute_done.
  - left.
  - reflexivity.
  - reflexivity.
Defined.

Lemma field_dataCallback_uses_global_name_witness :
  exists stored,
    wire_def_of 1 "data" (registered meta_wire) = Some stored
    /\ let delivered := dataCallback (Some window_name) 1 stored (VNum 42) rt0 in
       delivered.1 = Ok tt
       /\ cmpFields <$> (vms delivered.2 !! 1)
          = Some (<[window_name := VNum 42]> (cmpFields vm0))
       /\ trace delivered.2 = trace rt0 ++ [Mutated 1 window_name]
       /\ (descriptor_get (internalWireFieldDecorator false "data")
             1 delivered.2).1
          = Ok (default VUndefined (cmpFields vm0 !! "data")).
Proof.
  apply (field_dataCallback_uses_global_name false plainDescriptor
           plainDescriptor 1 meta_wire loaded (registered meta_wire) 1
           [("data", {| wc_method := None; wc_adapter := VFun 3 [];
                        wc_params := None;
                        wc_static := Some [("kind", VStr "x")] |})]
           "data"
           {| wc_method := None; wc_adapter := VFun 3 [];
              wc_params := None;
              wc_static := Some [("kind", VStr "x")] |}
           window_name 1 vm0 (VNum 42) rt0).
  - exact registered_wire_Ok.
  - reflexivity.
  - compute_done.
  - left.
  - discriminate.
  - reflexivity.
  - discriminate.
Defined.

(** The failing input of C2, evaluated: the wired field [data] of the
    sample component, in a browser window whose [name] is the empty string.
    Delivering 42 leaves the wired field [data] undefined; the value lands
    under the empty key and the notification is for the empty key. *)
Example field_dataCallback_data_lost :
  let def := {| method := None; adapter := VFun 3 [];
                configCallback := configExtractor None [] |} in
  let delivered := (dataCallback (Some window_name) 1 def (VNum 42) rt0).2 in
  (descriptor_get (internalWireFieldDecorator false "data") 1 delivered).1
    = Ok VUndefined
  /\ (cmpFields <$> vms delivered !! 1) = Some {[ window_name := VNum 42 ]}
  /\ trace delivered = [Mutated 1 window_name].
Proof. vm_compute. done. Qed.

Lemma getReactiveParameterValue_inverted_witness :
  getReactiveParameterValue host0 foo_bar_baz [] = (Ok VUndefined, ["foo"]).
Proof.
  apply (getReactiveParameterValue_inverted host0 foo_bar_baz
           (VObj [("bar", VObj [("baz", VNum 1)])]) []).
  - discriminate.
  - reflexivity.
Defined.

Lemma connector_batches_recompute_witness :
  let c := createConnector host0 def_foo in
  let notified := forEach ["foo"; "bar"; "foo"] notify_mutation c in
  let ran := run_microtasks (configCallback def_foo) host0 notified.2 in
  notified.1 = Ok tt
  /\ length (microtasks notified.2) <= 1
  /\ (hasPendingConfig notified.2 = true
      <-> Exists (fun k => k ∈ ro_listeners c) ["foo"; "bar"; "foo"])
  /\ (hasPendingConfig notified.2 = true ->
      microtasks notified.2 = [RecomputeConfig])
  /\ (forall more, hasPendingConfig notified.2 = true ->
        forEach more notify_mutation notified.2 = (Ok tt, notified.2))
  /\ hasPendingConfig ran.2 = false
  /\ microtasks ran.2 = []
  /\ length (updates ran.2) <= S (length (updates c)).
Proof.
  apply (connector_batches_recompute (configCallback def_foo) host0
           ["foo"; "bar"; "foo"] (createConnector host0 def_foo)).
  - reflexivity.
  - reflexivity.
Defined.

(** The sample connector, evaluated: three notifications in one task, two of
    them for the observed key [foo], queue one job; running it calls
    [update] once more. *)
Example connector_three_notifications :
  let c := createConnector host0 def_foo in
  let notified := (forEach ["foo"; "bar"; "foo"] notify_mutation c).2 in
  let ran := (run_microtasks (configCallback def_foo) host0 notified).2 in
  ro_listeners c = ["foo"]
  /\ length (updates c) = 1
  /\ hasPendingConfig notified = true
  /\ microtasks notified = [RecomputeConfig]
  /\ hasPendingConfig ran = false
  /\ microtasks ran = []
  /\ length (updates ran) = 2.
Proof. vm_compute. done. Qed.

End SampleFacts.

(** ** More on the wire-service adapter *)

Set Warnings "-clear-no-such-hyp".

Module WireServiceMore.
Import WireService WireHistory.

Lemma removeListener_absent (ls : list listener) (l : listener) :
  l ∉ ls -> removeListener ls l = ls.
Proof.
  induction ls as [|l0 ls IH]; [done|]. intros Hl.
  apply not_elem_of_cons in Hl as [Hne Hl]. simpl.
  destruct (Nat.eqb_spec l0 l) as [->|_]; [done|]. by rewrite IH.
Qed.

Lemma removeListener_added (ls : list listener) (l : listener) :
  removeListener (ls ++ [l]) l ≡ₚ ls.
Proof.
  induction ls as [|l0 ls IH]; simpl.
  - by rewrite Nat.eqb_refl.
  - destruct (Nat.eqb_spec l0 l) as [->|_].
    + symmetry. apply Permutation_cons_append.
    + by rewrite IH.
Qed.

Lemma removeListener_added_fresh (ls : list listener) (l : listener) :
  l ∉ ls -> removeListener (ls ++ [l]) l = ls.
Proof.
  induction ls as [|l0 ls IH]; simpl.
  - by rewrite Nat.eqb_refl.
  - intros Hl. apply not_elem_of_cons in Hl as [Hne Hl].
    destruct (Nat.eqb_spec l0 l) as [->|_]; [done|]. by rewrite IH.
Qed.

Lemma removeListener_present (ls : list listener) (l : listener) :
  l ∈ ls -> l :: removeListener ls l ≡ₚ ls.
Proof.
  induction ls as [|l0 ls IH]; [by intros ?%elem_of_nil|]. intros Hl. simpl.
  destruct (Nat.eqb_spec l0 l) as [->|Hne]; [done|].
  apply elem_of_cons in Hl as [->|Hl]; [done|].
  rewrite Permutation_swap. by rewrite IH.
Qed.

Lemma removeListener_first (before rest : list listener) (l : listener) :
  l ∉ before -> removeListener (before ++ l :: rest) l = before ++ rest.
Proof.
  induction before as [|l0 before IH]; intros Hl; simpl.
  - by rewrite Nat.eqb_refl.
  - apply not_elem_of_cons in Hl as [Hne Hl].
    destruct (Nat.eqb_spec l0 l) as [->|_]; [done|]. by rewrite IH.
Qed.

Lemma log_all_nil (a : WireAdapter) : log_all [] a = a.
Proof. destruct a. unfold log_all. simpl. by rewrite app_nil_r. Qed.

Lemma forEach_invoke (ls : list listener) (args : list value) (a : WireAdapter) :
  forEach ls (fun l => invoke l args) a
  = (Ok tt, log_all ((fun l => Invoke l args) <$> ls) a).
Proof.
  revert a. induction ls as [|l ls IH]; intros a.
  - simpl. by rewrite log_all_nil.
  - cbn [forEach]. unfold bind, invoke, modify at 1. rewrite IH.
    destruct a. unfold log_all, log. simpl. by rewrite <- app_assoc.
Qed.

Lemma event_types_cases (type : string) :
  type ∈ event_types ->
  type = "connect" \/ type = "disconnect" \/ type = "config".
Proof.
  unfold event_types. rewrite !elem_of_cons, elem_of_nil. tauto.
Qed.

(** X1.  Adding a listener for a valid event type and then removing it
    returns normally and leaves the registered listeners of that type the
    same up to order; if the listener was not registered before, the adapter
    is exactly as it was. *)
Theorem add_then_remove_listener (type : string) (l : listener)
    (a : WireAdapter) :
  type ∈ event_types ->
  let after := (addEventListener type l ;;; removeEventListener type l) a in
  after.1 = Ok tt
  /\ listeners_for type after.2 ≡ₚ listeners_for type a
  /\ (l ∉ listeners_for type a -> after.2 = a).
Proof.
  intros Htype. destruct a as [cb ctx cing ding cfg ctxing cs].
  apply event_types_cases in Htype as [->|[->| ->]]; cbv zeta;
    unfold addEventListener, removeEventListener, listeners_for, bind, modify;
    simpl; (split; [done|]); (split; [apply removeListener_added|]);
    intros Hl; unfold set_connecting, set_disconnecting, set_configuring;
    simpl; by rewrite removeListener_added_fresh.
Qed.

Lemma add_then_remove_listener_witness :
  (addEventListener "config" 4 ;;; removeEventListener "config" 4)
    (new_WireAdapter 7 None)
  = (Ok tt, new_WireAdapter 7 None).
Proof.
  destruct (add_then_remove_listener "config" 4 (new_WireAdapter 7 None))
    as (Hok & _ & Hsame); [compute_done|].
  rewrite <- (Hsame ltac:(compute_done)) at 2.
  by destruct ((addEventListener "config" 4 ;;; removeEventListener "config" 4)
                 (new_WireAdapter 7 None)) as [[[]|] ?].
Defined.

(** X2.  [removeEventListener] for a valid event type returns normally and
    removes exactly one registration of the listener, the oldest one: the
    listeners before it and after it keep their places.  When the listener
    is not registered the adapter is unchanged.  The listeners of the other
    types are never touched. *)
Theorem remove_listener_once (type : string) (l : listener) (a : WireAdapter) :
  type ∈ event_types ->
  let after := removeEventListener type l a in
  after.1 = Ok tt
  /\ (forall before rest,
        listeners_for type a = before ++ l :: rest -> l ∉ before ->
        listeners_for type after.2 = before ++ rest)
  /\ (l ∉ listeners_for type a -> after.2 = a)
  /\ (forall type', type' ∈ event_types -> type' ≠ type ->
        listeners_for type' after.2 = listeners_for type' a).
Proof.
  intros Htype. destruct a as [cb ctx cing ding cfg ctxing cs].
  apply event_types_cases in Htype as [->|[->| ->]]; cbv zeta;
    unfold removeEventListener, listeners_for, modify; simpl.
  all: split; [done|].
  all: split;
    [intros before rest -> Hfresh; by apply removeListener_first|].
  all: split;
    [ intros Hl; unfold set_connecting, set_disconnecting, set_configuring;
      simpl; by rewrite removeListener_absent
    | intros type' Htype' Hne;
      apply event_types_cases in Htype' as [->|[->| ->]]; done ].
Qed.

Lemma remove_listener_once_witness :
  let a := (addEventListener "connect" 4 ;;; addEventListener "connect" 5 ;;;
            addEventListener "connect" 4) (new_WireAdapter 7 None) in
  connecting (removeEventListener "connect" 4 a.2).2 = [5; 4].
Proof.
  cbv zeta.
  apply (proj1 (proj2 (remove_listener_once "connect" 4
                         ((addEventListener "connect" 4 ;;;
                           addEventListener "connect" 5 ;;;
                           addEventListener "connect" 4)
                            (new_WireAdapter 7 None)).2
                         ltac:(compute_done))) [] [5; 4]).
  - reflexivity.
  - compute_done.
Defined.

(** X3.  [addEventListener] and [removeEventListener] accept exactly the
    event types connect, disconnect and config: for any other type they
    throw the invalid-event-type error naming the type and leave the adapter
    unchanged. *)
Theorem event_type_checked (type : string) (l : listener) (a : WireAdapter) :
  ((addEventListener type l a).1 = Ok tt <-> type ∈ event_types)
  /\ ((removeEventListener type l a).1 = Ok tt <-> type ∈ event_types)
  /\ (type ∉ event_types ->
      addEventListener type l a
        = (Throw (Error ("Invalid event type " +:+ type +:+ ".")), a)
      /\ removeEventListener type l a
        = (Throw (Error ("Invalid event type " +:+ type +:+ ".")), a)).
Proof.
  unfold addEventListener, removeEventListener, event_types.
  rewrite !elem_of_cons, elem_of_nil.
  destruct (String.eqb_spec type "connect") as [->|H1];
    [simpl; naive_solver|].
  destruct (String.eqb_spec type "disconnect") as [->|H2];
    [simpl; naive_solver|].
  destruct (String.eqb_spec type "config") as [->|H3];
    [simpl; naive_solver|].
  unfold throw. simpl. naive_solver.
Qed.

Lemma event_type_checked_witness :
  addEventListener "data" 4 (new_WireAdapter 7 None)
  = (Throw (Error "Invalid event type data."), new_WireAdapter 7 None).
Proof.
  apply (event_type_checked "data" 4 (new_WireAdapter 7 None)).
  compute_done.
Defined.

Lemma event_methods_run (config : value) (a : WireAdapter) :
  update config a
    = (Ok tt, log_all ((fun l => Invoke l [config]) <$> configuring a) a)
  /\ connect a = (Ok tt, log_all ((fun l => Invoke l []) <$> connecting a) a)
  /\ disconnect a
     = (Ok tt, log_all ((fun l => Invoke l []) <$> disconnecting a) a).
Proof.
  unfold update, connect, disconnect, bind, gets.
  by rewrite !forEach_invoke.
Qed.


Lemma context_run (uid : string) (v : value) (a : WireAdapter) :
  context uid v a
  = (Ok tt, log_all ((fun l => Invoke l [v]) <$> listeners_of uid a) a).
Proof.
  unfold context, listeners_of, bind, gets.
  destruct (contexting a !! uid) as [[ls|f|n]|];
    rewrite ?forEach_invoke; unfold ret; simpl; by rewrite ?log_all_nil.
Qed.

Lemma run_op_fixed (o : op) (a : WireAdapter) :
  callback (run_op o a) = callback a
  /\ contextualizer (run_op o a) = contextualizer a
  /\ (contextualizer a = None -> contexting (run_op o a) = contexting a).
Proof.
  destruct o as [type l|type l|evt|config|uid v| |]; simpl.
  - unfold addEventListener.
    by repeat (destruct (String.eqb _ _); [done|]).
  - unfold removeEventListener.
    by repeat (destruct (String.eqb _ _); [done|]).
  - destruct evt as [v|uid cb|type]; unfold dispatchEvent, bind, gets; simpl;
      [done| |done].
    destruct (contextualizer a) as [c|] eqn:Hc; simpl; [|done].
    by destruct (contexting a !! uid).
  - destruct (event_methods_run config a) as (-> & _). done.
  - by rewrite context_run.
  - destruct (event_methods_run VUndefined a) as (_ & -> & _). done.
  - destruct (event_methods_run VUndefined a) as (_ & _ & ->). done.
Qed.

Lemma run_ops_fixed (os : list op) (a : WireAdapter) :
  callback (run_ops os a) = callback a
  /\ contextualizer (run_ops os a) = contextualizer a
  /\ (contextualizer a = None -> contexting (run_ops os a) = contexting a).
Proof.
  revert a. induction os as [|o os IH]; intros a; [done|].
  unfold run_ops in *. simpl.
  destruct (IH (run_op o a)) as (Hcb & Hctx & Hing).
  destruct (run_op_fixed o a) as (Hcb1 & Hctx1 & Hing1).
  rewrite Hcb, Hctx, Hcb1, Hctx1. repeat split.
  intros Hnone. rewrite Hing by congruence. auto.
Qed.

(** X5.  An adapter constructed without a contextualizer never registers a
    context listener: after any history of uses its [contexting] object is
    still empty, every context-link event is dropped with the result
    [false], and [context(uid, value)] calls nothing. *)
Theorem no_contextualizer_no_context (cb : listener) (os : list op)
    (uid : string) (linked : listener) (v : value) :
  let a := run_ops os (new_WireAdapter cb None) in
  contexting a = ∅
  /\ dispatchEvent (LinkContextEvent uid linked) a = (Ok false, a)
  /\ context uid v a = (Ok tt, a).
Proof.
  cbv zeta.
  destruct (run_ops_fixed os (new_WireAdapter cb None)) as (_ & Hctx & Hing).
  specialize (Hing eq_refl). simpl in *.
  split; [done|]. split.
  - unfold dispatchEvent, bind, gets. by rewrite Hctx.
  - rewrite context_run. unfold listeners_of. rewrite Hing, lookup_empty.
    simpl. by rewrite log_all_nil.
Qed.




End WireServiceMore.

(** ** Keeping a state predicate *)

Section KeepsFacts.
Context {S : Type} (P : S -> Prop).

Lemma keeps_ret {A} (a : A) : keeps P (ret a).
Proof. by intros s. Qed.

Lemma keeps_throw {A} (e : error) : keeps P (@throw S A e).
Proof. by intros s. Qed.

Lemma keeps_gets {A} (g : S -> A) : keeps P (gets g).
Proof. by intros s. Qed.

Lemma keeps_modify (g : S -> S) : (forall s, P s -> P (g s)) -> keeps P (modify g).
Proof. intros Hg s. apply Hg. Qed.

Lemma keeps_bind {A C} (m : M S A) (k : A -> M S C) :
  keeps P m -> (forall a, keeps P (k a)) -> keeps P (bind m k).
Proof.
  intros Hm Hk s Hs. unfold bind. specialize (Hm s Hs).
  destruct (m s) as [[a|e] s']; simpl in *; [|done].
  by apply Hk.
Qed.

Lemma keeps_when (b : bool) (m : M S unit) : keeps P m -> keeps P (when b m).
Proof. destruct b; [done|]. intros _. apply keeps_ret. Qed.

Lemma keeps_forEach {A} (l : list A) (body : A -> M S unit) :
  (forall x, x ∈ l -> keeps P (body x)) -> keeps P (forEach l body).
Proof.
  induction l as [|x l IH]; intros Hbody; simpl.
  - apply keeps_ret.
  - apply keeps_bind; [apply Hbody, elem_of_cons; by left|].
    intros _. apply IH. intros y Hy. apply Hbody, elem_of_cons. by right.
Qed.

Lemma keeps_foldM {A C} (g : C -> A -> M S C) (l : list A) (c : C) :
  (forall c x, x ∈ l -> keeps P (g c x)) -> keeps P (Engine.foldM g l c).
Proof.
  revert c. induction l as [|x l IH]; intros c Hg; simpl.
  - apply keeps_ret.
  - apply keeps_bind; [apply Hg, elem_of_cons; by left|].
    intros c'. apply IH. intros c'' y Hy. apply Hg, elem_of_cons. by right.
Qed.

Lemma keeps_ifDefined {A C} (section : option A) (absent : C)
    (block : A -> M S C) :
  (forall x, section = Some x -> keeps P (block x)) ->
  keeps P (Engine.ifDefined section absent block).
Proof.
  destruct section as [x|]; simpl; [auto|]. intros _. apply keeps_ret.
Qed.

End KeepsFacts.

(** Running a [bind] whose first step returns. *)
Lemma bind_run {S A C} (m : M S A) (k : A -> M S C) (s s1 : S) (a : A) :
  m s = (Ok a, s1) -> bind m k s = k a s1.
Proof. intros Hm. unfold bind. by rewrite Hm. Qed.

Lemma bind_run_Throw {S A C} (m : M S A) (k : A -> M S C) (s s1 : S)
    (e : error) :
  m s = (Throw e, s1) -> bind m k s = (Throw e, s1).
Proof. intros Hm. unfold bind. by rewrite Hm. Qed.

(** What is read through an observation that [m] preserves is kept. *)
Lemma preserves_keeps {S A B} (f : S -> B) (Q : B -> Prop) (m : M S A) :
  preserves f m -> keeps (fun s => Q (f s)) m.
Proof. intros Hm s Hs. by rewrite Hm. Qed.

(** A loop throws when one of its iterations throws from every state that
    satisfies [P], and the other iterations keep [P]. *)
Lemma foldM_throws {S E C} (P : S -> Prop) (body : C -> E -> M S C) (e0 : E) :
  (forall c s, P s -> exists err s', body c e0 s = (Throw err, s')) ->
  forall l,
    e0 ∈ l ->
    (forall c e, e ∈ l -> e = e0 \/ keeps P (body c e)) ->
    forall c s, P s ->
      exists err s', Engine.foldM body l c s = (Throw err, s').
Proof.
  intros Hthrows l. induction l as [|e l IH]; intros Hin Hothers c s Hs.
  - by apply elem_of_nil in Hin.
  - simpl. unfold bind.
    assert (Hhere : e = e0 ->
              exists err s', body c e s = (Throw err, s')).
    { intros ->. by apply Hthrows. }
    destruct (Hothers c e) as [Heq|Hkeep]; [apply elem_of_cons; by left| |].
    { destruct (Hhere Heq) as (err & s' & ->). eauto. }
    apply elem_of_cons in Hin as [<-|Hin].
    { destruct (Hhere eq_refl) as (err & s' & ->). eauto. }
    specialize (Hkeep s Hs).
    destruct (body c e s) as [[c'|err] s1]; [|eauto].
    apply IH; [done| |done].
    intros c'' e' He'. apply Hothers, elem_of_cons. by right.
Qed.

Lemma forEach_throws {S E} (P : S -> Prop) (body : E -> M S unit) (e0 : E) :
  (forall s, P s -> exists err s', body e0 s = (Throw err, s')) ->
  forall l,
    e0 ∈ l ->
    (forall e, e ∈ l -> e = e0 \/ keeps P (body e)) ->
    forall s, P s -> exists err s', forEach l body s = (Throw err, s').
Proof.
  intros Hthrows l. induction l as [|e l IH]; intros Hin Hothers s Hs.
  - by apply elem_of_nil in Hin.
  - simpl. unfold bind.
    assert (Hhere : e = e0 -> exists err s', body e s = (Throw err, s')).
    { intros ->. by apply Hthrows. }
    destruct (Hothers e) as [Heq|Hkeep]; [apply elem_of_cons; by left| |].
    { destruct (Hhere Heq) as (err & s' & ->). eauto. }
    apply elem_of_cons in Hin as [<-|Hin].
    { destruct (Hhere eq_refl) as (err & s' & ->). eauto. }
    specialize (Hkeep s Hs).
    destruct (body e s) as [[[]|err] s1]; [|eauto].
    apply IH; [done| |done].
    intros e' He'. apply Hothers, elem_of_cons. by right.
Qed.

(** ** More on the engine *)

Module EngineMore.
Import Engine EngineTerms EngineFacts.

(** *** Parsing references *)

Lemma StringJoin_String (c : ascii) (first : string) (others : list string) :
  StringJoin (String c first) others = String c (StringJoin first others).
Proof. by destruct others. Qed.

Lemma StringSplit_dot_free (reference : string) :
  has_dot reference = false -> StringSplit reference = (reference, []).
Proof.
  induction reference as [|c rest IH]; [done|]. simpl.
  destruct (Ascii.eqb c ".") eqn:Hc; [done|]. simpl. intros Hrest.
  by rewrite (IH Hrest).
Qed.

Lemma StringJoin_StringSplit (reference : string) :
  StringJoin (StringSplit reference).1 (StringSplit reference).2 = reference.
Proof.
  induction reference as [|c rest IH]; [done|]. simpl.
  destruct (StringSplit rest) as [first others]. simpl in IH.
  destruct (Ascii.eqb_spec c ".") as [->|_]; simpl.
  - by rewrite IH.
  - by rewrite StringJoin_String, IH.
Qed.

(** X8.  Splitting a reference at its dots loses nothing: joining the head
    and the tail segments with dots gives the reference back, no segment
    contains a dot, and a reference without a dot is its own head with an
    empty tail. *)
Theorem StringSplit_join (reference : string) :
  StringJoin (StringSplit reference).1 (StringSplit reference).2 = reference
  /\ has_dot (StringSplit reference).1 = false
  /\ Forall (fun segment => has_dot segment = false) (StringSplit reference).2
  /\ (has_dot reference = false -> StringSplit reference = (reference, [])).
Proof.
  split; [|split; [|split; [|apply StringSplit_dot_free]]].
  - apply StringJoin_StringSplit.
  - induction reference as [|c rest IH]; [done|]. simpl.
    destruct (StringSplit rest) as [first others]. simpl in IH.
    destruct (Ascii.eqb c ".") eqn:Hc; simpl; [done|]. by rewrite Hc.
  - induction reference as [|c rest IH]; [by constructor|]. simpl.
    assert (Hfirst : has_dot (StringSplit rest).1 = false).
    { clear. induction rest as [|c rest IH]; [done|]. simpl.
      destruct (StringSplit rest) as [first others]. simpl in IH.
      destruct (Ascii.eqb c ".") eqn:Hc; simpl; [done|]. by rewrite Hc. }
    destruct (StringSplit rest) as [first others]. simpl in *.
    destruct (Ascii.eqb c "."); simpl; [by constructor|done].
Qed.

(** *** The cache of reactive parameters *)

Lemma buildReactiveParameter_run (reference : string) (r : Registry) :
  cache_ok r ->
  buildReactiveParameter reference r
  = (Ok (parseReference reference),
     match refCache r !! reference with
     | Some _ => r
     | None => set_refCache (<[reference := parseReference reference]>) r
     end).
Proof.
  intros Hok. unfold buildReactiveParameter, bind, gets.
  destruct (refCache r !! reference) as [rp|] eqn:Hrp.
  - by rewrite (Hok _ _ Hrp).
  - unfold parseReference. by destruct (StringSplit reference).
Qed.

Lemma buildReactiveParameter_keeps (reference : string) :
  keeps cache_ok (buildReactiveParameter reference).
Proof.
  intros r Hok. rewrite buildReactiveParameter_run by done. simpl.
  destruct (refCache r !! reference) as [rp|] eqn:Hrp; [done|].
  intros k rp'. simpl.
  destruct (decide (reference = k)) as [->|Hne].
  - rewrite lookup_insert_eq. by intros [= <-].
  - rewrite lookup_insert_ne by done. apply Hok.
Qed.

(** X9.  [buildReactiveParameter] memoises without ever changing an entry:
    in a state whose cache entries are the parameters built from their keys,
    it returns the parameter built from the reference, the entry of the
    reference is afterwards that parameter, all other entries and the rest
    of the state are as before, and a second call returns the same
    parameter and changes nothing. *)
Theorem buildReactiveParameter_cached (reference : string) (r : Registry) :
  cache_ok r ->
  let first := buildReactiveParameter reference r in
  first.1 = Ok (parseReference reference)
  /\ cache_ok first.2
  /\ refCache first.2 !! reference = Some (parseReference reference)
  /\ (forall k, k ≠ reference -> refCache first.2 !! k = refCache r !! k)
  /\ prototypes first.2 = prototypes r
  /\ signedDecoratorToMetaMap first.2 = signedDecoratorToMetaMap r
  /\ WireMetaMap first.2 = WireMetaMap r
  /\ buildReactiveParameter reference first.2
     = (Ok (parseReference reference), first.2).
Proof.
  intros Hok. cbv zeta.
  pose proof (buildReactiveParameter_keeps reference r Hok) as Hok1.
  rewrite (buildReactiveParameter_run reference
             (buildReactiveParameter reference r).2 Hok1).
  rewrite buildReactiveParameter_run in * by done. cbn [fst snd] in *.
  destruct (refCache r !! reference) as [rp|] eqn:Hrp.
  - pose proof (Hok _ _ Hrp) as ->. rewrite Hrp. by repeat split.
  - simpl. rewrite lookup_insert_eq. repeat split; try done.
    intros k Hne. by rewrite lookup_insert_ne.
Qed.

Lemma buildReactiveParameter_cached_witness :
  buildReactiveParameter "foo.bar" Sample.loaded
  = (Ok {| reference := "foo.bar"; head := "foo"; tail := ["bar"] |},
     set_refCache
       (<["foo.bar" := {| reference := "foo.bar"; head := "foo";
                          tail := ["bar"] |}]>) Sample.loaded)
  /\ (buildReactiveParameter "foo.bar"
        (buildReactiveParameter "foo.bar" Sample.loaded).2).2
     = (buildReactiveParameter "foo.bar" Sample.loaded).2.
Proof.
  destruct (buildReactiveParameter_cached "foo.bar" Sample.loaded)
    as (_ & _ & _ & _ & _ & _ & _ & Hagain); [by intros k rp|].
  split; [reflexivity|]. cbv zeta in Hagain. by rewrite Hagain.
Defined.

(** *** The config extractor with dynamic params *)

Lemma assoc_set_fresh {A} (k : string) (a : A) (l : list (string * A)) :
  k ∉ l.*1 -> assoc_set k a l = l ++ [(k, a)].
Proof.
  induction l as [|[k' a'] l IH]; [done|]. simpl. intros Hk.
  apply not_elem_of_cons in Hk as [Hne Hk].
  destruct (String.eqb_spec k k') as [->|_]; [done|]. by rewrite IH.
Qed.

Lemma assoc_fmap_snd {A B} (f : A -> B) (k : string) (l : list (string * A)) :
  assoc k ((fun kv => (kv.1, f kv.2)) <$> l) = f <$> assoc k l.
Proof.
  induction l as [|[k' a'] l IH]; [done|]. simpl.
  by destruct (String.eqb k k').
Qed.

Lemma assoc_None {A} (k : string) (l : list (string * A)) :
  k ∉ l.*1 -> assoc k l = None.
Proof.
  induction l as [|[k' a'] l IH]; [done|]. simpl. intros Hk.
  apply not_elem_of_cons in Hk as [Hne Hk].
  destruct (String.eqb_spec k k') as [->|_]; [done|]. by apply IH.
Qed.

Lemma assoc_assign1 (target source : list (string * value)) (k : string) :
  NoDup source.*1 ->
  assoc k (assign1 target source)
  = match assoc k source with
    | Some v => Some v
    | None => assoc k target
    end.
Proof.
  unfold assign1. revert target.
  induction source as [|[k0 v0] source IH]; intros target Hnd; [done|].
  rewrite fmap_cons in Hnd. apply NoDup_cons in Hnd as [Hfresh Hnd].
  simpl in *. rewrite IH by done.
  destruct (String.eqb_spec k k0) as [->|Hne].
  - by rewrite (assoc_None k0 source Hfresh), assoc_assoc_set_eq.
  - by rewrite assoc_assoc_set_ne.
Qed.

Lemma buildReactiveParamsConfig_loop (dyn : list (string * string))
    (record : list (string * ReactiveParameter)) (r : Registry) :
  cache_ok r ->
  NoDup dyn.*1 ->
  (forall k, k ∈ dyn.*1 -> k ∉ record.*1) ->
  exists r',
    foldM (fun record kv =>
             rp <- buildReactiveParameter kv.2 ;;
             ret (assoc_set kv.1 rp record)) dyn record r
    = (Ok (record ++ ((fun kv => (kv.1, parseReference kv.2)) <$> dyn)), r')
    /\ cache_ok r'.
Proof.
  revert record r.
  induction dyn as [|[k ref] dyn IH]; intros record r Hok Hnd Hfresh.
  - exists r. simpl. by rewrite app_nil_r.
  - rewrite fmap_cons in Hnd. apply NoDup_cons in Hnd as [Hk Hnd].
    pose proof (buildReactiveParameter_keeps ref r Hok) as Hok1.
    pose proof (buildReactiveParameter_run ref r Hok) as Hstep.
    destruct (buildReactiveParameter ref r) as [res r1] eqn:Hb.
    simpl in Hok1. apply (f_equal fst) in Hstep. simpl in Hstep. subst res.
    destruct (IH (record ++ [(k, parseReference ref)]) r1 Hok1 Hnd)
      as (r' & Hrun & Hok').
    { intros k' Hk'. rewrite fmap_app. apply not_elem_of_app. split.
      - apply Hfresh. rewrite fmap_cons. by right.
      - simpl. intros Heq%list_elem_of_singleton. by subst. }
    exists r'. split; [|done].
    cbn [foldM].
    rewrite (bind_run _ _ r r1 (record ++ [(k, parseReference ref)])).
    + rewrite Hrun. by rewrite <- app_assoc.
    + rewrite (bind_run _ _ _ _ _ Hb). cbn [fst snd]. unfold ret.
      by rewrite assoc_set_fresh
        by (apply Hfresh; rewrite fmap_cons; by left).
Qed.

Lemma getReactiveParameterValue_plain (host : value) (reference : string)
    (reads : list string) :
  has_dot reference = false ->
  is_object host = true ->
  getReactiveParameterValue host (parseReference reference) reads
  = (Ok (member host reference), reads ++ [reference]).
Proof.
  intros Hdot Hobj.
  unfold getReactiveParameterValue, parseReference, host_read, member,
    bind, modify, ret.
  rewrite (StringSplit_dot_free _ Hdot). simpl.
  by destruct host.
Qed.

Lemma computeReactiveParams_loop (host : value) (dyn : list (string * string))
    (acc : list (string * value)) (reads : list string) :
  is_object host = true ->
  Forall (fun kv => has_dot kv.2 = false) dyn ->
  NoDup dyn.*1 ->
  (forall k, k ∈ dyn.*1 -> k ∉ acc.*1) ->
  foldM (fun acc kc =>
           v <- getReactiveParameterValue host kc.2 ;;
           ret (assoc_set kc.1 v acc))
        ((fun kv => (kv.1, parseReference kv.2)) <$> dyn) acc reads
  = (Ok (acc ++ ((fun kv => (kv.1, member host kv.2)) <$> dyn)),
     reads ++ dyn.*2).
Proof.
  intros Hobj. revert acc reads.
  induction dyn as [|[k ref] dyn IH]; intros acc reads Hplain Hnd Hfresh.
  - simpl. by rewrite !app_nil_r.
  - rewrite fmap_cons in Hnd. apply NoDup_cons in Hnd as [Hk Hnd].
    apply Forall_cons in Hplain as [Hdot Hplain].
    rewrite fmap_cons. cbn [foldM fst snd].
    rewrite (bind_run _ _ reads (reads ++ [ref])
               (acc ++ [(k, member host ref)])).
    + rewrite IH; [|done|done|].
      * simpl. by rewrite <- !app_assoc.
      * intros k' Hk'. rewrite fmap_app. apply not_elem_of_app. split.
        -- apply Hfresh. rewrite fmap_cons. by right.
        -- simpl. intros Heq%list_elem_of_singleton. by subst.
    + rewrite (bind_run _ _ _ _ _
                 (getReactiveParameterValue_plain host ref reads Hdot Hobj)).
      unfold ret.
      by rewrite assoc_set_fresh
        by (apply Hfresh; rewrite fmap_cons; by left).
Qed.

(** X11.  The extractor built for static config and dynamic params that are
    plain property names (no dot): applied to a host object it returns an
    object in which every dynamic key holds the host's value of its
    property and every other key holds its static value, so dynamic params
    override static config of the same name; it reads exactly the
    properties named by the dynamic params, each once, in declaration
    order. *)
Theorem extractor_merges_static_and_dynamic
    (cfgStatic : option (list (string * value)))
    (dyn : list (string * string)) (r : Registry)
    (host : value) (reads : list string) :
  cache_ok r ->
  NoDup (default [] cfgStatic).*1 ->
  NoDup dyn.*1 ->
  Forall (fun kv => has_dot kv.2 = false) dyn ->
  is_object host = true ->
  exists extractor r' props,
    buildConfigExtractor cfgStatic (Some dyn) r = (Ok extractor, r')
    /\ extractor host reads = (Ok (VObj props), reads ++ dyn.*2)
    /\ forall k,
         assoc k props
         = match assoc k dyn with
           | Some property => Some (member host property)
           | None => assoc k (default [] cfgStatic)
           end.
Proof.
  intros Hok Hstatic Hnd Hplain Hobj.
  destruct (buildReactiveParamsConfig_loop dyn [] r Hok Hnd)
    as (r' & Hrun & _); [by intros k _ ?%elem_of_nil|].
  eexists _, r', _. split; [|split].
  - unfold buildConfigExtractor.
    rewrite (bind_run _ _ _ _ _ (Hrun : buildReactiveParamsConfig dyn r = _)).
    reflexivity.
  - unfold configExtractor.
    rewrite (bind_run _ _ _ _ _
               (computeReactiveParams_loop host dyn [] reads Hobj Hplain Hnd
                  ltac:(by intros k _ ?%elem_of_nil)
                : computeReactiveParams host _ reads = _)).
    reflexivity.
  - intros k. simpl. rewrite assoc_assign1.
    + rewrite (assoc_fmap_snd (member host) k dyn).
      destruct (assoc k dyn); simpl; [done|].
      rewrite assoc_assign1 by done.
      by destruct (assoc k (default [] cfgStatic)).
    + rewrite <- list_fmap_compose. exact Hnd.
Qed.

Lemma extractor_merges_static_and_dynamic_witness :
  exists extractor r' props,
    buildConfigExtractor (Some [("kind", VStr "x"); ("id", VNum 0)])
      (Some [("id", "recordId")]) Sample.loaded = (Ok extractor, r')
    /\ extractor (VObj [("recordId", VNum 7)]) []
       = (Ok (VObj props), [] ++ ["recordId"])
    /\ assoc "id" props = Some (VNum 7)
    /\ assoc "kind" props = Some (VStr "x").
Proof.
  destruct (extractor_merges_static_and_dynamic
              (Some [("kind", VStr "x"); ("id", VNum 0)])
              [("id", "recordId")] Sample.loaded
              (VObj [("recordId", VNum 7)]) [])
    as (extractor & r' & props & Hbuild & Hrun & Hprops).
  - by intros k rp.
  - compute_done.
  - compute_done.
  - by repeat constructor.
  - reflexivity.
  - exists extractor, r', props. split; [exact Hbuild|]. split; [exact Hrun|].
    split; [exact (Hprops "id")|exact (Hprops "kind")].
Defined.

Create HintDb registry_keeps discriminated.
#[local] Hint Unfold registerDecorators registerPublicProps
  registerPublicMethods registerWire registerTrack registerFields
  validateObservedField validateFieldDecoratedWithTrack
  validateFieldDecoratedWithWire validateMethodDecoratedWithWire
  validateFieldDecoratedWithApi validateAccessorDecoratedWithApi
  validateMethodDecoratedWithApi createPublicAccessorDescriptor
  storeWiredMethodMeta storeWiredFieldMeta callable_adapter proto_get
  getOwnPropertyDescriptor buildConfigExtractor buildReactiveParamsConfig
  setDecoratorsMeta defineProperty storeDef assert_fail : registry_keeps.

(** One syntax-directed step of a [keeps] proof. *)
Ltac keep_step :=
  cbv beta;
  lazymatch goal with
  | |- keeps _ (ret _) => apply keeps_ret
  | |- keeps _ (throw _) => apply keeps_throw
  | |- keeps _ (gets _) => apply keeps_gets
  | |- keeps _ (bind _ _) => apply keeps_bind; [|intros ?]
  | |- keeps _ (when _ _) => apply keeps_when
  | |- keeps _ (forEach _ _) => apply keeps_forEach; intros ? ?
  | |- keeps _ (foldM _ _ _) => apply keeps_foldM; intros ? ? ?
  | |- keeps _ (ifDefined _ _ _) => apply keeps_ifDefined; intros ? ?
  | |- keeps _ (assert_isTrue ?b _) =>
      destruct b; [apply keeps_ret | apply keeps_throw]
  | |- keeps _ (match ?x with _ => _ end) => destruct x eqn:?
  | |- keeps _ ((match ?x with _ => _ end) _) => destruct x eqn:?
  | |- keeps _ _ => progress autounfold with registry_keeps
  end.

Ltac keep_with leaf := repeat first [ leaf | keep_step ].

Lemma foldM_result {S A C} (g : C -> A -> C) (body : C -> A -> M S C) :
  (forall c x s c' s', body c x s = (Ok c', s') -> c' = g c x) ->
  forall l c s c' s',
    foldM body l c s = (Ok c', s') -> c' = fold_left g l c.
Proof.
  intros Hbody l. induction l as [|x l IH]; intros c s c' s' Hrun; simpl in *.
  - unfold ret in Hrun. by inversion Hrun.
  - apply bind_Ok in Hrun as (c1 & s1 & Hstep & Hrest).
    rewrite <- (Hbody _ _ _ _ _ Hstep). by eapply IH.
Qed.

Lemma fold_left_keys {A} (l : list (string * A)) (acc : list string) :
  fold_left (fun acc e => acc ++ [e.1]) l acc = acc ++ l.*1.
Proof.
  revert acc. induction l as [|e l IH]; intros acc; simpl.
  - by rewrite app_nil_r.
  - by rewrite IH, <- app_assoc.
Qed.

Lemma fold_left_names (l : list string) (acc : list string) :
  fold_left (fun acc e => acc ++ [e]) l acc = acc ++ l.
Proof.
  revert acc. induction l as [|e l IH]; intros acc; simpl.
  - by rewrite app_nil_r.
  - by rewrite IH, <- app_assoc.
Qed.

Lemma fold_left_wired (l : list (string * WireCompilerDef))
    (wiredMethods wiredFields : list string) :
  fold_left (fun acc e =>
               if bool_decide (wc_method e.2 = Some 1%Z)
               then (acc.1 ++ [e.1], acc.2) else (acc.1, acc.2 ++ [e.1]))
    l (wiredMethods, wiredFields)
  = (wiredMethods ++ wire_method_keys l, wiredFields ++ wire_field_keys l).
Proof.
  revert wiredMethods wiredFields.
  induction l as [|[k d] l IH]; intros wiredMethods wiredFields; simpl.
  - by rewrite !app_nil_r.
  - unfold wire_method_keys, wire_field_keys. rewrite !filter_cons. simpl.
    destruct (decide (wc_method d = Some 1%Z)) as [Hm|Hm].
    + rewrite (bool_decide_eq_true_2 _ Hm), IH.
      rewrite decide_False by tauto. simpl. by rewrite <- app_assoc.
    + rewrite (bool_decide_eq_false_2 _ Hm), IH.
      rewrite decide_True by done. simpl. by rewrite <- app_assoc.
Qed.

Ltac split_runs :=
  repeat match goal with
    | H : bind _ _ _ = (Ok _, _) |- _ =>
        let a := fresh "a" in
        let s := fresh "s" in
        let H1 := fresh "Hstep" in
        apply bind_Ok in H as (a & s & H1 & H)
    | H : ret _ _ = (Ok _, _) |- _ =>
        unfold ret in H; inversion H; subst; clear H
    end.

Section Registered.
Variable production : bool.
Variable internalTrackDecorator : string -> PropertyDescriptor.
Variable createObservedFieldPropertyDescriptor : string -> PropertyDescriptor.

Abbreviation registerDecorators' :=
  (registerDecorators production internalTrackDecorator
     createObservedFieldPropertyDescriptor).
Abbreviation registrations' :=
  (registrations production internalTrackDecorator
     createObservedFieldPropertyDescriptor).

Lemma registerDecorators_keeps_cache Ctor meta :
  keeps cache_ok (registerDecorators' Ctor meta).
Proof.
  keep_with
    ltac:(first [ apply buildReactiveParameter_keeps
                | by apply keeps_modify ]).
Qed.

(** X10.  The cache of reactive parameters is never invalidated: starting
    from an empty cache, after any sequence of registrations (returning or
    throwing) every cached entry is the parameter built from its key, with
    the key as reference and the segments of the key as head and tail. *)
Theorem refCache_consistent
    (calls : list (ComponentConstructor * RegisterDecoratorMeta))
    (r0 : Registry) (k : string) (rp : ReactiveParameter) :
  refCache r0 = ∅ ->
  refCache (registrations' calls r0) !! k = Some rp ->
  reference rp = k
  /\ StringJoin (head rp) (tail rp) = k
  /\ (head rp, tail rp) = StringSplit k.
Proof.
  intros Hempty.
  assert (Hok : cache_ok (registrations' calls r0)).
  { assert (H0 : cache_ok r0).
    { intros k' rp'. by rewrite Hempty, lookup_empty. }
    clear Hempty. revert r0 H0.
    induction calls as [|[Ctor meta] calls IH]; intros r0 H0; [done|].
    simpl. apply IH. by apply registerDecorators_keeps_cache. }
  intros Hk. rewrite (Hok _ _ Hk). simpl.
  split; [done|]. split; [apply StringJoin_StringSplit|].
  by destruct (StringSplit k).
Qed.

(** *** The record of a successful registration *)

Lemma registerPublicProps_result Ctor publicProps r apiFields r' :
  registerPublicProps production Ctor publicProps r = (Ok apiFields, r') ->
  apiFields = publicProps.*1.
Proof.
  intros Hrun. unfold registerPublicProps in Hrun.
  apply (foldM_result (fun acc e => acc ++ [e.1])) in Hrun.
  - by rewrite Hrun, fold_left_keys.
  - intros c [k cfg] s c' s' Hbody. by split_runs.
Qed.

Lemma registerPublicMethods_result Ctor publicMethods r apiMethods r' :
  registerPublicMethods production Ctor publicMethods r = (Ok apiMethods, r') ->
  apiMethods = publicMethods.
Proof.
  intros Hrun. unfold registerPublicMethods in Hrun.
  apply (foldM_result (fun acc e => acc ++ [e])) in Hrun.
  - by rewrite Hrun, fold_left_names.
  - intros c k s c' s' Hbody. by split_runs.
Qed.

Lemma registerWire_result Ctor wire r wired r' :
  registerWire production Ctor wire r = (Ok wired, r') ->
  wired = (wire_method_keys wire, wire_field_keys wire).
Proof.
  intros Hrun. unfold registerWire in Hrun.
  apply (foldM_result
           (fun acc e =>
              if bool_decide (wc_method e.2 = Some 1%Z)
              then (acc.1 ++ [e.1], acc.2) else (acc.1, acc.2 ++ [e.1])))
    in Hrun.
  - by rewrite Hrun, fold_left_wired.
  - intros [wiredMethods wiredFields] [k d] s c' s' Hbody. simpl in *.
    apply bind_Ok in Hbody as (cb & s0 & _ & Hbody).
    destruct (bool_decide (wc_method d = Some 1%Z)); by split_runs.
Qed.

Lemma registerDecorators_record Ctor meta r c r' :
  registerDecorators' Ctor meta r = (Ok c, r') ->
  c = Ctor /\ signedDecoratorToMetaMap r' !! Ctor = Some (meta_of meta).
Proof.
  intros Hrun.
  apply registerDecorators_Ok in Hrun
    as (apiFields & apiMethods & wired & r1 & r2 & r3 & r4 & r5
        & H1 & H2 & H3 & H4 & H5 & -> & ->).
  split; [done|]. simpl.
  rewrite lookup_insert_eq. unfold meta_of. f_equal.
  assert (apiMethods = default [] (publicMethods meta)) as ->.
  { destruct (publicMethods meta) as [ms|]; simpl in *.
    - by eapply registerPublicMethods_result.
    - unfold ret in H2. by inversion H2. }
  assert (apiFields = (default [] (publicProps meta)).*1) as ->.
  { destruct (publicProps meta) as [pp|]; simpl in *.
    - by eapply registerPublicProps_result.
    - unfold ret in H1. by inversion H1. }
  assert (wired = (wire_method_keys (default [] (wire meta)),
                   wire_field_keys (default [] (wire meta)))) as ->.
  { destruct (wire meta) as [w|]; simpl in *.
    - by eapply registerWire_result.
    - unfold ret in H3. by inversion H3. }
  done.
Qed.

(** X12.  After a successful registration of a class, [getDecoratorsMeta]
    returns for it the record read off the metadata: the public methods as
    listed, the keys of the public props in declaration order, the keys of
    the wire declarations with the method flag, and the keys of the other
    wire declarations. *)
Theorem getDecoratorsMeta_registered Ctor meta r c r' :
  registerDecorators' Ctor meta r = (Ok c, r') ->
  c = Ctor
  /\ getDecoratorsMeta Ctor r' = (Ok (meta_of meta), r').
Proof.
  intros Hrun. destruct (registerDecorators_record _ _ _ _ _ Hrun) as [-> Hrec].
  split; [done|].
  unfold getDecoratorsMeta, bind, gets, ret. simpl. by rewrite Hrec.
Qed.

(** *** A registration that throws *)

#[local] Hint Unfold registerPublicProps
  registerPublicMethods registerWire registerTrack registerFields
  validateObservedField validateFieldDecoratedWithTrack
  validateFieldDecoratedWithWire validateMethodDecoratedWithWire
  validateFieldDecoratedWithApi validateAccessorDecoratedWithApi
  validateMethodDecoratedWithApi createPublicAccessorDescriptor
  storeWiredMethodMeta storeWiredFieldMeta callable_adapter proto_get
  getOwnPropertyDescriptor buildConfigExtractor buildReactiveParamsConfig
  buildReactiveParameter assert_fail : registry.

Lemma blocks_preserve_registry Ctor meta :
  preserves signedDecoratorToMetaMap
    (ifDefined (publicProps meta) [] (registerPublicProps production Ctor))
  /\ preserves signedDecoratorToMetaMap
       (ifDefined (publicMethods meta) []
          (registerPublicMethods production Ctor))
  /\ preserves signedDecoratorToMetaMap
       (ifDefined (wire meta) ([], []) (registerWire production Ctor))
  /\ preserves signedDecoratorToMetaMap
       (ifDefined (track meta) tt
          (registerTrack production internalTrackDecorator Ctor))
  /\ preserves signedDecoratorToMetaMap
       (ifDefined (fields meta) tt
          (registerFields production createObservedFieldPropertyDescriptor
             Ctor)).
Proof.
  repeat split;
    preserve_with
      ltac:(first [ by apply preserves_modify
                  | progress unfold defineProperty
                  | progress unfold storeDef ]).
Qed.

Lemma registerDecorators_Throw_registry Ctor meta r e r' :
  registerDecorators' Ctor meta r = (Throw e, r') ->
  signedDecoratorToMetaMap r' = signedDecoratorToMetaMap r.
Proof.
  intros Hrun.
  destruct (blocks_preserve_registry Ctor meta) as (P1 & P2 & P3 & P4 & P5).
  unfold Engine.registerDecorators in Hrun.
  repeat match type of Hrun with
    | bind ?m ?k ?s = (Throw _, _) =>
        let a := fresh "a" in
        let s1 := fresh "s" in
        let Hm := fresh "Hm" in
        destruct (m s) as [[a|?] s1] eqn:Hm;
        [ rewrite (bind_run _ _ _ _ _ Hm) in Hrun
        | rewrite (bind_run_Throw _ _ _ _ _ Hm) in Hrun;
          inversion Hrun; subst ]
    end.
  all: try (unfold ret in Hrun; discriminate Hrun).
  all: try (unfold setDecoratorsMeta, modify in *; discriminate).
  all: repeat match goal with
         | H : ?m ?s0 = (_, ?s1)
           |- signedDecoratorToMetaMap ?s1 = _ =>
             first
               [ rewrite (preserves_run _ _ _ _ _ P1 H)
               | rewrite (preserves_run _ _ _ _ _ P2 H)
               | rewrite (preserves_run _ _ _ _ _ P3 H)
               | rewrite (preserves_run _ _ _ _ _ P4 H)
               | rewrite (preserves_run _ _ _ _ _ P5 H) ];
             clear H
         end.
  all: done.
Qed.

(** X13.  A registration that throws leaves the registry of decorator
    metadata exactly as it was: the record of a class is stored only at the
    very end of a registration in which nothing failed. *)
Theorem failed_registration_keeps_registry Ctor meta r e r' :
  registerDecorators' Ctor meta r = (Throw e, r') ->
  signedDecoratorToMetaMap r' = signedDecoratorToMetaMap r
  /\ forall C, (getDecoratorsMeta C r').1 = (getDecoratorsMeta C r).1.
Proof.
  intros Hrun.
  pose proof (registerDecorators_Throw_registry _ _ _ _ _ Hrun) as Hsame.
  split; [done|]. intros C.
  unfold getDecoratorsMeta, bind, gets, ret. simpl. by rewrite Hsame.
Qed.

(** *** Own properties of the prototype *)

Lemma define_keeps_own Ctor C x name d :
  keeps (own_property C x)
    (modify (fun r =>
       set_prototypes (<[Ctor := <[name := d]> (proto_of Ctor r)]>) r)).
Proof.
  apply keeps_modify. intros r Hown.
  unfold own_property, proto_of in *. simpl.
  destruct (decide (C = Ctor)) as [->|Hne].
  - rewrite lookup_insert_eq. simpl.
    destruct (decide (x = name)) as [->|Hx].
    + rewrite lookup_insert_eq. eauto.
    + by rewrite lookup_insert_ne.
  - by rewrite lookup_insert_ne.
Qed.

Lemma defineProperty_Ok_own Ctor x d r (u : unit) r' :
  defineProperty Ctor x d r = (Ok u, r') -> own_property Ctor x r'.
Proof.
  unfold defineProperty, bind, getOwnPropertyDescriptor, gets, modify, throw.
  simpl. intros Hrun.
  assert (Hr' : r' = set_prototypes
                       (<[Ctor := <[x := d]> (proto_of Ctor r)]>) r).
  { destruct (proto_of Ctor r !! x) as [d0|];
      [destruct (pd_configurable d0)|]; by inversion Hrun. }
  subst r'. unfold own_property, proto_of. simpl.
  rewrite lookup_insert_eq. simpl. rewrite lookup_insert_eq. eauto.
Qed.

Ltac own_leaf :=
  first [ apply define_keeps_own
        | by apply keeps_modify
        | progress unfold buildReactiveParameter ].

Lemma blocks_keep_own Ctor C x meta :
  keeps (own_property C x)
    (ifDefined (publicProps meta) [] (registerPublicProps production Ctor))
  /\ keeps (own_property C x)
       (ifDefined (publicMethods meta) []
          (registerPublicMethods production Ctor))
  /\ keeps (own_property C x)
       (ifDefined (wire meta) ([], []) (registerWire production Ctor))
  /\ keeps (own_property C x)
       (ifDefined (track meta) tt
          (registerTrack production internalTrackDecorator Ctor))
  /\ keeps (own_property C x)
       (ifDefined (fields meta) tt
          (registerFields production createObservedFieldPropertyDescriptor
             Ctor)).
Proof. repeat split; keep_with own_leaf. Qed.

(** A property of a prototype stays one through every registration. *)
Lemma registerDecorators_keeps_own Ctor C x meta :
  keeps (own_property C x) (registerDecorators' Ctor meta).
Proof. keep_with own_leaf. Qed.

(** A loop that returns has reached the state predicate that one of its
    iterations establishes and the others keep. *)
Lemma foldM_reaches {S E C} (P : S -> Prop) (body : C -> E -> M S C) (e0 : E) :
  (forall c s c' s', body c e0 s = (Ok c', s') -> P s') ->
  forall l,
    e0 ∈ l ->
    (forall c e, e ∈ l -> keeps P (body c e)) ->
    forall c s c' s', Engine.foldM body l c s = (Ok c', s') -> P s'.
Proof.
  intros Hhere l. induction l as [|e l IH]; intros Hin Hkeep c s c' s' Hrun.
  - by apply elem_of_nil in Hin.
  - simpl in Hrun. apply bind_Ok in Hrun as (c1 & s1 & Hstep & Hrest).
    assert (Hl : forall c e, e ∈ l -> keeps P (body c e)).
    { intros c2 e2 He2. apply Hkeep, elem_of_cons. by right. }
    apply elem_of_cons in Hin as [<-|Hin].
    + pose proof (keeps_foldM P body l c1 Hl s1 (Hhere _ _ _ _ Hstep)) as Hp.
      by rewrite Hrest in Hp.
    + by eapply IH.
Qed.

Lemma forEach_reaches {S E} (P : S -> Prop) (body : E -> M S unit) (e0 : E) :
  (forall s (u : unit) s', body e0 s = (Ok u, s') -> P s') ->
  forall l,
    e0 ∈ l ->
    (forall e, e ∈ l -> keeps P (body e)) ->
    forall s (u : unit) s', forEach l body s = (Ok u, s') -> P s'.
Proof.
  intros Hhere l. induction l as [|e l IH]; intros Hin Hkeep s u s' Hrun.
  - by apply elem_of_nil in Hin.
  - simpl in Hrun. apply bind_Ok in Hrun as (u1 & s1 & Hstep & Hrest).
    assert (Hl : forall e, e ∈ l -> keeps P (body e)).
    { intros e2 He2. apply Hkeep, elem_of_cons. by right. }
    apply elem_of_cons in Hin as [<-|Hin].
    + pose proof (keeps_forEach P l body Hl s1 (Hhere _ _ _ Hstep)) as Hp.
      by rewrite Hrest in Hp.
    + by eapply IH.
Qed.

Lemma registerPublicProps_defines Ctor publicProps x r apiFields r' :
  x ∈ publicProps.*1 ->
  registerPublicProps production Ctor publicProps r = (Ok apiFields, r') ->
  own_property Ctor x r'.
Proof.
  intros Hx Hrun. apply list_elem_of_fmap in Hx as ([k cfg] & -> & Hin).
  unfold registerPublicProps in Hrun.
  eapply (foldM_reaches (own_property Ctor k) _ (k, cfg)); [| exact Hin | | exact Hrun].
  - intros c s c' s' Hbody. simpl in Hbody. split_runs.
    by eapply defineProperty_Ok_own.
  - intros c [k' cfg'] _. simpl. keep_with own_leaf.
Qed.

Lemma registerWire_defines Ctor wire x r wired r' :
  x ∈ wire_field_keys wire ->
  registerWire production Ctor wire r = (Ok wired, r') ->
  own_property Ctor x r'.
Proof.
  intros Hx Hrun. apply list_elem_of_fmap in Hx as ([k d] & -> & Hin).
  apply list_elem_of_filter in Hin as [Hm Hin]. simpl in Hm.
  unfold registerWire in Hrun.
  eapply (foldM_reaches (own_property Ctor k) _ (k, d)); [| exact Hin | | exact Hrun].
  - intros [wm wf] s c' s' Hbody. simpl in Hbody.
    rewrite (bool_decide_eq_false_2 _ Hm) in Hbody. split_runs.
    by eapply defineProperty_Ok_own.
  - intros [wm wf] [k' d'] _. simpl. keep_with own_leaf.
Qed.

Lemma registerTrack_defines Ctor track x r (u : unit) r' :
  x ∈ track.*1 ->
  registerTrack production internalTrackDecorator Ctor track r = (Ok u, r') ->
  own_property Ctor x r'.
Proof.
  intros Hx Hrun. apply list_elem_of_fmap in Hx as ([k z] & -> & Hin).
  unfold registerTrack in Hrun.
  eapply (forEach_reaches (own_property Ctor k) _ (k, z)); [| exact Hin | | exact Hrun].
  - intros s u' s' Hbody. simpl in Hbody.
    apply bind_Ok in Hbody as (a & s0 & _ & Hbody).
    by eapply defineProperty_Ok_own.
  - intros [k' z'] _. simpl. keep_with own_leaf.
Qed.

Lemma registerFields_defines Ctor fields x r (u : unit) r' :
  x ∈ index_keys fields ->
  registerFields production createObservedFieldPropertyDescriptor Ctor fields r
    = (Ok u, r') ->
  own_property Ctor x r'.
Proof.
  intros Hx Hrun. unfold registerFields in Hrun.
  eapply (forEach_reaches (own_property Ctor x) _ x); [| exact Hx | | exact Hrun].
  - intros s u' s' Hbody. simpl in Hbody.
    apply bind_Ok in Hbody as (a & s0 & _ & Hbody).
    by eapply defineProperty_Ok_own.
  - intros k' _. simpl. keep_with own_leaf.
Qed.

(** After a registration that returned, every key it declares as a public
    prop, wired field, tracked field or field index is an own property of
    the prototype. *)
Lemma registerDecorators_defines Ctor meta x r c r' :
  x ∈ defined_keys meta ->
  registerDecorators' Ctor meta r = (Ok c, r') ->
  own_property Ctor x r'.
Proof.
  intros Hx Hrun.
  destruct (blocks_keep_own Ctor Ctor x meta) as (_ & K2 & K3 & K4 & K5).
  apply registerDecorators_Ok in Hrun
    as (apiFields & apiMethods & wired & r1 & r2 & r3 & r4 & r5
        & H1 & H2 & H3 & H4 & H5 & -> & ->).
  assert (Hr5 : own_property Ctor x r5); [|exact Hr5].
  pose proof (K2 r1) as K2'. rewrite H2 in K2'.
  pose proof (K3 r2) as K3'. rewrite H3 in K3'.
  pose proof (K4 r3) as K4'. rewrite H4 in K4'.
  pose proof (K5 r4) as K5'. rewrite H5 in K5'. simpl in *.
  unfold defined_keys in Hx. rewrite !elem_of_app in Hx.
  destruct Hx as [Hx|[Hx|[Hx|Hx]]].
  - apply K5', K4', K3', K2'.
    destruct (publicProps meta) as [pp|]; simpl in *;
      [by eapply registerPublicProps_defines | by apply elem_of_nil in Hx].
  - apply K5', K4'.
    destruct (wire meta) as [w|]; simpl in *;
      [by eapply registerWire_defines | by apply elem_of_nil in Hx].
  - apply K5'.
    destruct (track meta) as [t|]; simpl in *;
      [by eapply registerTrack_defines | by apply elem_of_nil in Hx].
  - destruct (fields meta) as [f|]; simpl in *;
      [by eapply registerFields_defines | by apply elem_of_nil in Hx].
Qed.

(** *** Conflicting declarations in a development build *)

Ltac conflict_here Hown :=
  let d := fresh "d" in
  let Hd := fresh "Hd" in
  destruct Hown as [d Hd];
  unfold bind, when, dev, validateFieldDecoratedWithApi,
    validateFieldDecoratedWithWire, validateFieldDecoratedWithTrack,
    validateObservedField, getOwnPropertyDescriptor, gets, assert_fail, throw;
  cbn -[proto_of defineProperty]; rewrite Hd; cbn -[proto_of defineProperty];
  eauto.

Lemma registerPublicProps_conflict Ctor publicProps x :
  production = false ->
  x ∈ public_field_keys publicProps ->
  forall r, own_property Ctor x r ->
    exists e r', registerPublicProps production Ctor publicProps r
                 = (Throw e, r').
Proof.
  intros Hdev Hx. apply list_elem_of_fmap in Hx as ([k cfg] & -> & Hin).
  apply list_elem_of_filter in Hin as [Hcfg Hin]. simpl in Hcfg.
  unfold registerPublicProps.
  apply (foldM_throws (own_property Ctor k) _ (k, cfg)); [| exact Hin |].
  - intros c s Hown. simpl.
    assert ((config cfg >? 0)%Z = false) as ->
      by (rewrite Z.gtb_ltb; by apply Z.ltb_ge).
    rewrite Hdev. conflict_here Hown.
  - intros c [k' cfg'] _. right. simpl. keep_with own_leaf.
Qed.

Lemma registerWire_conflict Ctor wire x :
  production = false ->
  x ∈ wire_field_keys wire ->
  forall r, own_property Ctor x r ->
    exists e r', registerWire production Ctor wire r = (Throw e, r').
Proof.
  intros Hdev Hx. apply list_elem_of_fmap in Hx as ([k d] & -> & Hin).
  apply list_elem_of_filter in Hin as [Hm Hin]. simpl in Hm.
  unfold registerWire.
  apply (foldM_throws (own_property Ctor k) _ (k, d)); [| exact Hin |].
  - intros [wm wf] s Hown. simpl.
    rewrite (bool_decide_eq_false_2 _ Hm).
    assert (Hcfg : keeps (own_property Ctor k)
                     (buildConfigExtractor (wc_static d) (wc_params d)))
      by keep_with own_leaf.
    specialize (Hcfg s Hown). unfold bind at 1.
    destruct (buildConfigExtractor (wc_static d) (wc_params d) s)
      as [[cb|e] s1]; [|eauto].
    simpl in Hcfg. rewrite Hdev. conflict_here Hcfg.
  - intros [wm wf] [k' d'] _. right. simpl. keep_with own_leaf.
Qed.

Lemma registerTrack_conflict Ctor track x :
  production = false ->
  x ∈ track.*1 ->
  forall r, own_property Ctor x r ->
    exists e r', registerTrack production internalTrackDecorator Ctor track r
                 = (Throw e, r').
Proof.
  intros Hdev Hx. apply list_elem_of_fmap in Hx as ([k z] & -> & Hin).
  unfold registerTrack.
  apply (forEach_throws (own_property Ctor k) _ (k, z)); [| exact Hin |].
  - intros s Hown. simpl. rewrite Hdev. conflict_here Hown.
  - intros [k' z'] _. right. simpl. keep_with own_leaf.
Qed.

Lemma registerFields_conflict Ctor fields x :
  production = false ->
  x ∈ index_keys fields ->
  forall r, own_property Ctor x r ->
    exists e r',
      registerFields production createObservedFieldPropertyDescriptor Ctor
        fields r = (Throw e, r').
Proof.
  intros Hdev Hx. unfold registerFields.
  apply (forEach_throws (own_property Ctor x) _ x); [| exact Hx |].
  - intros s Hown. simpl. rewrite Hdev. conflict_here Hown.
  - intros k' _. right. simpl. keep_with own_leaf.
Qed.

Lemma registerDecorators_conflict Ctor meta x r :
  production = false ->
  x ∈ field_keys meta ->
  own_property Ctor x r ->
  exists e r', registerDecorators' Ctor meta r = (Throw e, r').
Proof.
  intros Hdev Hx Hown.
  destruct (blocks_keep_own Ctor Ctor x meta) as (K1 & K2 & K3 & K4 & _).
  assert (Hp : x ∈ public_field_keys (default [] (publicProps meta)) ->
               forall r, own_property Ctor x r ->
                 exists e r',
                   ifDefined (publicProps meta) []
                     (registerPublicProps production Ctor) r = (Throw e, r')).
  { destruct (publicProps meta); simpl;
      [by apply registerPublicProps_conflict
      |intros H; by apply elem_of_nil in H]. }
  assert (Hw : x ∈ wire_field_keys (default [] (wire meta)) ->
               forall r, own_property Ctor x r ->
                 exists e r',
                   ifDefined (wire meta) ([], [])
                     (registerWire production Ctor) r = (Throw e, r')).
  { destruct (wire meta); simpl;
      [by apply registerWire_conflict
      |intros H; by apply elem_of_nil in H]. }
  assert (Ht : x ∈ (default [] (track meta)).*1 ->
               forall r, own_property Ctor x r ->
                 exists e r',
                   ifDefined (track meta) tt
                     (registerTrack production internalTrackDecorator Ctor) r
                   = (Throw e, r')).
  { destruct (track meta); simpl;
      [by apply registerTrack_conflict
      |intros H; by apply elem_of_nil in H]. }
  assert (Hf : x ∈ index_keys (default [] (fields meta)) ->
               forall r, own_property Ctor x r ->
                 exists e r',
                   ifDefined (fields meta) tt
                     (registerFields production
                        createObservedFieldPropertyDescriptor Ctor) r
                   = (Throw e, r')).
  { destruct (fields meta); simpl;
      [by apply registerFields_conflict
      |intros H; by apply elem_of_nil in H]. }
  unfold field_keys in Hx. rewrite !elem_of_app in Hx.
  unfold Engine.registerDecorators.
  destruct (ifDefined (publicProps meta) []
              (registerPublicProps production Ctor) r)
    as [[apiFields|e1] r1] eqn:H1;
    [rewrite (bind_run _ _ _ _ _ H1)
    |rewrite (bind_run_Throw _ _ _ _ _ H1); eauto].
  pose proof (K1 r Hown) as Hown1. rewrite H1 in Hown1. simpl in Hown1.
  destruct Hx as [Hx|Hx].
  { destruct (Hp Hx r Hown) as (e & r' & Hthrow). congruence. }
  destruct (ifDefined (publicMethods meta) []
              (registerPublicMethods production Ctor) r1)
    as [[apiMethods|e2] r2] eqn:H2;
    [rewrite (bind_run _ _ _ _ _ H2)
    |rewrite (bind_run_Throw _ _ _ _ _ H2); eauto].
  pose proof (K2 r1 Hown1) as Hown2. rewrite H2 in Hown2. simpl in Hown2.
  destruct (ifDefined (wire meta) ([], []) (registerWire production Ctor) r2)
    as [[wired|e3] r3] eqn:H3;
    [rewrite (bind_run _ _ _ _ _ H3)
    |rewrite (bind_run_Throw _ _ _ _ _ H3); eauto].
  pose proof (K3 r2 Hown2) as Hown3. rewrite H3 in Hown3. simpl in Hown3.
  destruct Hx as [Hx|Hx].
  { destruct (Hw Hx r2 Hown2) as (e & r' & Hthrow). congruence. }
  destruct (ifDefined (track meta) tt
              (registerTrack production internalTrackDecorator Ctor) r3)
    as [[u4|e4] r4] eqn:H4;
    [rewrite (bind_run _ _ _ _ _ H4)
    |rewrite (bind_run_Throw _ _ _ _ _ H4); eauto].
  pose proof (K4 r3 Hown3) as Hown4. rewrite H4 in Hown4. simpl in Hown4.
  destruct Hx as [Hx|Hx].
  { destruct (Ht Hx r3 Hown3) as (e & r' & Hthrow). congruence. }
  destruct (Hf Hx r4 Hown4) as (e & r' & Hthrow).
  rewrite (bind_run_Throw _ _ _ _ _ Hthrow). eauto.
Qed.

(** X14.  In a development build a registration throws when a key that it
    declares as a field (a public prop that is not an accessor, a wired
    field, a tracked field or an index of [fields]) is already an own
    property of the class prototype; the registry of decorator metadata is
    left as it was. *)
Theorem field_conflict_rejected Ctor meta x r :
  production = false ->
  x ∈ field_keys meta ->
  is_Some (proto_of Ctor r !! x) ->
  exists e r',
    registerDecorators' Ctor meta r = (Throw e, r')
    /\ signedDecoratorToMetaMap r' = signedDecoratorToMetaMap r.
Proof.
  intros Hdev Hx Hown.
  destruct (registerDecorators_conflict Ctor meta x r Hdev Hx Hown)
    as (e & r' & Hthrow).
  exists e, r'. split; [done|].
  by eapply registerDecorators_Throw_registry.
Qed.

(** X15.  In a development build a class cannot be registered twice with a
    field in common: after a registration that returned, a second
    registration of the same class that declares as a field one of the keys
    the first one defined throws, and [getDecoratorsMeta] still returns the
    record of the first registration. *)
Theorem second_registration_rejected Ctor meta meta2 x r c r1 :
  production = false ->
  registerDecorators' Ctor meta r = (Ok c, r1) ->
  x ∈ defined_keys meta ->
  x ∈ field_keys meta2 ->
  exists e r2,
    registerDecorators' Ctor meta2 r1 = (Throw e, r2)
    /\ getDecoratorsMeta Ctor r2 = (Ok (meta_of meta), r2).
Proof.
  intros Hdev Hrun Hx Hx2.
  pose proof (registerDecorators_defines _ _ _ _ _ _ Hx Hrun) as Hown.
  destruct (registerDecorators_record _ _ _ _ _ Hrun) as [_ Hrec].
  destruct (registerDecorators_conflict Ctor meta2 x r1 Hdev Hx2 Hown)
    as (e & r2 & Hthrow).
  exists e, r2. split; [done|].
  unfold getDecoratorsMeta, bind, gets, ret. simpl.
  by rewrite (registerDecorators_Throw_registry _ _ _ _ _ Hthrow), Hrec.
Qed.

(** *** Public and wired methods *)

Lemma validateMethodDecoratedWithApi_run Ctor m r :
  exists msg,
    validateMethodDecoratedWithApi production Ctor m r
    = (if production || writable_method (proto_of Ctor r !! m)
       then Ok tt else Throw (AssertionError msg), r).
Proof.
  unfold validateMethodDecoratedWithApi, when, dev, bind,
    getOwnPropertyDescriptor, gets, assert_fail, throw, ret, writable_method.
  destruct production; simpl; [by exists EmptyString|].
  destruct (proto_of Ctor r !! m) as [d|]; simpl; [|eauto].
  destruct (value_isFunction d), (writable_isFalse d); simpl; eauto.
Qed.

Lemma registerPublicMethods_loop_Ok Ctor ms acc r :
  production = true
  \/ Forall (fun m => writable_method (proto_of Ctor r !! m) = true) ms ->
  Engine.foldM (fun apiMethods methodName =>
           when (dev production)
             (validateMethodDecoratedWithApi production Ctor methodName) ;;;
           ret (apiMethods ++ [methodName])) ms acc r
  = (Ok (acc ++ ms), r).
Proof.
  revert acc. induction ms as [|m ms IH]; intros acc Hok; simpl.
  - by rewrite app_nil_r.
  - assert (Hm : production || writable_method (proto_of Ctor r !! m) = true).
    { destruct Hok as [->|Hall]; [done|].
      apply Forall_cons in Hall as [-> _]. by destruct production. }
    assert (Hrest : production = true
              \/ Forall (fun m => writable_method (proto_of Ctor r !! m) = true)
                   ms).
    { destruct Hok as [?|Hall]; [by left|right].
      by apply Forall_cons in Hall as [_ ?]. }
    destruct (validateMethodDecoratedWithApi_run Ctor m r) as [msg Hrun].
    rewrite Hm in Hrun.
    unfold bind at 1. unfold bind at 1. unfold when.
    destruct (dev production); [rewrite Hrun|]; unfold ret at 1; simpl;
      rewrite IH by done; by rewrite <- app_assoc.
Qed.

Lemma registerPublicMethods_loop_Throw Ctor ms acc r m :
  production = false ->
  m ∈ ms ->
  writable_method (proto_of Ctor r !! m) = false ->
  exists msg,
    Engine.foldM (fun apiMethods methodName =>
             when (dev production)
               (validateMethodDecoratedWithApi production Ctor methodName) ;;;
             ret (apiMethods ++ [methodName])) ms acc r
    = (Throw (AssertionError msg), r).
Proof.
  intros Hdev. revert acc.
  induction ms as [|m0 ms IH]; intros acc Hin Hbad.
  - by apply elem_of_nil in Hin.
  - simpl.
    destruct (validateMethodDecoratedWithApi_run Ctor m0 r) as [msg Hrun].
    unfold bind at 1. unfold bind at 1. unfold when, dev.
    rewrite Hdev in *. simpl in *. rewrite Hrun.
    destruct (writable_method (proto_of Ctor r !! m0)) eqn:Hm0; [|eauto].
    unfold ret at 1. simpl.
    apply elem_of_cons in Hin as [->|Hin]; [congruence|].
    by apply IH.
Qed.

(** X16.  The public methods are only checked, never defined.  In a
    production build the block accepts any list; in a development build it
    accepts the list exactly when every listed name is an own data property
    of the prototype whose value is a function and that is not read-only,
    and throws an assertion error otherwise.  Either way the result is the
    list as given and the state is untouched. *)
Theorem public_methods_validated Ctor (ms : list string) r :
  (production = true
   \/ Forall (fun m => writable_method (proto_of Ctor r !! m) = true) ms ->
   registerPublicMethods production Ctor ms r = (Ok ms, r))
  /\ (production = false ->
      forall m, m ∈ ms -> writable_method (proto_of Ctor r !! m) = false ->
        exists msg,
          registerPublicMethods production Ctor ms r
          = (Throw (AssertionError msg), r)).
Proof.
  split.
  - intros Hok. unfold registerPublicMethods.
    by rewrite registerPublicMethods_loop_Ok.
  - intros Hdev m Hin Hbad. unfold registerPublicMethods.
    by eapply registerPublicMethods_loop_Throw.
Qed.

(** *** Public accessors *)

Lemma NoDup_fst_unique {A} (l : list (string * A)) k a b :
  NoDup l.*1 -> (k, a) ∈ l -> (k, b) ∈ l -> a = b.
Proof.
  induction l as [|[k0 a0] l IH]; intros Hnd Ha Hb.
  - by apply elem_of_nil in Ha.
  - rewrite fmap_cons in Hnd. apply NoDup_cons in Hnd as [Hfresh Hnd].
    simpl in Hfresh.
    apply elem_of_cons in Ha as [Ha|Ha]; apply elem_of_cons in Hb as [Hb|Hb].
    + congruence.
    + inversion Ha; subst. exfalso. apply Hfresh.
      apply list_elem_of_fmap. by exists (k0, b).
    + inversion Hb; subst. exfalso. apply Hfresh.
      apply list_elem_of_fmap. by exists (k0, a).
    + by apply IH.
Qed.

Lemma publicProps_body_frame Ctor (x k : string) (cfg : PropCompilerDef)
    (c : list string) :
  x ≠ k ->
  preserves (fun r => proto_of Ctor r !! x)
    (descriptor <-
       (if (config cfg >? 0)%Z then
          when (dev production)
            (validateAccessorDecoratedWithApi production Ctor k) ;;;
          descriptor <- getOwnPropertyDescriptor Ctor k ;;
          createPublicAccessorDescriptor production k descriptor
        else
          when (dev production)
            (validateFieldDecoratedWithApi production Ctor k) ;;;
          ret (createPublicPropertyDescriptor production k)) ;;
     defineProperty Ctor k descriptor ;;;
     ret (c ++ [k])).
Proof.
  intros Hne.
  assert (Hor : Ctor ≠ Ctor \/ x ≠ k) by by right.
  preserve_with
    ltac:(first [ by apply preserves_modify
                | by apply defineProperty_preserves_proto ]).
Qed.

Lemma registerPublicProps_no_getter Ctor publicProps x cfg r :
  NoDup publicProps.*1 ->
  (x, cfg) ∈ publicProps ->
  (0 < config cfg)%Z ->
  (forall d, proto_of Ctor r !! x = Some d -> pd_get d = None) ->
  exists e r',
    registerPublicProps production Ctor publicProps r = (Throw e, r').
Proof.
  intros Hnd Hin Hcfg Hget. unfold registerPublicProps.
  apply (foldM_throws
           (fun s => forall d, proto_of Ctor s !! x = Some d -> pd_get d = None)
           _ (x, cfg)); [| exact Hin | | exact Hget].
  - intros c s Hs. simpl.
    assert ((config cfg >? 0)%Z = true) as ->
      by (rewrite Z.gtb_ltb; by apply Z.ltb_lt).
    unfold bind, when, dev, validateAccessorDecoratedWithApi,
      getOwnPropertyDescriptor, gets, assert_fail, assert_isTrue, throw,
      createPublicAccessorDescriptor.
    destruct production; cbn -[proto_of defineProperty];
      destruct (proto_of Ctor s !! x) as [d|];
      cbn -[proto_of defineProperty]; eauto;
      rewrite (Hs d eq_refl); destruct (pd_set d);
      cbn -[proto_of defineProperty]; eauto.
  - intros c [k cfg'] Hin'.
    destruct (decide (x = k)) as [<-|Hne].
    + left. f_equal. by eapply NoDup_fst_unique.
    + right.
      apply (preserves_keeps (fun r => proto_of Ctor r !! x)
               (fun o => forall d, o = Some d -> pd_get d = None)).
      simpl. by apply publicProps_body_frame.
Qed.

(** X17.  A public prop declared as an accessor needs a getter on the
    prototype in every build: when the prototype has no own property of that
    name, or one without a getter, the registration throws (an assertion
    error in a development build, a [TypeError] in a production build) and
    stores no record for the class. *)
Theorem accessor_without_getter_rejected Ctor meta publicProps x cfg r :
  Engine.publicProps meta = Some publicProps ->
  NoDup publicProps.*1 ->
  (x, cfg) ∈ publicProps ->
  (0 < config cfg)%Z ->
  (forall d, proto_of Ctor r !! x = Some d -> pd_get d = None) ->
  exists e r',
    registerDecorators' Ctor meta r = (Throw e, r')
    /\ signedDecoratorToMetaMap r' = signedDecoratorToMetaMap r.
Proof.
  intros Hpp Hnd Hin Hcfg Hget.
  destruct (registerPublicProps_no_getter Ctor publicProps x cfg r
              Hnd Hin Hcfg Hget) as (e & r' & Hthrow).
  assert (Hrun : registerDecorators' Ctor meta r = (Throw e, r')).
  { unfold Engine.registerDecorators. rewrite Hpp. simpl.
    by rewrite (bind_run_Throw _ _ _ _ _ Hthrow). }
  exists e, r'. split; [done|].
  by eapply registerDecorators_Throw_registry.
Qed.

(** In a loop over distinct keys whose iterations leave the other keys
    alone, the iteration of an entry runs from a state that has, at the
    entry's key, what the loop started from, and what it leaves at that key
    is what the loop ends with. *)
Lemma foldM_step_at {S E C V} (key : E -> string) (obs : string -> S -> V)
    (body : C -> E -> M S C) :
  (forall c e y, y ≠ key e -> preserves (obs y) (body c e)) ->
  forall l c s c' s' e,
    Engine.foldM body l c s = (Ok c', s') ->
    NoDup (key <$> l) -> e ∈ l ->
    exists c0 s0 c1 s1,
      body c0 e s0 = (Ok c1, s1)
      /\ obs (key e) s0 = obs (key e) s
      /\ obs (key e) s' = obs (key e) s1.
Proof.
  intros Hframe l.
  induction l as [|e0 l IH]; intros c s c' s' e Hrun Hnd Hin.
  - by apply elem_of_nil in Hin.
  - simpl in Hrun. apply bind_Ok in Hrun as (c1 & s1 & Hstep & Hrest).
    rewrite fmap_cons in Hnd. apply NoDup_cons in Hnd as [Hfresh Hnd].
    apply elem_of_cons in Hin as [->|Hin].
    + exists c, s, c1, s1. split; [done|]. split; [done|].
      assert (Hkeep : preserves (obs (key e0)) (Engine.foldM body l c1)).
      { apply preserves_foldM. intros c2 e1 He1. apply Hframe.
        intros Heq. apply Hfresh. rewrite Heq.
        apply list_elem_of_fmap. by exists e1. }
      apply (preserves_run _ _ _ _ _ Hkeep Hrest).
    + destruct (IH c1 s1 c' s' e Hrest Hnd Hin)
        as (c0 & s0 & c2 & s2 & Hbody & Hbefore & Hafter).
      exists c0, s0, c2, s2. split; [done|]. split; [|done].
      rewrite Hbefore.
      apply (preserves_run _ _ _ _ _ (Hframe c e0 (key e)
               ltac:(intros Heq; apply Hfresh; rewrite <- Heq;
                     apply list_elem_of_fmap; by exists e)) Hstep).
Qed.

Lemma registerPublicProps_installs_accessor Ctor publicProps r apiFields r'
    x cfg d get :
  registerPublicProps production Ctor publicProps r = (Ok apiFields, r') ->
  NoDup publicProps.*1 ->
  (x, cfg) ∈ publicProps ->
  (0 < config cfg)%Z ->
  proto_of Ctor r !! x = Some d ->
  pd_get d = Some get ->
  exists d',
    proto_of Ctor r' !! x = Some d'
    /\ createPublicAccessorDescriptor production x (Some d) tt = (Ok d', tt).
Proof.
  intros Hrun Hnd Hin Hcfg Hd Hget. unfold registerPublicProps in Hrun.
  eapply (foldM_step_at fst (fun k r => proto_of Ctor r !! k))
    with (e := (x, cfg)) in Hrun;
    [| intros c [k cfg'] y Hy; simpl; by apply publicProps_body_frame
     | done | done].
  destruct Hrun as (c0 & s0 & c1 & s1 & Hbody & Hbefore & Hafter).
  simpl in Hbody, Hbefore, Hafter.
  assert ((config cfg >? 0)%Z = true) as Hpos
    by (rewrite Z.gtb_ltb; by apply Z.ltb_lt).
  rewrite Hpos in Hbody. split_runs.
  assert (Hvalid : preserves (fun r => proto_of Ctor r !! x)
            (when (dev production)
               (validateAccessorDecoratedWithApi production Ctor x)))
    by preserve_with ltac:(by apply preserves_modify).
  match goal with
  | H : when _ _ _ = _ |- _ =>
      pose proof (preserves_run _ _ _ _ _ Hvalid H) as Hsame
  end.
  simpl in Hsame.
  match goal with
  | H : getOwnPropertyDescriptor _ _ _ = _ |- _ =>
      unfold getOwnPropertyDescriptor, gets in H; inversion H; subst; clear H
  end.
  match goal with
  | H : createPublicAccessorDescriptor _ _ _ _ = _ |- _ =>
      rewrite Hsame, Hbefore, Hd in H; rename H into Hmake
  end.
  match goal with
  | H : defineProperty _ _ _ _ = _ |- _ =>
      apply defineProperty_installs in H; rename H into Hdef
  end.
  eexists. split; [by rewrite Hafter|].
  unfold createPublicAccessorDescriptor in *. rewrite Hget in *.
  unfold ret in *. by inversion Hmake.
Qed.

(** X18.  A public accessor of a registered class forwards to the accessor
    that the author wrote on the prototype.  After a successful
    registration, the property has a descriptor with the author's
    [enumerable] and [configurable] flags; on an instance that has a VM, a
    read runs the author's getter, and a write (in a development build:
    while no render is in progress) runs the author's setter; when the
    author wrote no setter, a write does nothing in a production build and
    throws an assertion error in a development build. *)
Theorem public_accessor_forwards Ctor meta r c r' publicProps x cfg d get :
  registerDecorators' Ctor meta r = (Ok c, r') ->
  Engine.publicProps meta = Some publicProps ->
  NoDup publicProps.*1 ->
  (x, cfg) ∈ publicProps ->
  (0 < config cfg)%Z ->
  x ∉ wire_field_keys (default [] (wire meta)) ->
  x ∉ (default [] (track meta)).*1 ->
  x ∉ index_keys (default [] (fields meta)) ->
  proto_of Ctor r !! x = Some d ->
  pd_get d = Some get ->
  exists d',
    proto_of Ctor r' !! x = Some d'
    /\ pd_enumerable d' = pd_enumerable d
    /\ pd_configurable d' = pd_configurable d
    /\ (forall this rt, is_Some (vms rt !! this) ->
          descriptor_get d' this rt = get this rt)
    /\ (forall this v rt, is_Some (vms rt !! this) ->
          production = true \/ isRendering rt = false ->
          descriptor_set d' this v rt
          = match pd_set d with
            | Some set => set this v rt
            | None =>
                (if production then Ok tt
                 else Throw (AssertionError
                        ("Invalid attempt to set a new value for property "
                           +:+ x)), rt)
            end).
Proof.
  intros Hrun Hpp Hnd Hin Hcfg Hw Ht Hf Hd Hget.
  apply registerDecorators_Ok in Hrun
    as (apiFields & apiMethods & wired & r1 & r2 & r3 & r4 & r5
        & H1 & H2 & H3 & H4 & H5 & -> & ->).
  rewrite Hpp in H1. simpl in H1.
  destruct (registerPublicProps_installs_accessor _ _ _ _ _ _ _ _ _
              H1 Hnd Hin Hcfg Hd Hget) as (d' & Hd' & Hmake).
  exists d'. split.
  { rewrite proto_of_set_meta.
    rewrite (preserves_run _ _ _ _ _
               (fields_block_frame production
                  createObservedFieldPropertyDescriptor Ctor meta x Hf) H5).
    rewrite (preserves_run _ _ _ _ _
               (track_block_frame production internalTrackDecorator
                  Ctor meta x Ht) H4).
    rewrite (preserves_run _ _ _ _ _
               (wire_block_frame production Ctor meta x Hw) H3).
    rewrite (preserves_run (fun r => proto_of Ctor r !! x) _ _ _ _
               (preserves_ifDefined _ _ _ _
                  (fun l _ => registerPublicMethods_frame production
                                Ctor Ctor x l)) H2).
    done. }
  unfold createPublicAccessorDescriptor in Hmake. rewrite Hget in Hmake.
  unfold ret in Hmake. inversion Hmake as [Heq]. clear Hmake Hd'. subst d'.
  split; [done|]. split; [done|]. split.
  - intros this rt [vm Hvm].
    unfold descriptor_get, getComponentVM, assert_isTrue, dev, bind, gets,
      when, ret, throw.
    destruct production; simpl; [by destruct (get this rt) as [[?|?] ?]|].
    rewrite Hvm. simpl.
    by destruct (get this rt) as [[?|?] ?].
  - intros this v rt [vm Hvm] Hmode.
    unfold descriptor_set, getComponentVM, assert_isTrue, assert_invariant,
      assert_fail, dev, bind, gets, when, ret, throw.
    destruct production; simpl.
    + destruct (pd_set d) as [set|]; [|done].
      by destruct (set this v rt) as [[?|?] ?].
    + destruct Hmode as [?|Hidle]; [done|]. rewrite Hvm. simpl.
      rewrite Hidle. simpl.
      destruct (pd_set d) as [set|]; [|done].
      by destruct (set this v rt) as [[?|?] ?].
Qed.

(** *** The storage behind the descriptors *)


(** X20.  A wired field cannot be written by the component, and its
    storage is apart from that of the public properties: an assignment to
    the wired field returns and leaves the whole runtime as it was, and
    after an assignment to a public property of the same name a read of the
    wired field still returns what the wired-field storage held. *)
Theorem wired_field_ignores_writes key this vm v rt :
  vms rt !! this = Some vm ->
  production = true \/ isRendering rt = false ->
  descriptor_set (internalWireFieldDecorator production key) this v rt
    = (Ok tt, rt)
  /\ (descriptor_get (internalWireFieldDecorator production key) this
        (descriptor_set (internalWireFieldDecorator production key)
           this v rt).2).1
     = Ok (default VUndefined (cmpFields vm !! key))
  /\ (descriptor_get (internalWireFieldDecorator production key) this
        (descriptor_set (createPublicPropertyDescriptor production key)
           this v rt).2).1
     = Ok (default VUndefined (cmpFields vm !! key)).
Proof.
  intros Hvm Hmode. split; [done|]. split.
  - simpl. by rewrite (wireField_get production key this vm rt Hvm).
  - rewrite (publicProperty_set production key this vm v rt Hvm Hmode). simpl.
    rewrite (wireField_get production key this
               (set_cmpProps (<[key := v]>) vm)); [done|].
    destruct (isDirty vm); simpl; by rewrite lookup_alter_eq, Hvm.
Qed.

(** *** Wired methods and adapters *)

Lemma preserves_pair {S A B1 B2} (f : S -> B1) (g : S -> B2) (m : M S A) :
  preserves f m -> preserves g m -> preserves (fun s => (f s, g s)) m.
Proof. intros Hf Hg s. by rewrite Hf, Hg. Qed.

Lemma preserves_pair_2 {S A B1 B2} (f : S -> B1) (g : S -> B2) (m : M S A) :
  preserves (fun s => (f s, g s)) m -> preserves g m.
Proof. intros H s. specialize (H s). simpl in H. by injection H. Qed.

Lemma wire_body_frame Ctor (y k : string) (d : WireCompilerDef)
    (wiredMethods wiredFields : list string) :
  y ≠ k ->
  preserves (fun r => (proto_of Ctor r !! y, wire_def_of Ctor y r))
    (configCallback <-
       buildConfigExtractor (wc_static d) (wc_params d) ;;
     if bool_decide (wc_method d = Some 1%Z) then
       when (dev production)
         (validateMethodDecoratedWithWire production Ctor k) ;;;
       method <- proto_get Ctor k ;;
       storeWiredMethodMeta Ctor k (wc_adapter d) method configCallback ;;;
       ret (wiredMethods ++ [k], wiredFields)
     else
       when (dev production)
         (validateFieldDecoratedWithWire production Ctor k) ;;;
       storeWiredFieldMeta Ctor k (wc_adapter d) configCallback ;;;
       defineProperty Ctor k (internalWireFieldDecorator production k) ;;;
       ret (wiredMethods, wiredFields ++ [k])).
Proof.
  intros Hne.
  assert (Hor : Ctor ≠ Ctor \/ y ≠ k) by by right.
  apply preserves_pair.
  - preserve_with
      ltac:(first [ by apply preserves_modify
                  | apply storeDef_preserves_proto
                  | by apply defineProperty_preserves_proto ]).
  - preserve_with
      ltac:(first [ by apply preserves_modify
                  | by apply storeDef_preserves_wire
                  | apply defineProperty_preserves_wire ]).
Qed.




Lemma registerWire_stores_adapter Ctor wire r wired r' f def :
  registerWire production Ctor wire r = (Ok wired, r') ->
  NoDup wire.*1 ->
  (f, def) ∈ wire ->
  exists stored,
    wire_def_of Ctor f r' = Some stored
    /\ callable_adapter (wc_adapter def) tt = (Ok (adapter stored), tt).
Proof.
  intros Hrun Hnd Hin. unfold registerWire in Hrun.
  eapply (foldM_establishes fst (wire_def_of Ctor)
            (fun e o => exists stored,
               o = Some stored
               /\ callable_adapter (wc_adapter e.2) tt
                  = (Ok (adapter stored), tt)))
    with (e := (f, def)) in Hrun; [exact Hrun| | |done..].
  - intros [wm wf] [k d] s c' s' Hbody. simpl in *.
    apply bind_Ok in Hbody as (cb & s0 & _ & Hbody).
    destruct (bool_decide (wc_method d = Some 1%Z)); split_runs.
    + match goal with
      | H : storeWiredMethodMeta _ _ _ _ _ _ = _ |- _ =>
          unfold storeWiredMethodMeta in H;
          apply bind_Ok in H as (a' & s'' & Hadapter & H);
          rewrite (storeDef_stores _ _ _ _ _ _ H)
      end.
      eexists. split; [done|]. simpl.
      unfold callable_adapter in *.
      destruct (get_member (wc_adapter d) "adapter"); [|discriminate].
      unfold ret in *. by inversion Hadapter.
    + match goal with
      | H : defineProperty _ _ _ _ = _ |- _ =>
          rewrite (preserves_run _ _ _ _ _
                     (defineProperty_preserves_wire _ _ _ Ctor k) H)
      end.
      match goal with
      | H : storeWiredFieldMeta _ _ _ _ _ = _ |- _ =>
          unfold storeWiredFieldMeta in H;
          apply bind_Ok in H as (a' & s'' & Hadapter & H);
          rewrite (storeDef_stores _ _ _ _ _ _ H)
      end.
      eexists. split; [done|]. simpl.
      unfold callable_adapter in *.
      destruct (get_member (wc_adapter d) "adapter"); [|discriminate].
      unfold ret in *. by inversion Hadapter.
  - intros [wm wf] [k d] y Hy. simpl in Hy.
    apply (preserves_pair_2 (fun r => proto_of Ctor r !! y)).
    by apply wire_body_frame.
Qed.

Lemma registerDecorators_stores_adapter Ctor meta r c r' wire f def :
  registerDecorators' Ctor meta r = (Ok c, r') ->
  Engine.wire meta = Some wire ->
  NoDup wire.*1 ->
  (f, def) ∈ wire ->
  exists stored,
    wire_def_of Ctor f r' = Some stored
    /\ callable_adapter (wc_adapter def) tt = (Ok (adapter stored), tt).
Proof.
  intros Hrun Hwire Hnd Hin.
  apply registerDecorators_Ok in Hrun
    as (apiFields & apiMethods & wired & r1 & r2 & r3 & r4 & r5
        & H1 & H2 & H3 & H4 & H5 & -> & ->).
  rewrite (after_wire_preserves_wire production internalTrackDecorator
             createObservedFieldPropertyDescriptor Ctor meta f r3 r4 r5 _
             H4 H5).
  rewrite Hwire in H3. simpl in H3.
  by eapply registerWire_stores_adapter.
Qed.

(** X22.  Which adapter a wire declaration ends up with.  After a
    successful registration the stored definition holds the declared
    adapter, or the value of its [adapter] property when that is truthy;
    the declared adapter is neither [null] nor [undefined].  In particular,
    for an adapter id that went through the wire service's [register] with
    the factory [cb], the stored adapter is the adapter class that
    [register] created around [cb]. *)
Theorem stored_adapter_resolved Ctor meta r c r' wire f def :
  registerDecorators' Ctor meta r = (Ok c, r') ->
  Engine.wire meta = Some wire ->
  NoDup wire.*1 ->
  (f, def) ∈ wire ->
  exists stored,
    wire_def_of Ctor f r' = Some stored
    /\ is_nullish (wc_adapter def) = false
    /\ adapter stored
       = (if truthy (member (wc_adapter def) "adapter")
          then member (wc_adapter def) "adapter" else wc_adapter def)
    /\ (forall id cb,
          is_object id = true ->
          (WireService.register id cb).2 = Ok (wc_adapter def) ->
          adapter stored = VClass cb []).
Proof.
  intros Hrun Hwire Hnd Hin.
  destruct (registerDecorators_stores_adapter _ _ _ _ _ _ _ _
              Hrun Hwire Hnd Hin) as (stored & Hstored & Hadapter).
  exists stored. split; [done|].
  unfold callable_adapter, member in *.
  assert (Hresolved : is_nullish (wc_adapter def) = false
            /\ adapter stored
               = (if truthy (member (wc_adapter def) "adapter")
                  then member (wc_adapter def) "adapter"
                  else wc_adapter def)).
  { unfold member.
    destruct (wc_adapter def); simpl in *; try discriminate;
      unfold ret in Hadapter; by inversion Hadapter. }
  destruct Hresolved as [Hnn Hres]. split; [done|]. split; [done|].
  intros id cb Hobj Hreg. rewrite Hres.
  unfold WireService.register in Hreg.
  destruct id as [| | | | |ps|g ps|k ps]; try discriminate Hobj;
    cbn [has_property set_member snd] in Hreg;
    inversion Hreg as [Heq]; unfold member; cbn [get_member];
    by rewrite assoc_assoc_set_eq.
Qed.

Lemma bind_throws_any {S A C} (m : M S A) (k : A -> M S C) :
  (forall a s1, exists e s', k a s1 = (Throw e, s')) ->
  forall s, exists e s', bind m k s = (Throw e, s').
Proof.
  intros Hk s. unfold bind. destruct (m s) as [[a|e] s1]; eauto.
Qed.

Lemma registerWire_null_adapter Ctor wire f def r :
  (f, def) ∈ wire ->
  is_nullish (wc_adapter def) = true ->
  exists e r', registerWire production Ctor wire r = (Throw e, r').
Proof.
  intros Hin Hnull. unfold registerWire.
  apply (foldM_throws (fun _ => True) _ (f, def)); [| exact Hin | | done].
  - intros [wm wf] s _. simpl.
    assert (Hcall : forall s2 : Registry,
              exists e, callable_adapter (wc_adapter def) s2 = (Throw e, s2)).
    { intros s2. unfold callable_adapter.
      destruct (wc_adapter def); try discriminate Hnull; simpl; eauto. }
    apply bind_throws_any. intros cb s1.
    destruct (bool_decide (wc_method def = Some 1%Z)).
    + apply bind_throws_any. intros u s2.
      apply bind_throws_any. intros m s3.
      unfold storeWiredMethodMeta. destruct (Hcall s3) as [e He].
      rewrite (bind_run_Throw _ _ _ _ _ (bind_run_Throw _ _ _ _ _ He)).
      eauto.
    + apply bind_throws_any. intros u s2.
      unfold storeWiredFieldMeta. destruct (Hcall s2) as [e He].
      rewrite (bind_run_Throw _ _ _ _ _ (bind_run_Throw _ _ _ _ _ He)).
      eauto.
  - intros c e _. right. by intros s _.
Qed.

(** X23.  A wire declaration whose adapter is [null] or [undefined] makes
    the registration throw in every build, and no record is stored for the
    class. *)
Theorem null_adapter_rejected Ctor meta wire f def r :
  Engine.wire meta = Some wire ->
  (f, def) ∈ wire ->
  is_nullish (wc_adapter def) = true ->
  exists e r',
    registerDecorators' Ctor meta r = (Throw e, r')
    /\ signedDecoratorToMetaMap r' = signedDecoratorToMetaMap r.
Proof.
  intros Hwire Hin Hnull.
  assert (Hthrow : exists e r',
            registerDecorators' Ctor meta r = (Throw e, r')).
  { unfold Engine.registerDecorators.
    destruct (ifDefined (publicProps meta) []
                (registerPublicProps production Ctor) r)
      as [[apiFields|e1] r1] eqn:H1;
      [rewrite (bind_run _ _ _ _ _ H1)
      |rewrite (bind_run_Throw _ _ _ _ _ H1); eauto].
    destruct (ifDefined (publicMethods meta) []
                (registerPublicMethods production Ctor) r1)
      as [[apiMethods|e2] r2] eqn:H2;
      [rewrite (bind_run _ _ _ _ _ H2)
      |rewrite (bind_run_Throw _ _ _ _ _ H2); eauto].
    rewrite Hwire. simpl.
    destruct (registerWire_null_adapter Ctor wire f def r2 Hin Hnull)
      as (e & r' & H3).
    rewrite (bind_run_Throw _ _ _ _ _ H3). eauto. }
  destruct Hthrow as (e & r' & Hthrow). exists e, r'. split; [done|].
  by eapply registerDecorators_Throw_registry.
Qed.

(** *** Tracked fields and the other classes *)

Lemma registerTrack_installs Ctor track r (u : unit) r' x z :
  registerTrack production internalTrackDecorator Ctor track r = (Ok u, r') ->
  NoDup track.*1 ->
  (x, z) ∈ track ->
  proto_of Ctor r' !! x = Some (internalTrackDecorator x).
Proof.
  intros Hrun Hnd Hin. destruct u. unfold registerTrack in Hrun.
  eapply (forEach_installs fst (fun k r => proto_of Ctor r !! k)
            (fun e => internalTrackDecorator e.1) (fun _ => True))
    with (e := (x, z)) in Hrun; [exact Hrun| | |done..].
  - intros [k z'] s s' Hbody _. simpl in *.
    apply bind_Ok in Hbody as (a & s0 & _ & Hbody).
    by eapply defineProperty_installs.
  - intros [k z'] y Hy. simpl in Hy.
    assert (Hor : Ctor ≠ Ctor \/ y ≠ k) by by right.
    preserve_with
      ltac:(first [ by apply preserves_modify
                  | by apply defineProperty_preserves_proto ]).
Qed.

(** X24.  Every key of [track] ends up on the prototype with the descriptor
    that the track decorator makes for that key, unless the key is also an
    index of the [fields] array, whose block runs later. *)
Theorem tracked_field_installed Ctor meta r c r' track x z :
  registerDecorators' Ctor meta r = (Ok c, r') ->
  Engine.track meta = Some track ->
  NoDup track.*1 ->
  (x, z) ∈ track ->
  x ∉ index_keys (default [] (fields meta)) ->
  proto_of Ctor r' !! x = Some (internalTrackDecorator x).
Proof.
  intros Hrun Htrack Hnd Hin Hf.
  apply registerDecorators_Ok in Hrun
    as (apiFields & apiMethods & wired & r1 & r2 & r3 & r4 & r5
        & H1 & H2 & H3 & H4 & H5 & -> & ->).
  rewrite proto_of_set_meta.
  rewrite (preserves_run _ _ _ _ _
             (fields_block_frame production
                createObservedFieldPropertyDescriptor Ctor meta x Hf) H5).
  rewrite Htrack in H4. simpl in H4.
  by eapply registerTrack_installs.
Qed.

Lemma storeDef_preserves_other Ctor key def (C : ComponentConstructor) :
  C ≠ Ctor -> preserves (fun r => WireMetaMap r !! C) (storeDef Ctor key def).
Proof.
  intros Hne. apply preserves_modify. intros r. simpl.
  by rewrite lookup_insert_ne.
Qed.

Lemma registerDecorators_preserves_other_wires Ctor meta C :
  C ≠ Ctor ->
  preserves (fun r => WireMetaMap r !! C) (registerDecorators' Ctor meta).
Proof.
  intros Hne. unfold Engine.registerDecorators.
  preserve_with
    ltac:(first [ by apply preserves_modify
                | by apply storeDef_preserves_other
                | progress unfold defineProperty
                | progress unfold setDecoratorsMeta ]).
Qed.

(** X25.  Registering one class never touches another: whether the
    registration of [Ctor] returns or throws, the own properties of the
    prototype of every other class, the wire definitions stored for it and
    its record of decorator metadata are what they were. *)
Theorem registration_isolated Ctor meta C r :
  C ≠ Ctor ->
  let r' := (registerDecorators' Ctor meta r).2 in
  proto_of C r' = proto_of C r
  /\ WireMetaMap r' !! C = WireMetaMap r !! C
  /\ signedDecoratorToMetaMap r' !! C = signedDecoratorToMetaMap r !! C.
Proof.
  intros Hne. cbv zeta. split; [|split].
  - apply map_eq. intros y.
    apply (registerDecorators_proto_frame production internalTrackDecorator
             createObservedFieldPropertyDescriptor Ctor C y meta
             (or_introl Hne)).
  - apply (registerDecorators_preserves_other_wires Ctor meta C Hne).
  - apply (registerDecorators_meta_frame production internalTrackDecorator
             createObservedFieldPropertyDescriptor Ctor meta C Hne r).
Qed.

End Registered.

End EngineMore.

(** ** The wire adapters of an instance *)

Module LifecycleFacts.
Import Engine EngineTerms EngineFacts Lifecycle.





(** X28.  Without installed adapters nothing is connected silently.  For a
    class without stored wire definitions, installing throws an assertion
    error in a development build and does nothing in a production build;
    on a context where nothing was installed, connecting and disconnecting
    throw in every build (an assertion error in a development build, a
    [TypeError] in a production build) and call no connector. *)
Theorem uninstalled_adapters_throw production r ctor ctx :
  WireMetaMap r !! ctor = None ->
  wiredConnecting ctx = None ->
  wiredDisconnecting ctx = None ->
  (exists res, installWireAdapters production r ctor ctx = (res, ctx)
               /\ (res = Ok tt <-> production = true))
  /\ (exists msg,
        connectWireAdapters production ctx
        = (Throw (if production then TypeError msg else AssertionError msg),
           ctx))
  /\ (exists msg,
        disconnectWireAdapters production ctx
        = (Throw (if production then TypeError msg else AssertionError msg),
           ctx)).
Proof.
  intros Hmeta Hc Hd. split; [|split].
  - unfold installWireAdapters. rewrite Hmeta.
    unfold when, dev, assert_fail, throw, ret.
    destruct production; simpl; eexists; (split; [done|]); split; done.
  - unfold connectWireAdapters, bind, gets, when, dev, assert_fail, throw, ret.
    rewrite Hc. destruct production; simpl; eauto.
  - unfold disconnectWireAdapters, bind, gets, when, dev, assert_fail, throw,
      ret.
    rewrite Hd. destruct production; simpl; eauto.
Qed.



End LifecycleFacts.

(** ** The connector after a recompute *)

Module ConnectorFacts.
Import Engine EngineFacts.

Lemma update_config_listeners (configCallback : ConfigCallback)
    (component : value) (c : Connector) :
  ro_listeners (update_config configCallback component c).2 = ro_listeners c.
Proof.
  unfold update_config.
  by destruct (configCallback component []) as [[config|e] reads].
Qed.

Lemma run_microtasks_none (configCallback : ConfigCallback)
    (component : value) (c : Connector) :
  microtasks c = [] -> run_microtasks configCallback component c = (Ok tt, c).
Proof.
  intros Hq. unfold run_microtasks, bind, gets, modify. rewrite Hq. simpl.
  unfold ret. f_equal. destruct c. simpl in *. by subst.
Qed.

(** X26.  Only the first change of a reactive parameter is propagated.
    The queued recompute job resets the observer and calls
    [connector.update] outside of [observe], so it subscribes to nothing:
    once a connector has recomputed its config after a change of an
    observed key, it observes no key, later mutation notifications neither
    set the pending flag nor queue a job, and the adapter receives no
    further [update]. *)
Theorem reactivity_lost_after_recompute
    (component : value) (def : WireDef) (keys more : list string) :
  let c0 := createConnector component def in
  let c1 := (forEach keys notify_mutation c0).2 in
  let c2 := (run_microtasks (configCallback def) component c1).2 in
  let c3 := (forEach more notify_mutation c2).2 in
  let c4 := (run_microtasks (configCallback def) component c3).2 in
  Exists (fun k => k ∈ ro_listeners c0) keys ->
  ro_listeners c2 = []
  /\ hasPendingConfig c2 = false
  /\ c3 = c2
  /\ c4 = c2.
Proof.
  cbv zeta. intros He.
  destruct (createConnector_idle component def) as [Hidle Hqueue].
  set (c0 := createConnector component def) in *.
  rewrite (notifications_idle keys c0 Hidle).
  rewrite (bool_decide_eq_true_2 _ He). cbn [snd].
  assert (Hq : microtasks (scheduled c0) = [RecomputeConfig]).
  { unfold scheduled. simpl. by rewrite Hqueue. }
  rewrite (run_microtasks_one _ _ _ Hq).
  set (c2 := (update_config (configCallback def) component _).2).
  assert (Hl : ro_listeners c2 = []).
  { unfold c2. by rewrite update_config_listeners. }
  assert (Hp : hasPendingConfig c2 = false).
  { unfold c2. by rewrite (proj1 (update_config_updates _ _ _)). }
  assert (Hm : microtasks c2 = []).
  { unfold c2. by rewrite (proj1 (proj2 (update_config_updates _ _ _))). }
  assert (H3 : (forEach more notify_mutation c2).2 = c2).
  { rewrite (notifications_idle more c2 Hp). rewrite Hl.
    rewrite bool_decide_eq_false_2; [done|].
    intros Hex. apply Exists_exists in Hex as (k & _ & Hk).
    by apply elem_of_nil in Hk. }
  split; [done|]. split; [done|]. split; [done|].
  rewrite H3. by rewrite run_microtasks_none.
Qed.

End ConnectorFacts.

(** ** The further theorems at work on the sample data *)

Module MoreSampleFacts.
Import Engine EngineTerms Lifecycle Sample MoreSample.

Lemma registered_accessor_Ok :
  registerDecorators false plainDescriptor plainDescriptor 1 meta_accessor
    authored
  = (Ok 1,
     (registerDecorators false plainDescriptor plainDescriptor 1
        meta_accessor authored).2).
Proof. vm_compute. reflexivity. Qed.


Lemma registered_track_Ok :
  registerDecorators false plainDescriptor plainDescriptor 1 meta_track loaded
  = (Ok 1, registered meta_track).
Proof. vm_compute. reflexivity. Qed.

Lemma registered_twice_Throw :
  registerDecorators false plainDescriptor plainDescriptor 1 meta_public
    (registered meta_public)
  = (Throw (AssertionError "Compiler Error: Invalid @api x field declaration."),
     registered meta_public).
Proof. vm_compute. reflexivity. Qed.

Lemma StringSplit_join_witness :
  StringJoin (StringSplit "foo.bar.baz").1 (StringSplit "foo.bar.baz").2
    = "foo.bar.baz"
  /\ StringSplit "foo" = ("foo", []).
Proof.
  destruct (EngineMore.StringSplit_join "foo.bar.baz") as (Hjoin & _).
  destruct (EngineMore.StringSplit_join "foo") as (_ & _ & _ & Hplain).
  split; [exact Hjoin | apply Hplain; reflexivity].
Defined.

Lemma refCache_consistent_witness :
  reference {| reference := "foo.bar"; head := "foo"; tail := ["bar"] |}
    = "foo.bar"
  /\ StringJoin "foo" ["bar"] = "foo.bar"
  /\ ("foo", ["bar"]) = StringSplit "foo.bar".
Proof.
  apply (EngineMore.refCache_consistent false plainDescriptor plainDescriptor
           [(1, meta_wire_params)] loaded "foo.bar"
           {| reference := "foo.bar"; head := "foo"; tail := ["bar"] |}).
  - reflexivity.
  - vm_compute. reflexivity.
Defined.

Lemma getDecoratorsMeta_registered_witness :
  1 = 1
  /\ getDecoratorsMeta 1 (registered meta_public)
     = (Ok (meta_of meta_public), registered meta_public).
Proof.
  apply (EngineMore.getDecoratorsMeta_registered false plainDescriptor
           plainDescriptor 1 meta_public loaded 1 (registered meta_public)).
  exact SampleFacts.registered_public_Ok.
Defined.

Lemma failed_registration_keeps_registry_witness :
  signedDecoratorToMetaMap (registered meta_public)
    = signedDecoratorToMetaMap (registered meta_public)
  /\ forall C, (getDecoratorsMeta C (registered meta_public)).1
               = (getDecoratorsMeta C (registered meta_public)).1.
Proof.
  apply (EngineMore.failed_registration_keeps_registry false plainDescriptor
           plainDescriptor 1 meta_public (registered meta_public)
           (AssertionError "Compiler Error: Invalid @api x field declaration.")
           (registered meta_public)).
  exact registered_twice_Throw.
Defined.

Lemma field_conflict_rejected_witness :
  exists e r',
    registerDecorators false plainDescriptor plainDescriptor 1 meta_track
      (registered meta_track) = (Throw e, r')
    /\ signedDecoratorToMetaMap r'
       = signedDecoratorToMetaMap (registered meta_track).
Proof.
  apply (EngineMore.field_conflict_rejected false plainDescriptor
           plainDescriptor 1 meta_track "t" (registered meta_track)).
  - reflexivity.
  - compute_done.
  - exists (plainDescriptor "t"). vm_compute. reflexivity.
Defined.

Lemma second_registration_rejected_witness :
  exists e r2,
    registerDecorators false plainDescriptor plainDescriptor 1 meta_public
      (registered meta_public) = (Throw e, r2)
    /\ getDecoratorsMeta 1 r2 = (Ok (meta_of meta_public), r2).
Proof.
  apply (EngineMore.second_registration_rejected false plainDescriptor
           plainDescriptor 1 meta_public meta_public "x" loaded 1
           (registered meta_public)).
  - reflexivity.
  - exact SampleFacts.registered_public_Ok.
  - compute_done.
  - compute_done.
Defined.

Lemma public_methods_validated_witness :
  registerPublicMethods false 1 ["foo"] authored = (Ok ["foo"], authored)
  /\ exists msg,
       registerPublicMethods false 1 ["foo"; "bar"] authored
       = (Throw (AssertionError msg), authored).
Proof.
  split.
  - apply (proj1 (EngineMore.public_methods_validated false 1 ["foo"]
                    authored)).
    right. apply Forall_singleton. vm_compute. reflexivity.
  - apply (proj2 (EngineMore.public_methods_validated false 1 ["foo"; "bar"]
                    authored) eq_refl "bar").
    + compute_done.
    + vm_compute. reflexivity.
Defined.

Lemma accessor_without_getter_rejected_witness :
  exists e r',
    registerDecorators false plainDescriptor plainDescriptor 1
      meta_setter_only loaded = (Throw e, r')
    /\ signedDecoratorToMetaMap r' = signedDecoratorToMetaMap loaded.
Proof.
  apply (EngineMore.accessor_without_getter_rejected false plainDescriptor
           plainDescriptor 1 meta_setter_only
           [("z", {| config := 1; type := "any" |})] "z"
           {| config := 1; type := "any" |} loaded).
  - reflexivity.
  - compute_done.
  - left.
  - simpl. lia.
  - intros d Hd. vm_compute in Hd. discriminate Hd.
Defined.

Lemma public_accessor_forwards_witness :
  exists d',
    proto_of 1 (registerDecorators false plainDescriptor plainDescriptor 1
                  meta_accessor authored).2 !! "y" = Some d'
    /\ pd_enumerable d' = false
    /\ pd_configurable d' = true
    /\ (forall this rt, is_Some (vms rt !! this) ->
          descriptor_get d' this rt = (Ok (VNum 7), rt))
    /\ (forall this v rt, is_Some (vms rt !! this) ->
          false = true \/ isRendering rt = false ->
          descriptor_set d' this v rt
          = (Throw (AssertionError
                      ("Invalid attempt to set a new value for property "
                         +:+ "y")), rt)).
Proof.
  apply (EngineMore.public_accessor_forwards false plainDescriptor
           plainDescriptor 1 meta_accessor authored 1 _
           [("y", {| config := 2; type := "any" |})] "y"
           {| config := 2; type := "any" |} authored_accessor
           authored_getter registered_accessor_Ok).
  - reflexivity.
  - compute_done.
  - left.
  - simpl. lia.
  - compute_done.
  - compute_done.
  - compute_done.
  - vm_compute. reflexivity.
  - reflexivity.
Defined.


Lemma wired_field_ignores_writes_witness :
  descriptor_set (internalWireFieldDecorator false "data") 1 (VNum 5) rt0
    = (Ok tt, rt0)
  /\ (descriptor_get (internalWireFieldDecorator false "data") 1
        (descriptor_set (internalWireFieldDecorator false "data")
           1 (VNum 5) rt0).2).1
     = Ok (default VUndefined (cmpFields vm0 !! "data"))
  /\ (descriptor_get (internalWireFieldDecorator false "data") 1
        (descriptor_set (createPublicPropertyDescriptor false "data")
           1 (VNum 5) rt0).2).1
     = Ok (default VUndefined (cmpFields vm0 !! "data")).
Proof.
  apply (EngineMore.wired_field_ignores_writes false "data" 1 vm0 (VNum 5)
           rt0).
  - reflexivity.
  - right. reflexivity.
Defined.


Lemma stored_adapter_resolved_witness :
  exists stored,
    wire_def_of 1 "data" (registered meta_wire) = Some stored
    /\ adapter stored = VFun 3 [].
Proof.
  destruct (EngineMore.stored_adapter_resolved false plainDescriptor
              plainDescriptor 1 meta_wire loaded 1 (registered meta_wire)
              [("data", {| wc_method := None; wc_adapter := VFun 3 [];
                           wc_params := None;
                           wc_static := Some [("kind", VStr "x")] |})]
              "data"
              {| wc_method := None; wc_adapter := VFun 3 [];
                 wc_params := None;
                 wc_static := Some [("kind", VStr "x")] |})
    as (stored & Hstored & _ & Hadapter & _).
  - exact SampleFacts.registered_wire_Ok.
  - reflexivity.
  - compute_done.
  - left.
  - exists stored. split; [exact Hstored | exact Hadapter].
Defined.

Lemma null_adapter_rejected_witness :
  exists e r',
    registerDecorators false plainDescriptor plainDescriptor 1
      meta_no_adapter loaded = (Throw e, r')
    /\ signedDecoratorToMetaMap r' = signedDecoratorToMetaMap loaded.
Proof.
  apply (EngineMore.null_adapter_rejected false plainDescriptor
           plainDescriptor 1 meta_no_adapter [("data", wire_no_adapter)]
           "data" wire_no_adapter loaded).
  - reflexivity.
  - left.
  - reflexivity.
Defined.

Lemma tracked_field_installed_witness :
  proto_of 1 (registered meta_track) !! "t" = Some (plainDescriptor "t").
Proof.
  apply (EngineMore.tracked_field_installed false plainDescriptor
           plainDescriptor 1 meta_track loaded 1 (registered meta_track)
           [("t", 1%Z)] "t" 1%Z).
  - exact registered_track_Ok.
  - reflexivity.
  - compute_done.
  - left.
  - compute_done.
Defined.

Lemma registration_isolated_witness :
  proto_of 2 (registered meta_public) = proto_of 2 loaded
  /\ WireMetaMap (registered meta_public) !! 2 = WireMetaMap loaded !! 2
  /\ signedDecoratorToMetaMap (registered meta_public) !! 2
     = signedDecoratorToMetaMap loaded !! 2.
Proof.
  apply (EngineMore.registration_isolated false plainDescriptor
           plainDescriptor 1 meta_public 2 loaded).
  discriminate.
Defined.

Lemma reactivity_lost_after_recompute_witness :
  ro_listeners
    (run_microtasks (configCallback def_foo) host_foo
       (forEach ["foo"] notify_mutation
          (createConnector host_foo def_foo)).2).2 = []
  /\ hasPendingConfig
       (run_microtasks (configCallback def_foo) host_foo
          (forEach ["foo"] notify_mutation
             (createConnector host_foo def_foo)).2).2 = false.
Proof.
  destruct (ConnectorFacts.reactivity_lost_after_recompute host_foo def_foo
              ["foo"] ["foo"]) as (Hl & Hp & _).
  - apply Exists_cons_hd. vm_compute. left.
  - split; [exact Hl | exact Hp].
Defined.


Lemma uninstalled_adapters_throw_witness :
  (exists res, installWireAdapters false loaded 1 created = (res, created)
               /\ (res = Ok tt <-> false = true))
  /\ (exists msg,
        connectWireAdapters false created
        = (Throw (AssertionError msg), created))
  /\ (exists msg,
        disconnectWireAdapters false created
        = (Throw (AssertionError msg), created)).
Proof.
  apply (LifecycleFacts.uninstalled_adapters_throw false loaded 1 created);
    reflexivity.
Defined.


End MoreSampleFacts.
